(** * Resume scanner backend: quota, upload, LLM-output coercion and auth

    A shallow embedding of the Python backend:
    - [backend/scripts/utils.py]: [call_llm], [check_and_reset_quota],
      [consume_quota], [allowed_file], [_parse_json_or_fallback],
      [process_resume_file], [analyze_resume_vs_jd];
    - [src/backend/auth.py]: [create_user], [authenticate_user],
      [get_current_user_from_request], the password-reset functions;
    - [src/backend/models.py]: the rows [User], [ResumeScan],
      [PasswordResetToken];
    - [app.py]: the handler [api_upload_resume].

    Python objects are values of [pyval]; exceptions are the [Raise] case of
    [result]; the ORM session is an explicit state with a working copy and a
    committed copy of the tables.  Text is modelled as Rocq strings whose
    characters are the code points below 256. *)

From Stdlib Require Import ZArith List String Ascii Bool Lia QArith DecimalString.
Import ListNotations.

Open Scope string_scope.
Open Scope Z_scope.

(* ------------------------------------------------------------------ *)
(** ** Exceptions and fallible computations *)

Inductive exn : Type :=
| ValueError (msg : string)
| TypeError
| AttributeError
| OSError
| UnknownHashError.

Inductive result (A : Type) : Type :=
| Ok (a : A)
| Raise (e : exn).

Arguments Ok {A} a.
Arguments Raise {A} e.

Definition bind {A B : Type} (r : result A) (k : A -> result B) : result B :=
  match r with
  | Ok a => k a
  | Raise e => Raise e
  end.

Notation "x <- c ;; k" := (bind c (fun x => k))
  (at level 61, c at next level, right associativity).

(** [try: body  except Exception: handler]. *)
Definition try_except {A : Type} (body : result A) (handler : exn -> A) : A :=
  match body with
  | Ok a => a
  | Raise e => handler e
  end.

(* ------------------------------------------------------------------ *)
(** ** Python string operations *)

Definition dq : string := String (ascii_of_nat 34) EmptyString.
Definition nl : string := String (ascii_of_nat 10) EmptyString.
Definition backtick : ascii := ascii_of_nat 96.

(** [A-Z] *)
Definition is_upper (c : ascii) : bool :=
  let n := nat_of_ascii c in (65 <=? n)%nat && (n <=? 90)%nat.

(** The upper-case letters U+00C0..U+00DE, without the sign U+00D7. *)
Definition is_upper_latin1 (c : ascii) : bool :=
  let n := nat_of_ascii c in
  (192 <=? n)%nat && (n <=? 222)%nat && negb (n =? 215)%nat.

(** [a-z] *)
Definition is_lower (c : ascii) : bool :=
  let n := nat_of_ascii c in (97 <=? n)%nat && (n <=? 122)%nat.

(** [0-9] *)
Definition is_digit (c : ascii) : bool :=
  let n := nat_of_ascii c in (48 <=? n)%nat && (n <=? 57)%nat.

(** [str.isspace] on one character, which is also the class [\s]:
    TAB..CR, FS..US, the blank, NEL and the no-break space. *)
Definition is_space (c : ascii) : bool :=
  let n := nat_of_ascii c in
  ((9 <=? n)%nat && (n <=? 13)%nat) || ((28 <=? n)%nat && (n <=? 32)%nat)
  || (n =? 133)%nat || (n =? 160)%nat.

Definition lower_char (c : ascii) : ascii :=
  if is_upper c || is_upper_latin1 c then ascii_of_nat (nat_of_ascii c + 32) else c.

(** [s.lower()] *)
Fixpoint lower (s : string) : string :=
  match s with
  | EmptyString => EmptyString
  | String c r => String (lower_char c) (lower r)
  end.

(** [not s] for a string. *)
Definition str_is_empty (s : string) : bool :=
  match s with
  | EmptyString => true
  | String _ _ => false
  end.

(** [s.startswith(p)] *)
Definition startswith (s p : string) : bool := String.prefix p s.

(** [s[n:]] for a non-negative [n]. *)
Fixpoint drop (n : nat) (s : string) : string :=
  match n, s with
  | O, _ => s
  | S n', String _ r => drop n' r
  | S _, EmptyString => EmptyString
  end.

(** [s[:n]] for a non-negative [n]. *)
Fixpoint take (n : nat) (s : string) : string :=
  match n, s with
  | S n', String c r => String c (take n' r)
  | _, _ => EmptyString
  end.

(** [s.endswith(suf)] *)
Definition endswith (s suf : string) : bool :=
  (String.length suf <=? String.length s)%nat
  && String.eqb (drop (String.length s - String.length suf) s) suf.

(** [c in s] for a one-character needle. *)
Fixpoint contains_char (c : ascii) (s : string) : bool :=
  match s with
  | EmptyString => false
  | String d r => Ascii.eqb c d || contains_char c r
  end.

(** [s.find(c)] for a one-character needle: the first index, or -1. *)
Fixpoint find_char (c : ascii) (s : string) : Z :=
  match s with
  | EmptyString => -1
  | String d r =>
      if Ascii.eqb c d then 0
      else let i := find_char c r in if i =? -1 then -1 else i + 1
  end.

(** [s.rfind(c)] for a one-character needle: the last index, or -1. *)
Fixpoint rfind_char (c : ascii) (s : string) : Z :=
  match s with
  | EmptyString => -1
  | String d r =>
      let i := rfind_char c r in
      if i =? -1 then (if Ascii.eqb c d then 0 else -1) else i + 1
  end.

(** [s[a:b]] for [0 <= a <= b]. *)
Definition slice (s : string) (a b : Z) : string :=
  take (Z.to_nat (b - a)) (drop (Z.to_nat a) s).

(** [s.replace(a, b)] for one-character [a] and [b]. *)
Fixpoint replace_char (a b : ascii) (s : string) : string :=
  match s with
  | EmptyString => EmptyString
  | String c r => String (if Ascii.eqb c a then b else c) (replace_char a b r)
  end.

Fixpoint lstrip_by (p : ascii -> bool) (s : string) : string :=
  match s with
  | EmptyString => EmptyString
  | String c r => if p c then lstrip_by p r else s
  end.

Definition str_rev (s : string) : string :=
  string_of_list_ascii (rev (list_ascii_of_string s)).

Definition rstrip_by (p : ascii -> bool) (s : string) : string :=
  str_rev (lstrip_by p (str_rev s)).

(** [s.strip()] *)
Definition strip (s : string) : string := rstrip_by is_space (lstrip_by is_space s).

(** [s.strip(c)] for a one-character set. *)
Definition strip_char (c : ascii) (s : string) : string :=
  rstrip_by (Ascii.eqb c) (lstrip_by (Ascii.eqb c) s).

(** [sep.join(parts)] *)
Fixpoint join (sep : string) (parts : list string) : string :=
  match parts with
  | [] => EmptyString
  | [p] => p
  | p :: rest => p ++ sep ++ join sep rest
  end.

(* ------------------------------------------------------------------ *)
(** ** Python values

    What [json.loads] and [ast.literal_eval] can return.  A float is a
    rational or a non-finite value; [PyOther] stands for the remaining
    literals ([tuple], [set], [bytes], [complex]), which have neither [.get]
    nor item assignment by string and of which only the truth value matters
    here.  A [dict] keeps its insertion order. *)

Set Warnings "-register-all".

Inductive pyfloat : Type :=
| Finite (q : Q)
| NonFinite.

Inductive pyval : Type :=
| PyNone
| PyBool (b : bool)
| PyInt (n : Z)
| PyFloat (f : pyfloat)
| PyStr (s : string)
| PyList (l : list pyval)
| PyDict (d : list (pyval * pyval))
| PyOther (nonempty : bool).

(** [bool(v)] *)
Definition truthy (v : pyval) : bool :=
  match v with
  | PyNone => false
  | PyBool b => b
  | PyInt n => negb (n =? 0)
  | PyFloat (Finite q) => negb (Qnum q =? 0)
  | PyFloat NonFinite => true
  | PyStr s => negb (str_is_empty s)
  | PyList l => match l with [] => false | _ :: _ => true end
  | PyDict d => match d with [] => false | _ :: _ => true end
  | PyOther b => b
  end.

(** [a or b] *)
Definition py_or (a b : pyval) : pyval := if truthy a then a else b.

Definition is_key (k : string) (v : pyval) : bool :=
  match v with
  | PyStr s => String.eqb s k
  | _ => false
  end.

(** Lookup of a string key in the items of a dict. *)
Fixpoint dict_lookup (k : string) (d : list (pyval * pyval)) : option pyval :=
  match d with
  | [] => None
  | (k', v) :: r => if is_key k k' then Some v else dict_lookup k r
  end.

(** [d[k] = v] on the items of a dict: replace in place or append. *)
Fixpoint dict_set (k : string) (v : pyval) (d : list (pyval * pyval))
  : list (pyval * pyval) :=
  match d with
  | [] => [(PyStr k, v)]
  | (k', v') :: r =>
      if is_key k k' then (k', v) :: r else (k', v') :: dict_set k v r
  end.

(** [k in d] *)
Definition dict_has (k : string) (d : list (pyval * pyval)) : bool :=
  match dict_lookup k d with
  | Some _ => true
  | None => false
  end.

(** [obj.get(k, default)]: only a dict has the method. *)
Definition py_get (obj : pyval) (k : string) (default : pyval) : result pyval :=
  match obj with
  | PyDict d =>
      Ok (match dict_lookup k d with Some v => v | None => default end)
  | _ => Raise AttributeError
  end.

Definition items_of (kvs : list (string * pyval)) : list (pyval * pyval) :=
  map (fun kv => (PyStr (fst kv), snd kv)) kvs.

(** A dict display [{k1: v1, ...}] with distinct string keys. *)
Definition mkdict (kvs : list (string * pyval)) : pyval := PyDict (items_of kvs).

Definition strs (l : list string) : pyval := PyList (map PyStr l).

Definition is_list (v : pyval) : bool :=
  match v with
  | PyList _ => true
  | _ => false
  end.

Definition str_of_key (v : pyval) : result string :=
  match v with
  | PyStr s => Ok s
  | _ => Raise TypeError
  end.

Fixpoint all_strs (l : list pyval) : result (list string) :=
  match l with
  | [] => Ok []
  | v :: r => s <- str_of_key v ;; ss <- all_strs r ;; Ok (s :: ss)
  end.

Fixpoint chars_of (s : string) : list string :=
  match s with
  | EmptyString => []
  | String c r => String c EmptyString :: chars_of r
  end.

(** [sep.join(v)]: [v] must be an iterable of strings; a string iterates
    over its characters and a dict over its keys. *)
Definition py_join (sep : string) (v : pyval) : result string :=
  match v with
  | PyList l => ss <- all_strs l ;; Ok (join sep ss)
  | PyStr s => Ok (join sep (chars_of s))
  | PyDict d => ss <- all_strs (map fst d) ;; Ok (join sep ss)
  | _ => Raise TypeError
  end.

(** [a + b] with a string on the left. *)
Definition str_add (a : string) (b : pyval) : result pyval :=
  match b with
  | PyStr s => Ok (PyStr (a ++ s))
  | _ => Raise TypeError
  end.

(* ------------------------------------------------------------------ *)
(** ** Libraries outside the repository

    [json], [ast], the [int] parser for strings, [passlib]'s [CryptContext]
    and [jose.jwt] are taken as they are: any behaviour is allowed. *)

Class Lib : Type := {
  (** [json.loads(s)]; [None] when it raises. *)
  json_loads : string -> option pyval;
  (** [ast.literal_eval(s)]; [None] when it raises. *)
  literal_eval : string -> option pyval;
  (** [int(s)] for a string [s]; [None] for ValueError. *)
  int_of_str : string -> option Z;
  (** [pwd_ctx.hash(password)] with the salt it draws. *)
  pwd_hash : Z -> string -> string;
  (** [pwd_ctx.verify(plain, hashed)], which raises UnknownHashError when
      it does not recognise the format of [hashed]. *)
  pwd_verify : string -> string -> result bool;
  (** [jwt.decode(token, SECRET_KEY, ...)] followed by [payload.get("sub")];
      [None] for JWTError, [Some None] for a payload without subject. *)
  jwt_decode_sub : string -> option (option string)
}.

(** [int(v)] *)
Definition py_int {L : Lib} (v : pyval) : result Z :=
  match v with
  | PyInt n => Ok n
  | PyBool b => Ok (if b then 1 else 0)
  | PyFloat (Finite q) => Ok (Z.quot (Qnum q) (Z.pos (Qden q)))
  | PyFloat NonFinite => Raise (ValueError "cannot convert float to integer")
  | PyStr s =>
      match int_of_str s with
      | Some n => Ok n
      | None => Raise (ValueError "invalid literal for int()")
      end
  | _ => Raise TypeError
  end.

(* ------------------------------------------------------------------ *)
(** ** Settings (config.py) *)

Record Settings : Type := {
  MAX_MONTHLY_SCANS : Z;
  UPLOAD_DIR : string
}.

(** The values [Settings] takes when the environment sets nothing. *)
Definition default_settings : Settings :=
  {| MAX_MONTHLY_SCANS := 10; UPLOAD_DIR := "uploads/resumes" |}.

Definition ALLOWED_EXTENSIONS : list string := [".pdf"; ".docx"].

Definition UNLIMITED_EMAIL : string := "nadeemali001@gmail.com".

(* ------------------------------------------------------------------ *)
(** ** Rows (models.py) and the session *)

Record date : Type := { d_year : Z; d_month : Z; d_day : Z }.

Record datetime : Type := {
  dt_year : Z; dt_month : Z; dt_day : Z;
  dt_hour : Z; dt_minute : Z; dt_second : Z; dt_micro : Z
}.

Definition dt_fields (t : datetime) : list Z :=
  [dt_year t; dt_month t; dt_day t; dt_hour t; dt_minute t; dt_second t; dt_micro t].

Fixpoint lex_ltb (a b : list Z) : bool :=
  match a, b with
  | x :: a', y :: b' => (x <? y) || ((x =? y) && lex_ltb a' b')
  | _, _ => false
  end.

(** [a < b] on UTC datetimes. *)
Definition dt_ltb (a b : datetime) : bool := lex_ltb (dt_fields a) (dt_fields b).

(** The value of [User.last_quota_reset]: NULL, a datetime, or a value
    whose [.month] / [.year] access raises. *)
Inductive quota_stamp : Type :=
| StampNone
| StampAt (t : datetime)
| StampOpaque.

(** [User]; the profile columns play no part and are left out. *)
Record User : Type := {
  user_id : Z;
  email : string;
  hashed_password : string;
  scan_count : option Z;
  last_quota_reset : quota_stamp
}.

Record ResumeScan : Type := {
  scan_id : Z;
  scan_user_id : Z;
  filename : string;
  original_filename : string;
  file_size : Z;
  ats_score : Z;
  feedback : pyval;
  analysis : pyval
}.

Record PasswordResetToken : Type := {
  token_id : Z;
  token_user_id : Z;
  token : string;
  expires_at : datetime;
  used : bool
}.

Record DB : Type := {
  users : list User;
  scans : list ResumeScan;
  tokens : list PasswordResetToken
}.

(** A session: the rows as the session sees them ([work]) and the rows
    last committed ([stored]). *)
Record Session : Type := { work : DB; stored : DB }.

Definition open_session (db : DB) : Session := {| work := db; stored := db |}.

(** [db.commit()] *)
Definition commit (s : Session) : Session := {| work := work s; stored := work s |}.

Definition with_work (f : DB -> DB) (s : Session) : Session :=
  {| work := f (work s); stored := stored s |}.

(** An attribute assignment on a loaded [User] object: the row with the
    object's primary key now holds the object's value. *)
Definition write_user (u : User) (db : DB) : DB :=
  {| users := map (fun r => if user_id r =? user_id u then u else r) (users db);
     scans := scans db;
     tokens := tokens db |}.

Definition write_token (t : PasswordResetToken) (db : DB) : DB :=
  {| users := users db;
     scans := scans db;
     tokens := map (fun r => if token_id r =? token_id t then t else r) (tokens db) |}.

Definition next_id (ids : list Z) : Z := fold_right Z.max 0 ids + 1.

(** [db.query(User).filter(User.email == e).first()] *)
Definition user_by_email (db : DB) (e : string) : option User :=
  find (fun u => String.eqb (email u) e) (users db).

(** The target of the [user] relationship of a token row. *)
Definition user_by_id (db : DB) (i : Z) : option User :=
  find (fun u => user_id u =? i) (users db).

Definition set_scan_count (c : option Z) (u : User) : User :=
  {| user_id := user_id u; email := email u; hashed_password := hashed_password u;
     scan_count := c; last_quota_reset := last_quota_reset u |}.

Definition set_last_quota_reset (t : quota_stamp) (u : User) : User :=
  {| user_id := user_id u; email := email u; hashed_password := hashed_password u;
     scan_count := scan_count u; last_quota_reset := t |}.

Definition set_hashed_password (h : string) (u : User) : User :=
  {| user_id := user_id u; email := email u; hashed_password := h;
     scan_count := scan_count u; last_quota_reset := last_quota_reset u |}.

Definition set_used (b : bool) (t : PasswordResetToken) : PasswordResetToken :=
  {| token_id := token_id t; token_user_id := token_user_id t; token := token t;
     expires_at := expires_at t; used := b |}.

(** [user.scan_count or 0] *)
Definition count_or_0 (u : User) : Z :=
  match scan_count u with
  | Some n => n
  | None => 0
  end.

(* ------------------------------------------------------------------ *)
(** ** The world around one call

    Clock, random source, file system and the LLM service are inputs. *)

Inductive http_outcome : Type :=
| HttpTimeout
| HttpConnectionError
| HttpFailure
| HttpOk (response : string).

(** The generator behind [random]: raw draws and a cursor. *)
Record Rng : Type := { draws : nat -> Z; cursor : nat }.

Definition next_draw (g : Rng) : Z * Rng :=
  (draws g (cursor g), {| draws := draws g; cursor := S (cursor g) |}).

(** [random.randint(a, b)]: the draw folded into [a..b]. *)
Definition randint (a b : Z) (g : Rng) : Z * Rng :=
  let (raw, g') := next_draw g in (a + raw mod (b - a + 1), g').

(** [random.random() > 0.5]: [random()] is [k / 2^53] for the draw
    [k] in [0 .. 2^53 - 1]. *)
Definition random_gt_half (g : Rng) : bool * Rng :=
  let (raw, g') := next_draw g in (2 ^ 52 <? raw mod 2 ^ 53, g').

Record World : Type := {
  (** [date.today()] *)
  w_today : date;
  (** [datetime.now(timezone.utc)] *)
  w_now : datetime;
  (** [int(time.time())] *)
  w_time : Z;
  (** the answer of the Ollama endpoint to a prompt: the "response" field
      of a 2xx JSON body, or the failure of the request *)
  w_llm : string -> http_outcome;
  (** whether PyPDF2 / python-docx could be imported *)
  w_has_pypdf2 : bool;
  w_has_docx : bool;
  (** the page texts of a PDF joined by newlines, the paragraphs of a DOCX
      joined by newlines, or the exception met while reading *)
  w_pdf_text : string -> result string;
  w_docx_text : string -> result string;
  (** writing the uploaded bytes to a path: the resulting file size *)
  w_save : string -> result Z;
  w_rng : Rng;
  (** the salt [pwd_ctx.hash] draws *)
  w_salt : Z
}.

(* ------------------------------------------------------------------ *)
(** ** utils.py *)

(** [call_llm]: every failure of the request yields the empty string. *)
Definition call_llm (w : World) (prompt : string) : string :=
  match w_llm w prompt with
  | HttpOk r => strip r
  | HttpTimeout => ""
  | HttpConnectionError => ""
  | HttpFailure => ""
  end.

Definition MAX_MONTHLY (cfg : Settings) : Z := MAX_MONTHLY_SCANS cfg.

(** An attribute assignment on the loaded object [user]. *)
Definition setattr_user (f : User -> User) (us : User * Session) : User * Session :=
  let u' := f (fst us) in (u', with_work (write_user u') (snd us)).

Definition commit_user (us : User * Session) : User * Session :=
  (fst us, commit (snd us)).

(** [check_and_reset_quota(db, user)]: the remaining scans, with the
    object and the session as the call leaves them. *)
Definition check_and_reset_quota (cfg : Settings) (w : World) (s : Session) (user : User)
  : Z * (User * Session) :=
  if String.eqb (email user) UNLIMITED_EMAIL then (999999, (user, s))
  else
    let today := w_today w in
    let last := last_quota_reset user in
    let us :=
      match last with
      | StampNone =>
          commit_user
            (setattr_user (set_scan_count (Some 0))
               (setattr_user (set_last_quota_reset (StampAt (w_now w))) (user, s)))
      | StampAt l =>
          if negb (dt_month l =? d_month today) || negb (dt_year l =? d_year today)
          then
            commit_user
              (setattr_user (set_last_quota_reset (StampAt (w_now w)))
                 (setattr_user (set_scan_count (Some 0)) (user, s)))
          else (user, s)
      | StampOpaque =>
          commit_user
            (setattr_user (set_last_quota_reset (StampAt (w_now w)))
               (setattr_user (set_scan_count (Some 0)) (user, s)))
      end in
    let remaining := MAX_MONTHLY cfg - count_or_0 (fst us) in
    (Z.max 0 remaining, us).

(** [consume_quota(db, user)] *)
Definition consume_quota (s : Session) (user : User) : User * Session :=
  if String.eqb (email user) UNLIMITED_EMAIL then (user, s)
  else
    commit_user
      (setattr_user (set_scan_count (Some (count_or_0 user + 1))) (user, s)).

(** [allowed_file(filename)]; the upload's file name may be [None]. *)
Definition allowed_file (filename : option string) : bool :=
  match filename with
  | None => false
  | Some f =>
      if str_is_empty f then false
      else
        let lower := lower f in
        existsb (fun ext => endswith lower ext) ALLOWED_EXTENSIONS
  end.

(** [os.path.basename(path)] *)
Definition basename (path : string) : string :=
  drop (Z.to_nat (rfind_char "/" path + 1)) path.

Fixpoint has_non_dot (s : string) : bool :=
  match s with
  | EmptyString => false
  | String c r => negb (Ascii.eqb c ".") || has_non_dot r
  end.

(** [os.path.splitext(path)[1]]: from the last dot of the last component,
    unless that component has only dots before it. *)
Definition splitext_ext (path : string) : string :=
  let sep := rfind_char "/" path in
  let dot := rfind_char "." path in
  if (sep <? dot) && has_non_dot (slice path (sep + 1) dot)
  then drop (Z.to_nat dot) path
  else "".

Definition _extract_text_from_pdf (w : World) (path : string) : string :=
  if negb (w_has_pypdf2 w) then ""
  else try_except (w_pdf_text w path) (fun _ => "").

Definition _extract_text_from_docx (w : World) (path : string) : string :=
  if negb (w_has_docx w) then ""
  else try_except (w_docx_text w path) (fun _ => "").

Definition extract_text_from_file (w : World) (path : string) : string :=
  let ext := lower (splitext_ext path) in
  if String.eqb ext ".pdf" then _extract_text_from_pdf w path
  else if String.eqb ext ".docx" then _extract_text_from_docx w path
  else "".

(** *** The two regular expressions of [_parse_json_or_fallback] *)

Definition is_closer (c : ascii) : bool := Ascii.eqb c "}" || Ascii.eqb c "]".

(** Does the text start with [\s*[}\]]]? *)
Fixpoint closer_after_spaces (s : string) : bool :=
  match s with
  | EmptyString => false
  | String c r => is_closer c || (is_space c && closer_after_spaces r)
  end.

(** [re.sub(r",\s*([}\]])", r"\1", s)].  With [dropping] set, the scan is
    inside a match: the comma is gone and the white space before the
    bracket goes too. *)
Fixpoint sub_trailing_commas (dropping : bool) (s : string) : string :=
  match s with
  | EmptyString => EmptyString
  | String c r =>
      if dropping then
        if is_closer c then String c (sub_trailing_commas false r)
        else sub_trailing_commas true r
      else if Ascii.eqb c "," && closer_after_spaces r then sub_trailing_commas true r
      else String c (sub_trailing_commas false r)
  end.

Definition remove_trailing_commas (s : string) : string := sub_trailing_commas false s.

Definition fence : string := "```".

(** The lazy [.*?] followed by [\}\s*```]: the shortest body whose closing
    brace is followed by the fence; [acc] is the text matched so far. *)
Fixpoint fenced_body (acc s : string) : option string :=
  match s with
  | EmptyString => None
  | String c r =>
      if Ascii.eqb c "}" && startswith (lstrip_by is_space r) fence
      then Some (acc ++ "}")
      else fenced_body (acc ++ String c EmptyString) r
  end.

(** A match of the whole pattern at the start of [s]: its group 1. *)
Definition fenced_at (s : string) : option string :=
  if String.eqb (lower (take 7 s)) "```json" then
    match lstrip_by is_space (drop 7 s) with
    | String c r => if Ascii.eqb c "{" then fenced_body "{" r else None
    | EmptyString => None
    end
  else None.

(** [re.search(r"```json\s*(\{.*?\})\s*```", s, IGNORECASE | DOTALL)]:
    group 1 of the leftmost match. *)
Fixpoint search_fenced_json (s : string) : option string :=
  match fenced_at s with
  | Some g => Some g
  | None =>
      match s with
      | EmptyString => None
      | String _ r => search_fenced_json r
      end
  end.

Section WithLib.

Context {L : Lib}.

(** The nested [try] chain applied to a candidate, the same text in both
    places it occurs: strict JSON, then JSON after replacing single quotes,
    then a Python literal.  [Some v] is [return v]. *)
Definition parse_candidate (candidate : string) : option pyval :=
  match json_loads candidate with
  | Some v => Some v
  | None =>
      match json_loads (replace_char "'" (ascii_of_nat 34) candidate) with
      | Some v => Some v
      | None => literal_eval candidate
      end
  end.

(** [_parse_json_or_fallback(text)]; [PyNone] is Python's [None]. *)
Definition _parse_json_or_fallback (text : string) : pyval :=
  if str_is_empty text then PyNone
  else
    match json_loads text with
    | Some v => v
    | None =>
        let fenced :=
          match search_fenced_json text with
          | Some candidate => parse_candidate (remove_trailing_commas candidate)
          | None => None
          end in
        match fenced with
        | Some v => v
        | None =>
            let start := find_char "{" text in
            let end_ := rfind_char "}" text in
            let braces :=
              if negb (start =? -1) && negb (end_ =? -1) && (start <? end_)
              then parse_candidate (remove_trailing_commas (slice text start (end_ + 1)))
              else None in
            match braces with
            | Some v => v
            | None => PyNone
            end
        end
    end.

(** *** [process_resume_file] *)

Definition resume_prompt (file_name resume_text : string) : string :=
  join nl
    [ "";
      "You are an expert resume reviewer. Given the resume text below, produce a JSON object exactly with these keys:";
      "- score: integer 0-100 (ATS-style score)";
      "- strengths: list of 1-5 short strings";
      "- weaknesses: list of 1-5 short strings";
      "- suggestions: list of 3-6 short actionable suggestions";
      "";
      "Resume filename: " ++ file_name;
      "";
      "Resume text:";
      dq ++ dq ++ dq ++ resume_text ++ dq ++ dq ++ dq;
      "";
      "Return only valid JSON. Do not add any explanatory text.";
      "" ].

(** The branch [if parsed:] up to its [return]. *)
Definition llm_analysis (parsed : pyval) : result pyval :=
  score_v <- py_get parsed "score" (PyInt 0) ;;
  score <- py_int score_v ;;
  strengths_v <- py_get parsed "strengths" PyNone ;;
  let strengths := py_or strengths_v (PyList []) in
  weaknesses_v <- py_get parsed "weaknesses" PyNone ;;
  let weaknesses := py_or weaknesses_v (PyList []) in
  suggestions_v <- py_get parsed "suggestions" PyNone ;;
  let suggestions := py_or suggestions_v (PyList []) in
  feedback <-
    (if truthy suggestions
     then joined <- py_join "; " suggestions ;; Ok (PyStr ("Suggestions: " ++ joined))
     else py_get parsed "feedback" (PyStr "")) ;;
  Ok (mkdict
        [ ("score", PyInt score);
          ("feedback", py_or feedback (PyStr ""));
          ("strengths", strengths);
          ("weaknesses", weaknesses);
          ("suggestions", suggestions);
          ("raw", parsed) ]).

(** The fallback mock analysis. *)
Definition mock_analysis (g : Rng) : pyval :=
  let (score, g1) := randint 35 90 g in
  let (more_strengths, g2) := random_gt_half g1 in
  let (more_weaknesses, _) := random_gt_half g2 in
  mkdict
    [ ("score", PyInt score);
      ("feedback",
        PyStr "Mock feedback: emphasize achievements, quantify results, and add relevant keywords.");
      ("strengths",
        if more_strengths then strs ["Clear formatting"; "Relevant experience"]
        else strs ["Concise summary"]);
      ("weaknesses",
        if more_weaknesses then strs ["Missing metrics"; "Weak keywords"]
        else strs ["Too generic summary"]);
      ("suggestions",
        strs [ "Quantify achievements with numbers";
               "Add specific keywords from job descriptions";
               "List measurable results for major projects" ]) ].

(** The body of the [try]: [Ok (Some r)] returns [r], [Ok None] is the
    unparsable case that falls out of the [try]. *)
Definition try_llm_analysis (w : World) (path resume_text : string)
  : result (option pyval) :=
  let prompt := resume_prompt (basename path) resume_text in
  let raw := call_llm w prompt in
  let parsed := _parse_json_or_fallback raw in
  if truthy parsed then r <- llm_analysis parsed ;; Ok (Some r)
  else Ok None.

(** The first two statements: the text that goes into the prompt. *)
Definition resume_text_of (w : World) (path : string) : string :=
  let resume_text := extract_text_from_file w path in
  if str_is_empty resume_text
  then "[Could not extract text from file. Filename: " ++ basename path ++ "]"
  else resume_text.

Definition process_resume_file (w : World) (path : string) : result pyval :=
  let resume_text := resume_text_of w path in
  match try_llm_analysis w path resume_text with
  | Ok (Some r) => Ok r
  | Ok None => Ok (mock_analysis (w_rng w))
  | Raise _ => Ok (mock_analysis (w_rng w))
  end.

(** *** [analyze_resume_vs_jd] *)

(** A JSON string literal. *)
Definition q (s : string) : string := dq ++ s ++ dq.

Definition compare_prompt (resume_content jd_content resume_name jd_title : string)
  : string :=
  join nl
    [ "Analyze this resume against the job description and return ONLY a valid JSON object with these exact fields:";
      "";
      "{";
      "  " ++ q "match_score" ++ ": 75,";
      "  " ++ q "ats_score" ++ ": 80,";
      "  " ++ q "strengths" ++ ": [" ++ q "Strong technical background in Python"
        ++ ", " ++ q "Relevant project experience" ++ "],";
      "  " ++ q "weaknesses" ++ ": [" ++ q "Missing cloud experience"
        ++ ", " ++ q "Limited leadership examples" ++ "],";
      "  " ++ q "improvements" ++ ": [" ++ q "Add AWS certifications"
        ++ ", " ++ q "Quantify achievements with numbers" ++ "],";
      "  " ++ q "matched_keywords" ++ ": [" ++ q "Python" ++ ", " ++ q "SQL"
        ++ ", " ++ q "Agile" ++ "],";
      "  " ++ q "missing_keywords" ++ ": [" ++ q "AWS" ++ ", " ++ q "Docker"
        ++ ", " ++ q "Kubernetes" ++ "],";
      "  " ++ q "experience_match" ++ ": " ++ q "Good match for mid-level position" ++ ",";
      "  " ++ q "skills_alignment" ++ ": 70,";
      "  " ++ q "recommendation" ++ ": "
        ++ q "Strong candidate with room for improvement" ++ ",";
      "  " ++ q "resume_name" ++ ": " ++ q resume_name ++ ",";
      "  " ++ q "jd_title" ++ ": " ++ q jd_title;
      "}";
      "";
      "Resume: " ++ take 2000 resume_content;
      "";
      "Job Description: " ++ take 2000 jd_content;
      "";
      "Return ONLY the JSON object. No markdown, no explanations, no code blocks." ].

Definition expected_keys : list string :=
  [ "match_score"; "ats_score"; "strengths"; "weaknesses"; "improvements";
    "matched_keywords"; "missing_keywords"; "experience_match";
    "skills_alignment"; "recommendation"; "resume_name"; "jd_title" ].

Definition str_in (k : string) (l : list string) : bool := existsb (String.eqb k) l.

(** The value the loop stores for a missing key. *)
Definition default_for (key : string) : pyval :=
  if str_in key ["strengths"; "weaknesses"; "improvements"; "matched_keywords";
                 "missing_keywords"]
  then PyList []
  else if negb (str_in key ["match_score"; "ats_score"; "skills_alignment"])
       then PyStr ""
       else PyInt 0.

(** One turn of the loop [for key in expected_keys]. *)
Definition fill_step (d : list (pyval * pyval)) (key : string) : list (pyval * pyval) :=
  if negb (dict_has key d) then dict_set key (default_for key) d else d.

Definition fill_missing (d : list (pyval * pyval)) : list (pyval * pyval) :=
  fold_left fill_step expected_keys d.

(** [if not data.get(key): data[key] = content] *)
Definition ensure_content (key : string) (content : pyval) (d : list (pyval * pyval))
  : list (pyval * pyval) :=
  if negb (truthy (match dict_lookup key d with Some v => v | None => PyNone end))
  then dict_set key content d
  else d.

(** The lists put in where the answer has no content. *)
Definition strengths_content : pyval :=
  strs ["Resume shows relevant experience"; "Clear professional formatting"].

Definition weaknesses_content : pyval :=
  strs [ "Could benefit from more specific achievements";
         "Missing some key industry keywords" ].

Definition improvements_content : pyval :=
  strs [ "Quantify achievements with specific numbers";
         "Add more industry-specific keywords";
         "Include measurable results" ].

(** The cleaning of the raw answer down to [json_str]. *)
Definition extract_json_str (raw : string) : result string :=
  let raw_clean := strip raw in
  let raw_clean :=
    if startswith raw_clean "```json" then drop 7 raw_clean else raw_clean in
  let raw_clean :=
    if startswith raw_clean "```" then drop 3 raw_clean else raw_clean in
  let raw_clean :=
    if endswith raw_clean "```"
    then take (String.length raw_clean - 3) raw_clean
    else raw_clean in
  let raw_clean := strip_char backtick raw_clean in
  if startswith raw_clean "{" && endswith raw_clean "}" then Ok raw_clean
  else
    let start_idx := find_char "{" raw_clean in
    let end_idx := rfind_char "}" raw_clean in
    if negb (start_idx =? -1) && negb (end_idx =? -1) && (start_idx <? end_idx)
    then Ok (slice raw_clean start_idx (end_idx + 1))
    else Raise (ValueError "No valid JSON found in response").

(** The body of the [try].  On a value that is not a dict the membership
    test, the item assignment or [.get] raises. *)
Definition try_parse_comparison (raw : string) : result pyval :=
  json_str <- extract_json_str raw ;;
  data <-
    match json_loads json_str with
    | Some v => Ok v
    | None => Raise (ValueError "json.loads")
    end ;;
  match data with
  | PyDict d =>
      let d := fill_missing d in
      let d := ensure_content "strengths" strengths_content d in
      let d := ensure_content "weaknesses" weaknesses_content d in
      let d := ensure_content "improvements" improvements_content d in
      Ok (PyDict d)
  | PyNone | PyBool _ | PyInt _ | PyFloat _ | PyOther _ => Raise TypeError
  | PyStr _ | PyList _ => Raise TypeError
  end.

(** The enhanced fallback mock. *)
Definition mock_comparison (g : Rng) (resume_name jd_title : string) : pyval :=
  let (match_score, g1) := randint 45 95 g in
  let (ats, g2) := randint 40 90 g1 in
  let (skills, _) := randint 60 95 g2 in
  mkdict
    [ ("match_score", PyInt match_score);
      ("ats_score", PyInt ats);
      ("strengths",
        strs [ "Resume demonstrates relevant technical experience in the field";
               "Clear and professional formatting that's easy to read";
               "Shows progression in career with increasing responsibilities" ]);
      ("weaknesses",
        strs [ "Missing specific metrics and quantifiable achievements";
               "Could benefit from more industry-specific keywords";
               "Limited examples of leadership or project management experience" ]);
      ("improvements",
        strs [ "Add specific numbers and percentages to quantify achievements (e.g., 'increased sales by 25%')";
               "Include more keywords from the job description throughout the resume";
               "Add a summary section highlighting key qualifications";
               "Include examples of problem-solving and leadership experience" ]);
      ("matched_keywords",
        strs ["python"; "sql"; "project management"; "data analysis"; "team collaboration"]);
      ("missing_keywords",
        strs ["aws"; "machine learning"; "agile methodology"; "cloud computing"]);
      ("experience_match",
        PyStr "Mid-level professional with 3-5 years of relevant experience");
      ("skills_alignment", PyInt skills);
      ("recommendation",
        PyStr "Good overall fit with room for improvement. Focus on adding specific metrics and missing technical skills to increase match score.");
      ("resume_name", PyStr resume_name);
      ("jd_title", PyStr jd_title) ].

Definition analyze_resume_vs_jd (w : World)
  (resume_content jd_content resume_name jd_title : string) : result pyval :=
  let prompt := compare_prompt resume_content jd_content resume_name jd_title in
  let raw := call_llm w prompt in
  match try_parse_comparison raw with
  | Ok data => Ok data
  | Raise _ => Ok (mock_comparison (w_rng w) resume_name jd_title)
  end.

(* ------------------------------------------------------------------ *)
(** ** auth.py *)

Definition get_password_hash (w : World) (password : string) : string :=
  pwd_hash (w_salt w) password.

Definition verify_password (plain hashed : string) : result bool :=
  match pwd_verify plain hashed with
  | Ok b => Ok b
  | Raise UnknownHashError => Raise UnknownHashError
  | Raise e => Raise e
  end.

Definition add_user (u : User) (db : DB) : DB :=
  {| users := users db ++ [u]; scans := scans db; tokens := tokens db |}.

(** [create_user(db, email, password)]; the new row gets its key and its
    column defaults when it is flushed. *)
Definition create_user (w : World) (s : Session) (email_ password : string)
  : result User * Session :=
  let existing := user_by_email (work s) email_ in
  match existing with
  | Some _ => (Raise (ValueError "Email already registered"), s)
  | None =>
      let u :=
        {| user_id := next_id (map user_id (users (work s)));
           email := email_;
           hashed_password := get_password_hash w password;
           scan_count := Some 0;
           last_quota_reset := StampAt (w_now w) |} in
      (Ok u, commit (with_work (add_user u) s))
  end.

(** [authenticate_user(db, email, password)] *)
Definition authenticate_user (w : World) (s : Session) (email_ password : string)
  : result (option User) * Session :=
  match user_by_email (work s) email_ with
  | None => (Ok None, s)
  | Some u =>
      match verify_password password (hashed_password u) with
      | Ok true => (Ok (Some u), s)
      | Ok false => (Ok None, s)
      | Raise UnknownHashError =>
          let stored_ := hashed_password u in
          if negb (contains_char "$" stored_) && String.eqb password stored_ then
            let us :=
              commit_user
                (setattr_user (set_hashed_password (get_password_hash w password)) (u, s)) in
            (Ok (Some (fst us)), snd us)
          else (Ok None, s)
      | Raise e => (Raise e, s)
      end
  end.

Record Request : Type := {
  (** the Authorization header *)
  authorization : option string;
  (** the cookie named by [settings.SESSION_COOKIE] *)
  session_cookie : option string
}.

(** [h.split(" ")[1]] for a header that starts with ["Bearer "]. *)
Fixpoint until_blank (s : string) : string :=
  match s with
  | EmptyString => EmptyString
  | String c r => if Ascii.eqb c " " then EmptyString else String c (until_blank r)
  end.

Definition request_token (request : Request) : option string :=
  match authorization request with
  | Some auth_header =>
      if negb (str_is_empty auth_header) && startswith auth_header "Bearer "
      then Some (until_blank (drop 7 auth_header))
      else session_cookie request
  | None => session_cookie request
  end.

Definition get_current_user_from_request (request : Request) (s : Session)
  : option User :=
  match request_token request with
  | None => None
  | Some tok =>
      if str_is_empty tok then None
      else
        match jwt_decode_sub tok with
        | None => None
        | Some None => None
        | Some (Some email_) =>
            if str_is_empty email_ then None
            else user_by_email (work s) email_
        end
  end.

(** The filter of [verify_password_reset_token]. *)
Definition token_valid (now : datetime) (tok : string) (t : PasswordResetToken) : bool :=
  String.eqb (token t) tok && negb (used t) && dt_ltb now (expires_at t).

Definition verify_password_reset_token (w : World) (s : Session) (tok : string)
  : option User :=
  match find (token_valid (w_now w) tok) (tokens (work s)) with
  | None => None
  | Some reset_token => user_by_id (work s) (token_user_id reset_token)
  end.

Definition use_password_reset_token (s : Session) (tok : string) : bool * Session :=
  match find (fun t => String.eqb (token t) tok && negb (used t)) (tokens (work s)) with
  | None => (false, s)
  | Some reset_token =>
      (true, commit (with_work (write_token (set_used true reset_token)) s))
  end.

Definition reset_user_password (w : World) (s : Session) (tok new_password : string)
  : bool * Session :=
  match verify_password_reset_token w s tok with
  | None => (false, s)
  | Some user =>
      let us :=
        setattr_user (set_hashed_password (get_password_hash w new_password)) (user, s) in
      let s1 := snd (use_password_reset_token (snd us) tok) in
      (true, commit s1)
  end.

(* ------------------------------------------------------------------ *)
(** ** app.py: [api_upload_resume]

    The handler runs on a session of its own; an exception leaves the
    session as it was when it was raised. *)

Definition M (A : Type) : Type := Session -> result A * Session.

Definition ret {A : Type} (a : A) : M A := fun s => (Ok a, s).

Definition raise {A : Type} (e : exn) : M A := fun s => (Raise e, s).

Definition bindM {A B : Type} (m : M A) (k : A -> M B) : M B :=
  fun s =>
    match m s with
    | (Ok a, s') => k a s'
    | (Raise e, s') => (Raise e, s')
    end.

Definition lift {A : Type} (r : result A) : M A := fun s => (r, s).

Definition modify (f : Session -> Session) : M unit := fun s => (Ok tt, f s).

Notation "x <~ c ;; k" := (bindM c (fun x => k))
  (at level 61, c at next level, right associativity).

Record UploadFile : Type := { up_filename : option string }.

(** The fields of the upload's success body besides [success] and
    [message]. *)
Record UploadInfo : Type := {
  resume_id : Z;
  info_filename : string;
  info_ats_score : Z;
  info_file_size : Z
}.

Record Response : Type := {
  status_code : Z;
  success : bool;
  message : string;
  info : option UploadInfo
}.

Definition json_response (code : Z) (ok : bool) (msg : string) : Response :=
  {| status_code := code; success := ok; message := msg; info := None |}.

Definition quota_exceeded : Response :=
  json_response 400 false "Monthly quota exceeded. Please upgrade or wait for next month.".

Definition bad_file_type : Response :=
  json_response 400 false "Only PDF or DOCX files are allowed".

(** [re.sub(r'[^a-zA-Z0-9._-]', '_', name)] *)
Definition sanitize_char (c : ascii) : ascii :=
  if is_lower c || is_upper c || is_digit c
     || Ascii.eqb c "." || Ascii.eqb c "_" || Ascii.eqb c "-"
  then c else "_"%char.

Fixpoint sanitize (s : string) : string :=
  match s with
  | EmptyString => EmptyString
  | String c r => String (sanitize_char c) (sanitize r)
  end.

(** [str(n)] for an integer. *)
Definition str_of_Z (n : Z) : string := DecimalString.NilZero.string_of_int (Z.to_int n).

(** [os.path.join(a, b)] *)
Definition path_join (a b : string) : string :=
  if startswith b "/" then b
  else if str_is_empty a || endswith a "/" then a ++ b
  else a ++ "/" ++ b.

Definition add_scan (r : ResumeScan) (db : DB) : DB :=
  {| users := users db; scans := scans db ++ [r]; tokens := tokens db |}.

Definition api_upload_resume_body (cfg : Settings) (w : World)
  (request : Request) (file : UploadFile) : M Response :=
  fun s0 =>
    match get_current_user_from_request request s0 with
    | None => (Ok (json_response 401 false "Not authenticated"), s0)
    | Some user =>
        let '(remaining, (user, s1)) := check_and_reset_quota cfg w s0 user in
        if remaining <=? 0 then (Ok quota_exceeded, s1)
        else if negb (allowed_file (up_filename file)) then (Ok bad_file_type, s1)
        else
          (name <~ lift (match up_filename file with
                         | Some f => Ok f
                         | None => Raise TypeError
                         end) ;;
           let ext := splitext_ext name in
           let sanitized_name := sanitize name in
           let unique_name :=
             str_of_Z (user_id user) ++ "_" ++ str_of_Z (w_time w) ++ "_" ++ sanitized_name in
           let dest_path := path_join (UPLOAD_DIR cfg) unique_name in
           size <~ lift (w_save w dest_path) ;;
           res <~ lift (process_resume_file w dest_path) ;;
           raw <~ lift (py_get res "raw" PyNone) ;;
           score_v <~ lift (py_get res "score" PyNone) ;;
           strengths <~ lift (py_get res "strengths" (PyList [])) ;;
           weaknesses <~ lift (py_get res "weaknesses" (PyList [])) ;;
           suggestions <~ lift (py_get res "suggestions" (PyList [])) ;;
           let analysis_payload :=
             if truthy raw then raw
             else mkdict [ ("score", score_v); ("strengths", strengths);
                           ("weaknesses", weaknesses); ("suggestions", suggestions) ] in
           score0 <~ lift (py_get res "score" (PyInt 0)) ;;
           score <~ lift (py_int score0) ;;
           fb <~ lift (py_get res "feedback" (PyStr "")) ;;
           scan <~ (fun s =>
                      (Ok {| scan_id := next_id (map scan_id (scans (work s)));
                             scan_user_id := user_id user;
                             filename := unique_name;
                             original_filename := name;
                             file_size := size;
                             ats_score := score;
                             feedback := fb;
                             analysis := analysis_payload |}, s)) ;;
           _ <~ modify (with_work (add_scan scan)) ;;
           _ <~ modify (fun s => snd (consume_quota s user)) ;;
           _ <~ modify commit ;;
           ret {| status_code := 200; success := true;
                  message := "Resume uploaded successfully";
                  info := Some {| resume_id := scan_id scan;
                                  info_filename := original_filename scan;
                                  info_ats_score := ats_score scan;
                                  info_file_size := file_size scan |} |}) s1
    end.

(** The handler on a database: the response and the rows it leaves
    committed once the request's session is closed. *)
Definition api_upload_resume (cfg : Settings) (w : World)
  (request : Request) (file : UploadFile) (db : DB) : Response * DB :=
  match api_upload_resume_body cfg w request file (open_session db) with
  | (Ok r, s) => (r, stored s)
  | (Raise _, s) => (json_response 500 false "Internal server error", stored s)
  end.

End WithLib.

(* ------------------------------------------------------------------ *)
(** ** Reference definitions for the statements *)

(** [s] ends with [suf]. *)
Definition ends_with (s suf : string) : Prop := exists p, s = p ++ suf.

(** The stored stamp is missing, or its month or year is not today's. *)
Definition stamp_outdated (today : date) (stamp : quota_stamp) : Prop :=
  match stamp with
  | StampAt l => dt_month l <> d_month today \/ dt_year l <> d_year today
  | StampNone => True
  | StampOpaque => True
  end.

(** The stamp lies in today's month of today's year. *)
Definition stamp_current (today : date) (stamp : quota_stamp) : Prop :=
  exists l, stamp = StampAt l /\ dt_month l = d_month today /\ dt_year l = d_year today.

Definition within_quota (cfg : Settings) (u : User) : Prop :=
  count_or_0 u <= MAX_MONTHLY cfg.

Definition analysis_keys : list string :=
  ["score"; "feedback"; "strengths"; "weaknesses"; "suggestions"].

Definition content_keys : list string := ["strengths"; "weaknesses"; "improvements"].

(** The UTC clock and the local date name the same month of the same
    year. *)
Definition clock_agrees (w : World) : Prop :=
  dt_month (w_now w) = d_month (w_today w) /\ dt_year (w_now w) = d_year (w_today w).

(** The name and the path under which [api_upload_resume] saves an
    upload. *)
Definition stored_name (uid time : Z) (name : string) : string :=
  str_of_Z uid ++ "_" ++ str_of_Z time ++ "_" ++ sanitize name.

Definition stored_path (cfg : Settings) (uid time : Z) (name : string) : string :=
  path_join (UPLOAD_DIR cfg) (stored_name uid time name).

(** The success body of [api_upload_resume] for a scan row. *)
Definition upload_ok (scan : ResumeScan) : Response :=
  {| status_code := 200; success := true;
     message := "Resume uploaded successfully";
     info := Some {| resume_id := scan_id scan;
                     info_filename := original_filename scan;
                     info_ats_score := ats_score scan;
                     info_file_size := file_size scan |} |}.

(** The characters [sanitize] lets through: [a-zA-Z0-9._-]. *)
Definition safe_char (c : ascii) : bool :=
  is_lower c || is_upper c || is_digit c
  || Ascii.eqb c "." || Ascii.eqb c "_" || Ascii.eqb c "-".

(** A lower-case ASCII letter or the dot: what an extension is made of. *)
Definition plain_char (c : ascii) : bool := is_lower c || Ascii.eqb c ".".

Fixpoint all_chars (p : ascii -> bool) (s : string) : bool :=
  match s with
  | EmptyString => true
  | String c r => p c && all_chars p r
  end.

(** The text starts with an opening and ends with a closing brace. *)
Definition braced (s : string) : Prop :=
  startswith s "{" = true /\ endswith s "}" = true.

(** The list [analyze_resume_vs_jd] puts under a key without content. *)
Definition content_for (k : string) : pyval :=
  if String.eqb k "strengths" then strengths_content
  else if String.eqb k "weaknesses" then weaknesses_content
  else improvements_content.

(** [v] is a dict that has every key of [keys]. *)
Definition has_keys (keys : list string) (v : pyval) : Prop :=
  exists d, v = PyDict d /\ Forall (fun k => dict_has k d = true) keys.

(** The value of [v[k]] when [v] is a dict with that key. *)
Definition item (v : pyval) (k : string) : option pyval :=
  match v with
  | PyDict d => dict_lookup k d
  | _ => None
  end.

(** The dict [try_parse_comparison] builds from the parsed items [d0]. *)
Definition ensured (d0 : list (pyval * pyval)) : list (pyval * pyval) :=
  ensure_content "improvements" improvements_content
    (ensure_content "weaknesses" weaknesses_content
       (ensure_content "strengths" strengths_content (fill_missing d0))).

Fixpoint first_success {A : Type} (attempts : list (option A)) : option A :=
  match attempts with
  | [] => None
  | Some v :: _ => Some v
  | None :: rest => first_success rest
  end.

Definition to_list {A : Type} (o : option A) : list A :=
  match o with
  | Some a => [a]
  | None => []
  end.

(** A trailing comma stands before [s]: after optional white space, [s]
    goes on with a closing brace or bracket. *)
Definition comma_is_trailing (s : string) : bool :=
  match lstrip_by is_space s with
  | String c _ => Ascii.eqb c "}" || Ascii.eqb c "]"
  | EmptyString => false
  end.

(** Trailing-comma removal as the specification means it: every comma that
    is followed, after optional white space, by a closing brace or bracket
    is taken out, and the white space up to that bracket with it. *)
Fixpoint without_trailing_commas (s : string) : string :=
  match s with
  | EmptyString => EmptyString
  | String c r =>
      if Ascii.eqb c "," && comma_is_trailing r
      then lstrip_by is_space (without_trailing_commas r)
      else String c (without_trailing_commas r)
  end.

(** The object of a block fenced as JSON that starts at offset [i] of
    [text] and is [n] characters long, if there is one: from [i] on the
    text reads the opening fence with the word json in any case, optional
    white space, [n] characters from an opening to a closing brace,
    optional white space and the closing fence. *)
Definition fenced_block_at (text : string) (i n : nat) : option string :=
  let s := drop i text in
  let body := lstrip_by is_space (drop 7 s) in
  let g := take n body in
  if String.eqb (lower (take 7 s)) "```json"
     && (2 <=? n)%nat && (String.length g =? n)%nat
     && startswith g "{" && endswith g "}"
     && startswith (lstrip_by is_space (drop n body)) "```"
  then Some g else None.

(** The fenced block of a text: of all such blocks the leftmost and, where
    that one starts, the shortest. *)
Definition fenced_block_spec (text : string) : option string :=
  let offsets := seq 0 (S (String.length text)) in
  first_success (flat_map (fun i => map (fenced_block_at text i) offsets) offsets).

Section LayersSpec.

Context {L : Lib}.

(** The repairs tried on one candidate, in order: the candidate without
    trailing commas as JSON, the same with single quotes turned into double
    quotes as JSON, and the candidate without trailing commas as a Python
    literal. *)
Definition repairs_spec (candidate : string) : list (option pyval) :=
  let c := without_trailing_commas candidate in
  [ json_loads c;
    json_loads (replace_char "'" (ascii_of_nat 34) c);
    literal_eval c ].

(** The candidates in order: the fenced block, then the text from the first
    opening brace to the last closing brace. *)
Definition candidates_spec (text : string) : list string :=
  to_list (fenced_block_spec text)
  ++ (let a := find_char "{" text in
      let b := rfind_char "}" text in
      if (0 <=? a) && (a <? b) then [slice text a (b + 1)] else []).

(** The layered parse as the specification words it. *)
Definition parse_layers_spec (text : string) : pyval :=
  if String.eqb text "" then PyNone
  else
    match first_success (json_loads text :: flat_map repairs_spec (candidates_spec text)) with
    | Some v => v
    | None => PyNone
    end.

End LayersSpec.

(* ------------------------------------------------------------------ *)
(** ** More of auth.py and app.py *)

(** [datetime + timedelta(hours=h)], left to the standard library. *)
Class TimeLib : Type := {
  add_hours : Z -> datetime -> datetime
}.

Definition add_token (t : PasswordResetToken) (db : DB) : DB :=
  {| users := users db; scans := scans db; tokens := tokens db ++ [t] |}.

(** [db.query(PasswordResetToken).filter(user_id == uid, used == False)
    .update({"used": True})] *)
Definition expire_tokens_of (uid : Z) (db : DB) : DB :=
  {| users := users db;
     scans := scans db;
     tokens := map (fun t => if (token_user_id t =? uid) && negb (used t)
                             then set_used true t else t)
                 (tokens db) |}.

(** [create_password_reset_token(db, email)]; [expire_hours] is
    [settings.PASSWORD_RESET_TOKEN_EXPIRE_HOURS] and [fresh] the value of
    [secrets.token_urlsafe(32)]. *)
Definition create_password_reset_token {T : TimeLib} (w : World) (expire_hours : Z)
  (fresh : string) (s : Session) (email_ : string) : option string * Session :=
  match user_by_email (work s) email_ with
  | None => (None, s)
  | Some user =>
      let token_ := fresh in
      let expires := add_hours expire_hours (w_now w) in
      let reset_token :=
        {| token_id := next_id (map token_id (tokens (work s)));
           token_user_id := user_id user;
           token := token_;
           expires_at := expires;
           used := false |} in
      let s1 := with_work (expire_tokens_of (user_id user)) s in
      let s2 := with_work (add_token reset_token) s1 in
      (Some token_, commit s2)
  end.

(** The row [create_password_reset_token] adds for the user [u]. *)
Definition issued_token {T : TimeLib} (w : World) (expire_hours : Z) (fresh : string)
  (s : Session) (u : User) : PasswordResetToken :=
  {| token_id := next_id (map token_id (tokens (work s)));
     token_user_id := user_id u;
     token := fresh;
     expires_at := add_hours expire_hours (w_now w);
     used := false |}.

Section MoreHandlers.

Context {L : Lib}.

Notation "x <~ c ;; k" := (bindM c (fun x => k))
  (at level 61, c at next level, right associativity).

(** [api_reset_password].  With hashing and the database as total
    functions, nothing in its [try] raises, so the branch for an exception
    (a 500) is never taken and is left out. *)
Definition api_reset_password (w : World) (token_ new_password confirm_password : string)
  (db : DB) : Response * DB :=
  if negb (String.eqb new_password confirm_password) then
    (json_response 400 false "Passwords do not match.", db)
  else if (String.length new_password <? 6)%nat then
    (json_response 400 false "Password must be at least 6 characters long.", db)
  else
    let (success_, s) := reset_user_password w (open_session db) token_ new_password in
    if success_ then
      (json_response 200 true
         "Password has been reset successfully. You can now log in with your new password.",
       stored s)
    else
      (json_response 400 false
         "Invalid or expired reset token. Please request a new password reset.",
       stored s).

(** [api_register]: a ValueError becomes a 400 with its text, any other
    exception a 500. *)
Definition api_register (w : World) (email_ password : string) (db : DB)
  : Response * DB :=
  match create_user w (open_session db) email_ password with
  | (Ok _, s) => (json_response 200 true "User registered successfully", stored s)
  | (Raise (ValueError msg), s) => (json_response 400 false msg, stored s)
  | (Raise _, s) => (json_response 500 false "Internal server error", stored s)
  end.

(** What the form routes answer with. *)
Inductive Page : Type :=
| RedirectResponse (url : string) (status : Z)
| TemplateResponse (template : string) (error : string).

(** [post_upload], the form variant of the upload; it has no [try], so an
    exception leaves the handler. *)
Definition post_upload_body (cfg : Settings) (w : World)
  (request : Request) (file : UploadFile) : M Page :=
  fun s0 =>
    match get_current_user_from_request request s0 with
    | None => (Ok (RedirectResponse "/login" 307), s0)
    | Some user =>
        let '(remaining, (user, s1)) := check_and_reset_quota cfg w s0 user in
        if remaining <=? 0
        then (Ok (TemplateResponse "upload.html" "Monthly quota exceeded"), s1)
        else if negb (allowed_file (up_filename file))
        then (Ok (TemplateResponse "upload.html" "Only PDF or DOCX allowed"), s1)
        else
          (name <~ lift (match up_filename file with
                         | Some f => Ok f
                         | None => Raise TypeError
                         end) ;;
           let ext := splitext_ext name in
           let sanitized_name := sanitize name in
           let unique_name :=
             str_of_Z (user_id user) ++ "_" ++ str_of_Z (w_time w) ++ "_" ++ sanitized_name in
           let dest_path := path_join (UPLOAD_DIR cfg) unique_name in
           size <~ lift (w_save w dest_path) ;;
           res <~ lift (process_resume_file w dest_path) ;;
           raw <~ lift (py_get res "raw" PyNone) ;;
           score_v <~ lift (py_get res "score" PyNone) ;;
           strengths <~ lift (py_get res "strengths" (PyList [])) ;;
           weaknesses <~ lift (py_get res "weaknesses" (PyList [])) ;;
           suggestions <~ lift (py_get res "suggestions" (PyList [])) ;;
           let analysis_payload :=
             if truthy raw then raw
             else mkdict [ ("score", score_v); ("strengths", strengths);
                           ("weaknesses", weaknesses); ("suggestions", suggestions) ] in
           score0 <~ lift (py_get res "score" (PyInt 0)) ;;
           score <~ lift (py_int score0) ;;
           fb <~ lift (py_get res "feedback" (PyStr "")) ;;
           scan <~ (fun s =>
                      (Ok {| scan_id := next_id (map scan_id (scans (work s)));
                             scan_user_id := user_id user;
                             filename := unique_name;
                             original_filename := name;
                             file_size := size;
                             ats_score := score;
                             feedback := fb;
                             analysis := analysis_payload |}, s)) ;;
           _ <~ modify (with_work (add_scan scan)) ;;
           _ <~ modify (fun s => snd (consume_quota s user)) ;;
           _ <~ modify commit ;;
           ret (RedirectResponse "/dashboard" 302)) s1
    end.

Definition post_upload (cfg : Settings) (w : World)
  (request : Request) (file : UploadFile) (db : DB) : result Page * DB :=
  match post_upload_body cfg w request file (open_session db) with
  | (r, s) => (r, stored s)
  end.

(** The data [LinkedInAuthService.find_or_create_user] reads for the
    columns modelled here: the entries [email] and [linkedin_id] of the
    user data ([None] for a missing entry).  The profile entries go to
    profile columns only and are left out with them. *)
Record LinkedInData : Type := {
  li_email : option string;
  li_id : option string
}.

Definition linkedin_email (data : LinkedInData) : string :=
  let fallback :=
    "linkedin_" ++ match li_id data with Some i => i | None => "unknown" end
    ++ "@linkedin.local" in
  match li_email data with
  | Some e => if str_is_empty e then fallback else e
  | None => fallback
  end.

(** [LinkedInAuthService.find_or_create_user]: an existing row only has
    profile columns filled in; a new row gets a fixed placeholder as
    [hashed_password]. *)
Definition linkedin_find_or_create_user (w : World) (s : Session) (data : LinkedInData)
  : User * Session :=
  let email_ := linkedin_email data in
  match user_by_email (work s) email_ with
  | Some user => (user, commit s)
  | None =>
      let user :=
        {| user_id := next_id (map user_id (users (work s)));
           email := email_;
           hashed_password := "linkedin_oauth_user";
           scan_count := Some 0;
           last_quota_reset := StampAt (w_now w) |} in
      (user, commit (with_work (add_user user) s))
  end.

End MoreHandlers.

(* ------------------------------------------------------------------ *)
(** ** More of utils.py: cover letters and improvement suggestions *)

(** [s.replace(old, new)] for a non-empty [old]: the matches are taken
    from the left and do not overlap; [skip] counts the characters of the
    current match still to pass. *)
Fixpoint replace_go (old new : string) (skip : nat) (s : string) : string :=
  match s with
  | EmptyString => EmptyString
  | String c r =>
      match skip with
      | S k => replace_go old new k r
      | O =>
          if String.prefix old s
          then new ++ replace_go old new (String.length old - 1) r
          else String c (replace_go old new O r)
      end
  end.

Definition str_replace (old new s : string) : string := replace_go old new O s.

(** [sub in s] *)
Fixpoint str_contains (sub s : string) : bool :=
  String.prefix sub s
  || match s with
     | EmptyString => false
     | String _ r => str_contains sub r
     end.

(** [s.split(sep)] for a non-empty [sep]; [cur] is the piece being read. *)
Fixpoint split_go (sep : string) (skip : nat) (cur s : string) : list string :=
  match s with
  | EmptyString => [cur]
  | String c r =>
      match skip with
      | S k => split_go sep k cur r
      | O =>
          if String.prefix sep s
          then cur :: split_go sep (String.length sep - 1) EmptyString r
          else split_go sep O (cur ++ String c EmptyString) r
      end
  end.

Definition str_split (sep s : string) : list string := split_go sep O EmptyString s.

Definition customization_text
  (include_achievements emphasize_skills add_passion professional_tone : bool) : string :=
  let customization_instructions :=
    ((if include_achievements
      then ["- Emphasize specific achievements and quantifiable results"] else [])
     ++ (if emphasize_skills
         then ["- Highlight relevant technical and soft skills"] else [])
     ++ (if add_passion
         then ["- Show genuine enthusiasm and passion for the role"] else [])
     ++ (if professional_tone
         then ["- Use a formal, professional tone throughout"] else []))%list in
  join nl customization_instructions.

Definition cover_prompt
  (resume_content jd_content jd_title jd_company your_name your_email your_phone
     customization_text : string) : string :=
  join nl
    [ "";
      "Write a professional cover letter for the following job application.";
      "";
      "Applicant Name: " ++ your_name;
      "Applicant Email: " ++ your_email;
      "Applicant Phone: " ++ your_phone;
      "";
      "Job Title: " ++ jd_title;
      "Company: " ++ jd_company;
      "";
      "Job Description:";
      jd_content;
      "";
      "Resume Content:";
      resume_content;
      "";
      "IMPORTANT INSTRUCTIONS:";
      "- Do NOT include " ++ dq ++ "Dear Hiring Manager," ++ dq
        ++ " or any greeting - this will be added by the template";
      "- Do NOT include " ++ dq ++ "Sincerely," ++ dq
        ++ " or any closing - this will be added by the template";
      "- Do NOT include any introductory text like " ++ dq
        ++ "Here's a professional cover letter for..." ++ dq;
      "- Start directly with the first paragraph of the cover letter body";
      "- End with the last paragraph before the closing";
      "- Write 3-4 paragraphs that highlight relevant experience and show enthusiasm for the role";
      "- Make it tailored to the specific job and company";
      "- Be professional and engaging";
      "";
      customization_text;
      "";
      "Return ONLY the cover letter body paragraphs separated by two newlines. Each paragraph should be a complete thought.";
      "" ].

Definition unwanted_phrases : list string :=
  [ "Here's a professional cover letter for";
    "Here is a professional cover letter for";
    "Here is the cover letter body:";
    "Here's the cover letter body:";
    "Dear Hiring Manager,";
    "Sincerely,";
    "Best regards,";
    "Thank you for your consideration." ].

(** One turn of the first loop over the phrases. *)
Definition drop_phrase (raw_clean phrase : string) : string :=
  let raw_clean :=
    if startswith raw_clean phrase
    then strip (drop (String.length phrase) raw_clean)
    else raw_clean in
  if str_contains phrase raw_clean
  then strip (str_replace phrase "" raw_clean)
  else raw_clean.

(** The inner loop over the phrases for one paragraph. *)
Definition clean_paragraph (paragraph : string) : string :=
  fold_left (fun clean phrase => strip (str_replace phrase "" clean))
    unwanted_phrases paragraph.

(** From the raw answer to [cleaned_paragraphs]. *)
Definition cover_paragraphs (raw : string) : list string :=
  let raw_clean := fold_left drop_phrase unwanted_phrases (strip raw) in
  let paragraphs :=
    map strip
      (filter (fun p => negb (str_is_empty (strip p))) (str_split (nl ++ nl) raw_clean)) in
  filter (fun clean => negb (str_is_empty clean)) (map clean_paragraph paragraphs).

Definition cover_letter (paragraphs : list string) (your_name your_email your_phone : string)
  : pyval :=
  mkdict [ ("paragraphs", strs paragraphs);
           ("your_name", PyStr your_name);
           ("your_email", PyStr your_email);
           ("your_phone", PyStr your_phone) ].

(** The paragraphs of the fallback; the third is not an f-string in the
    source and keeps its braces. *)
Definition mock_paragraphs (jd_title jd_company : string) : list string :=
  [ "I am excited to apply for the " ++ jd_title ++ " position at " ++ jd_company
    ++ ". My background in software engineering and passion for technology make me an ideal candidate for this role.";
    "With my experience in developing scalable applications and working with cross-functional teams, I am confident that I can contribute significantly to your team's success.";
    "I would welcome the opportunity to discuss how my skills and enthusiasm can benefit {jd_company}. Thank you for considering my application." ].

Definition generate_cover_letter (w : World)
  (resume_content jd_content jd_title jd_company your_name your_email your_phone : string)
  (include_achievements emphasize_skills add_passion professional_tone : bool)
  : result pyval :=
  let prompt :=
    cover_prompt resume_content jd_content jd_title jd_company your_name your_email
      your_phone
      (customization_text include_achievements emphasize_skills add_passion
         professional_tone) in
  let attempt : result pyval :=
    let raw := call_llm w prompt in
    let cleaned_paragraphs := cover_paragraphs raw in
    match cleaned_paragraphs with
    | [] => Raise (ValueError "LLM returned empty output")
    | _ :: _ => Ok (cover_letter cleaned_paragraphs your_name your_email your_phone)
    end in
  match attempt with
  | Ok r => Ok r
  | Raise _ =>
      Ok (cover_letter (mock_paragraphs jd_title jd_company) your_name your_email your_phone)
  end.

(** [s.title()], left to the Python runtime. *)
Class StrLib : Type := {
  str_title : string -> string
}.

Definition keywords_prompt (resume_content : string) : string :=
  join nl
    [ "Analyze this resume and provide specific ATS keyword improvements. Return ONLY a valid JSON object:";
      "";
      "{";
      "  " ++ dq ++ "missing_keywords" ++ dq ++ ": [" ++ dq ++ "specific technical terms"
        ++ dq ++ ", " ++ dq ++ "industry buzzwords" ++ dq ++ ", " ++ dq ++ "software names"
        ++ dq ++ "],";
      "  " ++ dq ++ "keyword_suggestions" ++ dq ++ ": [";
      "    {";
      "      " ++ dq ++ "category" ++ dq ++ ": " ++ dq ++ "Technical Skills" ++ dq ++ ",";
      "      " ++ dq ++ "missing" ++ dq ++ ": [" ++ dq ++ "Python" ++ dq ++ ", " ++ dq
        ++ "AWS" ++ dq ++ ", " ++ dq ++ "Docker" ++ dq ++ "],";
      "      " ++ dq ++ "reason" ++ dq ++ ": " ++ dq
        ++ "These are high-demand skills in the field" ++ dq;
      "    },";
      "    {";
      "      " ++ dq ++ "category" ++ dq ++ ": " ++ dq ++ "Industry Terms" ++ dq ++ ", ";
      "      " ++ dq ++ "missing" ++ dq ++ ": [" ++ dq ++ "Agile" ++ dq ++ ", " ++ dq
        ++ "DevOps" ++ dq ++ ", " ++ dq ++ "CI/CD" ++ dq ++ "],";
      "      " ++ dq ++ "reason" ++ dq ++ ": " ++ dq ++ "Common in job descriptions" ++ dq;
      "    }";
      "  ],";
      "  " ++ dq ++ "ats_score_impact" ++ dq ++ ": " ++ dq
        ++ "Adding these keywords could increase ATS score by 15-25 points" ++ dq;
      "}";
      "";
      "Resume: " ++ take 2000 resume_content;
      "";
      "Return ONLY the JSON object. No markdown, no explanations, no code blocks." ].

Definition role_prompt (resume_content : string) : string :=
  join nl
    [ "Analyze this resume for role-specific improvements. Return ONLY a valid JSON object:";
      "";
      "{";
      "  " ++ dq ++ "missing_metrics" ++ dq ++ ": [" ++ dq ++ "specific numbers" ++ dq
        ++ ", " ++ dq ++ "percentages" ++ dq ++ ", " ++ dq ++ "quantified achievements"
        ++ dq ++ "],";
      "  " ++ dq ++ "role_suggestions" ++ dq ++ ": [";
      "    {";
      "      " ++ dq ++ "section" ++ dq ++ ": " ++ dq ++ "Experience" ++ dq ++ ",";
      "      " ++ dq ++ "improvement" ++ dq ++ ": " ++ dq
        ++ "Add specific metrics like 'increased sales by 25%' or 'managed team of 8 people'"
        ++ dq ++ ",";
      "      " ++ dq ++ "example" ++ dq ++ ": " ++ dq
        ++ "Instead of 'improved performance', write 'improved performance by 30%'" ++ dq;
      "    },";
      "    {";
      "      " ++ dq ++ "section" ++ dq ++ ": " ++ dq ++ "Skills" ++ dq ++ ",";
      "      " ++ dq ++ "improvement" ++ dq ++ ": " ++ dq
        ++ "Add proficiency levels and years of experience" ++ dq ++ ",";
      "      " ++ dq ++ "example" ++ dq ++ ": " ++ dq
        ++ "Python (5 years), Advanced Excel (Expert level)" ++ dq;
      "    }";
      "  ],";
      "  " ++ dq ++ "achievement_suggestions" ++ dq ++ ": [" ++ dq
        ++ "specific accomplishments with numbers" ++ dq ++ ", " ++ dq ++ "project outcomes"
        ++ dq ++ ", " ++ dq ++ "business impact" ++ dq ++ "]";
      "}";
      "";
      "Resume: " ++ take 2000 resume_content;
      "";
      "Return ONLY the JSON object. No markdown, no explanations, no code blocks." ].

Definition grammar_prompt (resume_content : string) : string :=
  join nl
    [ "Analyze this resume for grammar, style, and formatting improvements. Return ONLY a valid JSON object:";
      "";
      "{";
      "  " ++ dq ++ "grammar_issues" ++ dq ++ ": [" ++ dq
        ++ "specific grammar mistakes found" ++ dq ++ ", " ++ dq ++ "tense inconsistencies"
        ++ dq ++ ", " ++ dq ++ "punctuation errors" ++ dq ++ "],";
      "  " ++ dq ++ "style_suggestions" ++ dq ++ ": [";
      "    {";
      "      " ++ dq ++ "issue" ++ dq ++ ": " ++ dq ++ "Inconsistent verb tense" ++ dq
        ++ ",";
      "      " ++ dq ++ "fix" ++ dq ++ ": " ++ dq
        ++ "Use past tense for previous roles, present tense for current role" ++ dq ++ ",";
      "      " ++ dq ++ "example" ++ dq ++ ": " ++ dq
        ++ "Change 'I manage' to 'I managed' for past positions" ++ dq;
      "    },";
      "    {";
      "      " ++ dq ++ "issue" ++ dq ++ ": " ++ dq ++ "Weak action verbs" ++ dq ++ ",";
      "      " ++ dq ++ "fix" ++ dq ++ ": " ++ dq
        ++ "Replace weak verbs with strong action words" ++ dq ++ ",";
      "      " ++ dq ++ "example" ++ dq ++ ": " ++ dq
        ++ "Change 'did' to 'implemented', 'made' to 'developed'" ++ dq;
      "    }";
      "  ],";
      "  " ++ dq ++ "formatting_issues" ++ dq ++ ": [" ++ dq
        ++ "inconsistent bullet points" ++ dq ++ ", " ++ dq ++ "spacing problems" ++ dq
        ++ ", " ++ dq ++ "font inconsistencies" ++ dq ++ "],";
      "  " ++ dq ++ "clarity_suggestions" ++ dq ++ ": [" ++ dq ++ "unclear sentences"
        ++ dq ++ ", " ++ dq ++ "jargon without explanation" ++ dq ++ ", " ++ dq
        ++ "run-on sentences" ++ dq ++ "]";
      "}";
      "";
      "Resume: " ++ take 2000 resume_content;
      "";
      "Return ONLY the JSON object. No markdown, no explanations, no code blocks." ].

Definition comprehensive_prompt (resume_content : string) : string :=
  join nl
    [ "Provide a comprehensive resume analysis with specific, actionable improvements. Return ONLY a valid JSON object:";
      "";
      "{";
      "  " ++ dq ++ "overall_score" ++ dq ++ ": 75,";
      "  " ++ dq ++ "strengths" ++ dq ++ ": [" ++ dq
        ++ "specific strong points found in resume" ++ dq ++ "],";
      "  " ++ dq ++ "critical_issues" ++ dq ++ ": [" ++ dq
        ++ "major problems that need immediate attention" ++ dq ++ "],";
      "  " ++ dq ++ "keyword_analysis" ++ dq ++ ": {";
      "    " ++ dq ++ "missing_essential" ++ dq ++ ": [" ++ dq
        ++ "critical keywords missing" ++ dq ++ "],";
      "    " ++ dq ++ "overused" ++ dq ++ ": [" ++ dq ++ "words used too frequently" ++ dq
        ++ "],";
      "    " ++ dq ++ "suggested_additions" ++ dq ++ ": [" ++ dq
        ++ "specific keywords to add" ++ dq ++ "]";
      "  },";
      "  " ++ dq ++ "content_improvements" ++ dq ++ ": [";
      "    {";
      "      " ++ dq ++ "section" ++ dq ++ ": " ++ dq ++ "Professional Summary" ++ dq
        ++ ",";
      "      " ++ dq ++ "current_issue" ++ dq ++ ": " ++ dq ++ "Too generic or missing"
        ++ dq ++ ",";
      "      " ++ dq ++ "suggestion" ++ dq ++ ": " ++ dq
        ++ "Add 2-3 specific achievements with metrics" ++ dq ++ ",";
      "      " ++ dq ++ "example" ++ dq ++ ": " ++ dq
        ++ "Results-driven Software Engineer with 5+ years developing scalable web applications, increasing system performance by 40%"
        ++ dq;
      "    },";
      "    {";
      "      " ++ dq ++ "section" ++ dq ++ ": " ++ dq ++ "Work Experience" ++ dq ++ ", ";
      "      " ++ dq ++ "current_issue" ++ dq ++ ": " ++ dq
        ++ "Lacks specific achievements" ++ dq ++ ",";
      "      " ++ dq ++ "suggestion" ++ dq ++ ": " ++ dq
        ++ "Add quantified results for each role" ++ dq ++ ",";
      "      " ++ dq ++ "example" ++ dq ++ ": " ++ dq
        ++ "Led team of 5 developers, reducing deployment time by 50%" ++ dq;
      "    }";
      "  ],";
      "  " ++ dq ++ "ats_optimization" ++ dq ++ ": [";
      "    " ++ dq ++ "Add more industry-specific keywords" ++ dq ++ ",";
      "    " ++ dq ++ "Include relevant certifications" ++ dq ++ ",";
      "    " ++ dq ++ "Use standard section headers" ++ dq;
      "  ],";
      "  " ++ dq ++ "priority_actions" ++ dq ++ ": [";
      "    " ++ dq ++ "Add 5-7 specific metrics to work experience" ++ dq ++ ",";
      "    " ++ dq ++ "Include 3-5 missing technical skills" ++ dq ++ ",";
      "    " ++ dq ++ "Rewrite professional summary with achievements" ++ dq;
      "  ]";
      "}";
      "";
      "Resume: " ++ take 2000 resume_content;
      "";
      "Return ONLY the JSON object. No markdown, no explanations, no code blocks." ].

Definition improvement_prompt (improvement_type resume_content : string) : string :=
  if String.eqb improvement_type "keywords" then keywords_prompt resume_content
  else if String.eqb improvement_type "role" then role_prompt resume_content
  else if String.eqb improvement_type "grammar" then grammar_prompt resume_content
  else comprehensive_prompt resume_content.

(** The two [type_titles] tables: the one of the [try] and the one of the
    fallback. *)
Definition type_titles_parsed : list (string * string) :=
  [ ("keywords", "ATS Keyword Enhancement");
    ("role", "Role Alignment & Metrics");
    ("grammar", "Grammar & Style");
    ("comprehensive", "Comprehensive Analysis") ].

Definition type_titles_mock : list (string * string) :=
  [ ("keywords", "ATS Keyword Enhancement");
    ("role", "Role Alignment");
    ("grammar", "Grammar & Style");
    ("comprehensive", "Comprehensive Analysis") ].

Fixpoint assoc (k : string) (table : list (string * string)) : option string :=
  match table with
  | [] => None
  | (k', v) :: rest => if String.eqb k k' then Some v else assoc k rest
  end.

(** [type_titles.get(improvement_type, improvement_type.title())] *)
Definition title_of {S : StrLib} (table : list (string * string)) (improvement_type : string)
  : string :=
  match assoc improvement_type table with
  | Some t => t
  | None => str_title improvement_type
  end.

Section Improvements.

Context {L : Lib} {S : StrLib}.

(** The part of the [try] after [json.loads]. *)
Definition improvements_of_data (data : pyval) (improvement_type resume_name : string)
  : result pyval :=
  let title := title_of type_titles_parsed improvement_type in
  if String.eqb improvement_type "keywords" then
    missing_keywords <- py_get data "missing_keywords" (PyList []) ;;
    keyword_suggestions <- py_get data "keyword_suggestions" (PyList []) ;;
    ats_score_impact <- py_get data "ats_score_impact" (PyStr "") ;;
    Ok (mkdict [ ("resume_name", PyStr resume_name);
                 ("improvement_type", PyStr improvement_type);
                 ("improvement_type_title", PyStr title);
                 ("missing_keywords", missing_keywords);
                 ("keyword_suggestions", keyword_suggestions);
                 ("ats_score_impact", ats_score_impact) ])
  else if String.eqb improvement_type "role" then
    missing_metrics <- py_get data "missing_metrics" (PyList []) ;;
    role_suggestions <- py_get data "role_suggestions" (PyList []) ;;
    achievement_suggestions <- py_get data "achievement_suggestions" (PyList []) ;;
    Ok (mkdict [ ("resume_name", PyStr resume_name);
                 ("improvement_type", PyStr improvement_type);
                 ("improvement_type_title", PyStr title);
                 ("missing_metrics", missing_metrics);
                 ("role_suggestions", role_suggestions);
                 ("achievement_suggestions", achievement_suggestions) ])
  else if String.eqb improvement_type "grammar" then
    grammar_issues <- py_get data "grammar_issues" (PyList []) ;;
    style_suggestions <- py_get data "style_suggestions" (PyList []) ;;
    formatting_issues <- py_get data "formatting_issues" (PyList []) ;;
    clarity_suggestions <- py_get data "clarity_suggestions" (PyList []) ;;
    Ok (mkdict [ ("resume_name", PyStr resume_name);
                 ("improvement_type", PyStr improvement_type);
                 ("improvement_type_title", PyStr title);
                 ("grammar_issues", grammar_issues);
                 ("style_suggestions", style_suggestions);
                 ("formatting_issues", formatting_issues);
                 ("clarity_suggestions", clarity_suggestions) ])
  else
    overall_score <- py_get data "overall_score" (PyInt 0) ;;
    strengths <- py_get data "strengths" (PyList []) ;;
    critical_issues <- py_get data "critical_issues" (PyList []) ;;
    keyword_analysis <- py_get data "keyword_analysis" (PyDict []) ;;
    content_improvements <- py_get data "content_improvements" (PyList []) ;;
    ats_optimization <- py_get data "ats_optimization" (PyList []) ;;
    priority_actions <- py_get data "priority_actions" (PyList []) ;;
    Ok (mkdict [ ("resume_name", PyStr resume_name);
                 ("improvement_type", PyStr improvement_type);
                 ("improvement_type_title", PyStr title);
                 ("overall_score", overall_score);
                 ("strengths", strengths);
                 ("critical_issues", critical_issues);
                 ("keyword_analysis", keyword_analysis);
                 ("content_improvements", content_improvements);
                 ("ats_optimization", ats_optimization);
                 ("priority_actions", priority_actions) ]).

(** The fallback by improvement type. *)
Definition mock_improvements (improvement_type resume_name : string) : pyval :=
  let title := title_of type_titles_mock improvement_type in
  if String.eqb improvement_type "keywords" then
    mkdict [ ("resume_name", PyStr resume_name);
             ("improvement_type", PyStr improvement_type);
             ("improvement_type_title", PyStr title);
             ("missing_keywords", strs ["Python"; "AWS"; "Docker"; "Agile"; "DevOps"]);
             ("keyword_suggestions",
               PyList [ mkdict [ ("category", PyStr "Technical Skills");
                                 ("missing", strs ["Python"; "AWS"; "Docker"]);
                                 ("reason",
                                   PyStr "These are high-demand skills in the field") ] ]);
             ("ats_score_impact",
               PyStr "Adding these keywords could increase ATS score by 15-25 points") ]
  else if String.eqb improvement_type "role" then
    mkdict [ ("resume_name", PyStr resume_name);
             ("improvement_type", PyStr improvement_type);
             ("improvement_type_title", PyStr title);
             ("missing_metrics",
               strs ["specific numbers"; "percentages"; "quantified achievements"]);
             ("role_suggestions",
               PyList [ mkdict [ ("section", PyStr "Experience");
                                 ("improvement",
                                   PyStr "Add specific metrics like 'increased sales by 25%'");
                                 ("example",
                                   PyStr "Instead of 'improved performance', write 'improved performance by 30%'") ] ]);
             ("achievement_suggestions",
               strs ["specific accomplishments with numbers"; "project outcomes"]) ]
  else if String.eqb improvement_type "grammar" then
    mkdict [ ("resume_name", PyStr resume_name);
             ("improvement_type", PyStr improvement_type);
             ("improvement_type_title", PyStr title);
             ("grammar_issues", strs ["inconsistent verb tense"; "weak action verbs"]);
             ("style_suggestions",
               PyList [ mkdict [ ("issue", PyStr "Inconsistent verb tense");
                                 ("fix", PyStr "Use past tense for previous roles");
                                 ("example",
                                   PyStr "Change 'I manage' to 'I managed' for past positions") ] ]);
             ("formatting_issues", strs ["inconsistent bullet points"; "spacing problems"]);
             ("clarity_suggestions",
               strs ["unclear sentences"; "jargon without explanation"]) ]
  else
    mkdict [ ("resume_name", PyStr resume_name);
             ("improvement_type", PyStr improvement_type);
             ("improvement_type_title", PyStr title);
             ("overall_score", PyInt 75);
             ("strengths", strs ["Good technical background"; "Relevant experience"]);
             ("critical_issues", strs ["Missing specific metrics"; "Generic descriptions"]);
             ("keyword_analysis",
               mkdict [ ("missing_essential", strs ["Python"; "AWS"; "Agile"]);
                        ("overused", strs ["responsible for"; "worked on"]);
                        ("suggested_additions", strs ["Docker"; "DevOps"; "CI/CD"]) ]);
             ("content_improvements",
               PyList [ mkdict [ ("section", PyStr "Professional Summary");
                                 ("current_issue", PyStr "Too generic");
                                 ("suggestion",
                                   PyStr "Add specific achievements with metrics");
                                 ("example",
                                   PyStr "Results-driven Software Engineer with 5+ years developing scalable web applications") ] ]);
             ("ats_optimization",
               strs ["Add more industry-specific keywords"; "Include relevant certifications"]);
             ("priority_actions",
               strs [ "Add 5-7 specific metrics to work experience";
                      "Include 3-5 missing technical skills" ]) ].

Definition analyze_resume_improvements (w : World)
  (resume_content improvement_type resume_name : string) : result pyval :=
  let prompt := improvement_prompt improvement_type resume_content in
  let attempt : result pyval :=
    let raw := call_llm w prompt in
    json_str <- extract_json_str raw ;;
    data <-
      match json_loads json_str with
      | Some v => Ok v
      | None => Raise (ValueError "json.loads")
      end ;;
    improvements_of_data data improvement_type resume_name in
  match attempt with
  | Ok r => Ok r
  | Raise _ => Ok (mock_improvements improvement_type resume_name)
  end.

End Improvements.

(** The keys an improvement analysis carries besides the three common
    ones, by improvement type. *)
Definition improvement_keys (improvement_type : string) : list string :=
  if String.eqb improvement_type "keywords"
  then ["missing_keywords"; "keyword_suggestions"; "ats_score_impact"]
  else if String.eqb improvement_type "role"
  then ["missing_metrics"; "role_suggestions"; "achievement_suggestions"]
  else if String.eqb improvement_type "grammar"
  then ["grammar_issues"; "style_suggestions"; "formatting_issues"; "clarity_suggestions"]
  else ["overall_score"; "strengths"; "critical_issues"; "keyword_analysis";
        "content_improvements"; "ats_optimization"; "priority_actions"].

(* ------------------------------------------------------------------ *)
(** ** A concrete setting

    Instances on which the statements below are exercised. *)

(** The text [{"strengths": "solid"}]. *)
Definition solid_json : string := "{" ++ q "strengths" ++ ": " ++ q "solid" ++ "}".

(** The text [{"score": 72}]. *)
Definition score_json : string := "{" ++ q "score" ++ ": 72}".

(** Libraries cut down to what the examples need: [json.loads] on the two
    texts above, a hash format that starts with [$pbkdf2-sha256$], and
    tokens of the form [jwt:<subject>]. *)
Definition example_lib : Lib :=
  {| json_loads := fun s =>
       if String.eqb s solid_json then Some (mkdict [("strengths", PyStr "solid")])
       else if String.eqb s score_json then Some (mkdict [("score", PyInt 72)])
       else None;
     literal_eval := fun _ => None;
     int_of_str := fun _ => None;
     pwd_hash := fun salt password =>
       "$pbkdf2-sha256$" ++ str_of_Z salt ++ "$" ++ password;
     pwd_verify := fun plain hashed =>
       if startswith hashed "$pbkdf2-sha256$"
       then Ok (endswith hashed ("$" ++ plain))
       else Raise UnknownHashError;
     jwt_decode_sub := fun tok =>
       if startswith tok "jwt:" then Some (Some (drop 4 tok)) else None |}.

(** A reply that carries the object in a fenced block, with a trailing
    comma in it and stray braces behind it. *)
Definition fenced_reply : string :=
  "Sure: ```JSON" ++ nl ++ "{" ++ q "score" ++ ": 72, }" ++ nl ++ "``` Good luck {x}".

(** A reply in Python's notation: single quotes and a trailing comma. *)
Definition quoted_reply : string := "Result: {'score': 72,} end".

(** A library that reads no JSON at all and one Python literal. *)
Definition literal_lib : Lib :=
  {| json_loads := fun _ => None;
     literal_eval := fun s =>
       if String.eqb s "{'score': 72}" then Some (mkdict [("score", PyInt 72)])
       else None;
     int_of_str := @int_of_str example_lib;
     pwd_hash := @pwd_hash example_lib;
     pwd_verify := @pwd_verify example_lib;
     jwt_decode_sub := @jwt_decode_sub example_lib |}.

Definition at_noon (y m d : Z) : datetime :=
  {| dt_year := y; dt_month := m; dt_day := d;
     dt_hour := 12; dt_minute := 0; dt_second := 0; dt_micro := 0 |}.

Definition example_world (reply : http_outcome) : World :=
  {| w_today := {| d_year := 2026; d_month := 11; d_day := 3 |};
     w_now := at_noon 2026 11 3;
     w_time := 1793707200;
     w_llm := fun _ => reply;
     w_has_pypdf2 := true;
     w_has_docx := true;
     w_pdf_text := fun _ => Ok "Jane Doe, engineer";
     w_docx_text := fun _ => Raise OSError;
     w_save := fun _ => Ok 2048;
     w_rng := {| draws := fun n => Z.of_nat n * 7919 + 13; cursor := O |};
     w_salt := 42 |}.

(** The unlimited user, with ten scans counted this month. *)
Definition nadeem : User :=
  {| user_id := 1; email := "nadeemali001@gmail.com";
     hashed_password := "$pbkdf2-sha256$7$secret";
     scan_count := Some 10; last_quota_reset := StampAt (at_noon 2026 11 1) |}.

(** An ordinary user who has used the ten scans of this month. *)
Definition ann : User :=
  {| user_id := 2; email := "ann@example.com";
     hashed_password := "$pbkdf2-sha256$8$tulip";
     scan_count := Some 10; last_quota_reset := StampAt (at_noon 2026 11 2) |}.

(** A user whose password was stored unhashed, last seen in October. *)
Definition bob : User :=
  {| user_id := 3; email := "bob@example.com";
     hashed_password := "hunter2";
     scan_count := Some 4; last_quota_reset := StampAt (at_noon 2026 10 20) |}.

Definition bob_token : PasswordResetToken :=
  {| token_id := 1; token_user_id := 3; token := "tok-bob";
     expires_at := at_noon 2026 11 4; used := false |}.

Definition ann_token : PasswordResetToken :=
  {| token_id := 2; token_user_id := 2; token := "tok-ann";
     expires_at := at_noon 2026 11 3; used := false |}.

Definition example_db : DB :=
  {| users := [nadeem; ann; bob]; scans := []; tokens := [bob_token; ann_token] |}.

Definition bearer (subject : string) : Request :=
  {| authorization := Some ("Bearer jwt:" ++ subject); session_cookie := None |}.

Definition anonymous : Request := {| authorization := None; session_cookie := None |}.

Definition pdf_upload : UploadFile := {| up_filename := Some "Resume 2026.PDF" |}.

Definition txt_upload : UploadFile := {| up_filename := Some "notes.txt" |}.

(** A world whose UTC clock is already in December while the local date is
    still in November. *)
Definition skewed_world : World :=
  {| w_today := {| d_year := 2026; d_month := 11; d_day := 30 |};
     w_now := {| dt_year := 2026; dt_month := 12; dt_day := 1;
                 dt_hour := 3; dt_minute := 0; dt_second := 0; dt_micro := 0 |};
     w_time := 1796094000;
     w_llm := fun _ => HttpTimeout;
     w_has_pypdf2 := true;
     w_has_docx := true;
     w_pdf_text := fun _ => Ok "Jane Doe, engineer";
     w_docx_text := fun _ => Raise OSError;
     w_save := fun _ => Ok 2048;
     w_rng := {| draws := fun n => Z.of_nat n * 7919 + 13; cursor := O |};
     w_salt := 42 |}.

(** Bob's first check of November: the count of October is reset. *)
Definition bob_checked : Z * (User * Session) :=
  check_and_reset_quota default_settings (example_world HttpTimeout)
    (open_session example_db) bob.

Definition bob_checked_skewed : Z * (User * Session) :=
  check_and_reset_quota default_settings skewed_world (open_session example_db) bob.

(** Bob's upload of a PDF, answered by the LLM with a score. *)
Definition bob_upload : Response * DB :=
  api_upload_resume (L := example_lib) default_settings
    (example_world (HttpOk score_json)) (bearer "bob@example.com") pdf_upload example_db.


(** Cara registers with the example library. *)
Definition cara_created : result User * Session :=
  create_user (L := example_lib) (example_world HttpTimeout) (open_session example_db)
    "cara@example.com" "s3cret!".

(** Bob resets his password with his token. *)
Definition bob_reset : bool * Session :=
  reset_user_password (L := example_lib) (example_world HttpTimeout)
    (open_session example_db) "tok-bob" "correct horse".

(** [timedelta(hours=h)] for a sum that stays within the month. *)
Definition example_timelib : TimeLib :=
  {| add_hours := fun h t =>
       {| dt_year := dt_year t; dt_month := dt_month t;
          dt_day := dt_day t + (dt_hour t + h) / 24;
          dt_hour := (dt_hour t + h) mod 24;
          dt_minute := dt_minute t; dt_second := dt_second t;
          dt_micro := dt_micro t |} |}.

(** Bob asks for a new reset token, one hour of validity. *)
Definition bob_asked : option string * Session :=
  create_password_reset_token (T := example_timelib) (example_world HttpTimeout) 1
    "tok-new" (open_session example_db) "bob@example.com".

(** Half an hour later. *)
Definition half_past_noon : World :=
  {| w_today := w_today (example_world HttpTimeout);
     w_now := {| dt_year := 2026; dt_month := 11; dt_day := 3;
                 dt_hour := 12; dt_minute := 30; dt_second := 0; dt_micro := 0 |};
     w_time := 1793709000;
     w_llm := fun _ => HttpTimeout;
     w_has_pypdf2 := true;
     w_has_docx := true;
     w_pdf_text := fun _ => Ok "Jane Doe, engineer";
     w_docx_text := fun _ => Raise OSError;
     w_save := fun _ => Ok 2048;
     w_rng := w_rng (example_world HttpTimeout);
     w_salt := 43 |}.

Definition cara_linkedin : LinkedInData :=
  {| li_email := Some "cara@example.com"; li_id := Some "cara-77" |}.

Definition dan_linkedin : LinkedInData := {| li_email := None; li_id := Some "dan-5" |}.

(* ------------------------------------------------------------------ *)
(** ** Strings *)

Lemma length_app (a b : string) :
  String.length (a ++ b) = (String.length a + String.length b)%nat.
Proof. induction a as [|c a IH]; simpl; [reflexivity | now rewrite IH]. Qed.

Lemma take_drop (n : nat) (s : string) : take n s ++ drop n s = s.
Proof.
  revert s; induction n as [|n IH]; intros [|c s]; simpl; try reflexivity.
  now rewrite IH.
Qed.

Lemma drop_app_length (p s : string) : drop (String.length p) (p ++ s) = s.
Proof. induction p as [|c p IH]; simpl; [now destruct s | exact IH]. Qed.

Lemma length_drop (n : nat) (s : string) :
  String.length (drop n s) = (String.length s - n)%nat.
Proof.
  revert s; induction n as [|n IH]; intros [|c s]; simpl; auto.
Qed.

Lemma str_app_assoc (a b c : string) : (a ++ b) ++ c = a ++ (b ++ c).
Proof. induction a as [|x a IH]; simpl; [reflexivity | now rewrite IH]. Qed.

Lemma startswith_char (d c : ascii) (r : string) :
  startswith (String c r) (String d EmptyString) = Ascii.eqb d c.
Proof.
  unfold startswith.
  change (String.prefix (String d EmptyString) (String c r))
    with (if ascii_dec d c then String.prefix EmptyString r else false).
  destruct (ascii_dec d c) as [E|E].
  - subst. rewrite Ascii.eqb_refl. now destruct r.
  - symmetry. now apply Ascii.eqb_neq.
Qed.

Lemma startswith_cons (c : ascii) (r : string) :
  startswith (String c r) (String c EmptyString) = true.
Proof. rewrite startswith_char. apply Ascii.eqb_refl. Qed.

Lemma endswith_spec (s suf : string) : endswith s suf = true <-> ends_with s suf.
Proof.
  unfold endswith, ends_with. split.
  - intros H. apply andb_true_iff in H. destruct H as [_ H].
    apply String.eqb_eq in H.
    exists (take (String.length s - String.length suf) s).
    rewrite <- H at 2. symmetry. apply take_drop.
  - intros [p ->]. rewrite length_app. apply andb_true_iff. split.
    + apply Nat.leb_le. lia.
    + replace (String.length p + String.length suf - String.length suf)%nat
        with (String.length p) by lia.
      rewrite drop_app_length. apply String.eqb_refl.
Qed.

Lemma str_is_empty_spec (s : string) : str_is_empty s = true <-> s = "".
Proof. destruct s; simpl; split; congruence. Qed.

Lemma allowed_file_iff (filename : option string) :
  allowed_file filename = true <->
  exists f, filename = Some f /\ f <> ""
            /\ (ends_with (lower f) ".pdf" \/ ends_with (lower f) ".docx").
Proof.
  unfold allowed_file, ALLOWED_EXTENSIONS. destruct filename as [f|].
  - destruct (str_is_empty f) eqn:E.
    + apply str_is_empty_spec in E. split; [discriminate|].
      intros (g & Hg & Hne & _). congruence.
    + simpl. rewrite orb_false_r. split.
      * intros H. exists f. split; [reflexivity|]. split.
        { intros ->. discriminate. }
        apply orb_true_iff in H. destruct H as [H|H]; [left|right];
          now apply endswith_spec.
      * intros (g & Hg & _ & H). injection Hg as <-.
        apply orb_true_iff. destruct H as [H|H]; [left|right];
          now apply endswith_spec.
  - split; [discriminate|]. intros (g & Hg & _). discriminate.
Qed.

(** The string helpers on small inputs. *)

Example allowed_file_upper : allowed_file (Some "CV.Final.PDF") = true.
Proof. reflexivity. Qed.

Example allowed_file_inner : allowed_file (Some "cv.pdf.exe") = false.
Proof. reflexivity. Qed.

Example allowed_file_bare : allowed_file (Some ".docx") = true.
Proof. reflexivity. Qed.

Example trailing_commas_removed :
  remove_trailing_commas "{a: [1, 2, ], b: 3 ,  } ,,}" = "{a: [1, 2], b: 3 } ,}".
Proof. reflexivity. Qed.

Example fenced_found :
  search_fenced_json "Sure: ```JSON  {a} x ``` z }  ``` bye" = Some "{a} x ``` z }".
Proof. reflexivity. Qed.

Example fenced_unclosed : search_fenced_json "```json {a} ``" = None.
Proof. reflexivity. Qed.

Example braces_found :
  find_char "{" "ab{c}d}e" = 2 /\ rfind_char "}" "ab{c}d}e" = 6
  /\ slice "ab{c}d}e" 2 7 = "{c}d}".
Proof. repeat split. Qed.

Example json_str_found : extract_json_str "  noise {x} more `` " = Ok "{x}".
Proof. reflexivity. Qed.

Example json_str_missing :
  extract_json_str "no braces" = Raise (ValueError "No valid JSON found in response").
Proof. reflexivity. Qed.

Example splitext_last_dot : splitext_ext "uploads/a.b/1_2_cv.final.PDF" = ".PDF".
Proof. reflexivity. Qed.

Example splitext_hidden : splitext_ext "uploads/a.b/.bashrc" = "".
Proof. reflexivity. Qed.

Example bearer_token :
  request_token {| authorization := Some "Bearer abc def"; session_cookie := Some "c" |}
  = Some "abc".
Proof. reflexivity. Qed.

(* ------------------------------------------------------------------ *)
(** ** Quota bookkeeping *)

Lemma write_user_twice (u1 u2 : User) (db : DB) :
  user_id u1 = user_id u2 -> write_user u2 (write_user u1 db) = write_user u2 db.
Proof.
  intros Hid. unfold write_user. simpl. f_equal.
  rewrite map_map. apply map_ext. intros r. rewrite Hid.
  destruct (user_id r =? user_id u2) eqn:E; [|now rewrite E].
  now rewrite Hid, Z.eqb_refl.
Qed.

Lemma with_work_twice (f g : DB -> DB) (s : Session) :
  with_work g (with_work f s) = with_work (fun db => g (f db)) s.
Proof. reflexivity. Qed.

(** The two assignments of a reset followed by the commit. *)
Lemma reset_commit (s : Session) (user : User) (now : datetime) :
  let user' := set_last_quota_reset (StampAt now) (set_scan_count (Some 0) user) in
  commit_user
    (setattr_user (set_last_quota_reset (StampAt now))
       (setattr_user (set_scan_count (Some 0)) (user, s)))
  = (user', commit (with_work (write_user user') s))
  /\ commit_user
       (setattr_user (set_scan_count (Some 0))
          (setattr_user (set_last_quota_reset (StampAt now)) (user, s)))
     = (user', commit (with_work (write_user user') s)).
Proof.
  unfold commit_user, setattr_user, commit, with_work; simpl.
  split; f_equal; f_equal; now rewrite write_user_twice.
Qed.

Lemma stamp_outdated_dec (today : date) (stamp : quota_stamp) :
  {stamp_outdated today stamp} + {stamp_current today stamp}.
Proof.
  destruct stamp as [|l|]; simpl; try (left; exact I).
  destruct (Z.eq_dec (dt_month l) (d_month today)) as [Hm|Hm];
    [|left; now left].
  destruct (Z.eq_dec (dt_year l) (d_year today)) as [Hy|Hy];
    [|left; now right].
  right. now exists l.
Qed.

Lemma stamp_current_not_outdated (today : date) (stamp : quota_stamp) :
  stamp_current today stamp <-> ~ stamp_outdated today stamp.
Proof.
  split.
  - intros (l & -> & Hm & Hy) [H|H]; contradiction.
  - intros H. destruct (stamp_outdated_dec today stamp); [contradiction | assumption].
Qed.

Lemma check_unlimited (cfg : Settings) (w : World) (s : Session) (user : User) :
  email user = UNLIMITED_EMAIL ->
  check_and_reset_quota cfg w s user = (999999, (user, s)).
Proof.
  intros H. unfold check_and_reset_quota. now rewrite H, String.eqb_refl.
Qed.

Lemma check_outdated (cfg : Settings) (w : World) (s : Session) (user : User) :
  email user <> UNLIMITED_EMAIL ->
  stamp_outdated (w_today w) (last_quota_reset user) ->
  let user' := set_last_quota_reset (StampAt (w_now w)) (set_scan_count (Some 0) user) in
  check_and_reset_quota cfg w s user
  = (Z.max 0 (MAX_MONTHLY cfg - 0), (user', commit (with_work (write_user user') s))).
Proof.
  intros Hne Hout. unfold check_and_reset_quota.
  apply String.eqb_neq in Hne. rewrite Hne.
  destruct (reset_commit s user (w_now w)) as [E1 E2].
  destruct (last_quota_reset user) as [|l|] eqn:El.
  - cbv zeta in *. now rewrite E2.
  - simpl in Hout.
    assert (negb (dt_month l =? d_month (w_today w))
            || negb (dt_year l =? d_year (w_today w)) = true) as ->.
    { apply orb_true_iff. destruct Hout as [H|H]; [left|right];
        apply negb_true_iff, Z.eqb_neq; exact H. }
    cbv zeta in *. now rewrite E1.
  - cbv zeta in *. now rewrite E1.
Qed.

Lemma check_current (cfg : Settings) (w : World) (s : Session) (user : User) :
  email user <> UNLIMITED_EMAIL ->
  stamp_current (w_today w) (last_quota_reset user) ->
  check_and_reset_quota cfg w s user
  = (Z.max 0 (MAX_MONTHLY cfg - count_or_0 user), (user, s)).
Proof.
  intros Hne (l & El & Hm & Hy). unfold check_and_reset_quota.
  apply String.eqb_neq in Hne. rewrite Hne, El, Hm, Hy, !Z.eqb_refl. reflexivity.
Qed.

(** C2 (as amended).  For a user other than the unlimited one,
    [check_and_reset_quota] sets [scan_count] to 0 and [last_quota_reset]
    to the current time, and commits, whenever the stored stamp is missing
    or its month or year differs from today's; otherwise it changes
    nothing.  In both cases it returns [max(0, MAX_MONTHLY - scan_count)]
    for the count it leaves, which is at least 0, and at most
    [MAX_MONTHLY] when [MAX_MONTHLY] and the stored count are not
    negative. *)
Theorem check_and_reset_quota_spec
  (cfg : Settings) (w : World) (s : Session) (user : User)
  (remaining : Z) (user' : User) (s' : Session) :
  email user <> UNLIMITED_EMAIL ->
  check_and_reset_quota cfg w s user = (remaining, (user', s')) ->
  (stamp_outdated (w_today w) (last_quota_reset user) ->
     scan_count user' = Some 0
     /\ last_quota_reset user' = StampAt (w_now w)
     /\ s' = commit (with_work (write_user user') s))
  /\ (~ stamp_outdated (w_today w) (last_quota_reset user) ->
        user' = user /\ s' = s)
  /\ remaining = Z.max 0 (MAX_MONTHLY cfg - count_or_0 user')
  /\ 0 <= remaining
  /\ (0 <= MAX_MONTHLY cfg -> 0 <= count_or_0 user -> remaining <= MAX_MONTHLY cfg).
Proof.
  intros Hne Hrun.
  destruct (stamp_outdated_dec (w_today w) (last_quota_reset user)) as [Hout|Hcur].
  - rewrite (check_outdated cfg w s user Hne Hout) in Hrun.
    injection Hrun as <- <- <-. simpl.
    split; [intros _; repeat split | split; [intros Hn; contradiction |]].
    repeat split; lia.
  - pose proof (proj1 (stamp_current_not_outdated _ _) Hcur) as Hnot.
    rewrite (check_current cfg w s user Hne Hcur) in Hrun.
    injection Hrun as <- <- <-.
    split; [intros Ho; contradiction | split; [intros _; split; reflexivity |]].
    repeat split; lia.
Qed.

(* ------------------------------------------------------------------ *)
(** ** The upload handler *)

Section Upload.

Context {L : Lib}.
Variables (cfg : Settings) (w : World) (request : Request) (file : UploadFile).

Lemma upload_unauthenticated (s0 : Session) :
  get_current_user_from_request request s0 = None ->
  api_upload_resume_body cfg w request file s0
  = (Ok (json_response 401 false "Not authenticated"), s0).
Proof. intros H. unfold api_upload_resume_body. now rewrite H. Qed.

Lemma upload_over_quota (s0 s1 : Session) (user user' : User) (remaining : Z) :
  get_current_user_from_request request s0 = Some user ->
  check_and_reset_quota cfg w s0 user = (remaining, (user', s1)) ->
  remaining <= 0 ->
  api_upload_resume_body cfg w request file s0 = (Ok quota_exceeded, s1).
Proof.
  intros Hu Hc Hr. unfold api_upload_resume_body. rewrite Hu, Hc.
  apply Z.leb_le in Hr. now rewrite Hr.
Qed.

Lemma upload_bad_file (s0 s1 : Session) (user user' : User) (remaining : Z) :
  get_current_user_from_request request s0 = Some user ->
  check_and_reset_quota cfg w s0 user = (remaining, (user', s1)) ->
  0 < remaining ->
  allowed_file (up_filename file) = false ->
  api_upload_resume_body cfg w request file s0 = (Ok bad_file_type, s1).
Proof.
  intros Hu Hc Hr Hf. unfold api_upload_resume_body. rewrite Hu, Hc, Hf.
  apply Z.leb_gt in Hr. now rewrite Hr.
Qed.

(** Past the three checks the handler either raises before it touches the
    session, or adds one scan, consumes quota and commits. *)
Lemma upload_accepted (s0 s1 : Session) (user user' : User) (remaining : Z) :
  get_current_user_from_request request s0 = Some user ->
  check_and_reset_quota cfg w s0 user = (remaining, (user', s1)) ->
  0 < remaining ->
  allowed_file (up_filename file) = true ->
  (exists e, api_upload_resume_body cfg w request file s0 = (Raise e, s1))
  \/ (exists scan r,
        api_upload_resume_body cfg w request file s0
        = (Ok r, commit (snd (consume_quota (with_work (add_scan scan) s1) user')))
        /\ status_code r = 200).
Proof.
  intros Hu Hc Hr Hf. unfold api_upload_resume_body. rewrite Hu, Hc, Hf.
  apply Z.leb_gt in Hr. rewrite Hr. simpl negb. cbv iota.
  unfold bindM, lift, modify, ret.
  repeat match goal with
         | |- context [match ?x with Ok _ => _ | Raise _ => _ end] =>
             destruct x eqn:?; try (left; eexists; reflexivity)
         | |- context [match ?x with Some _ => _ | None => _ end] =>
             destruct x eqn:?; try (left; eexists; reflexivity)
         end.
  right. eexists. eexists. split; reflexivity.
Qed.

End Upload.

Lemma user_by_email_some (db : DB) (e : string) (u : User) :
  user_by_email db e = Some u -> In u (users db) /\ email u = e.
Proof.
  unfold user_by_email. intros H. apply find_some in H. destruct H as [Hin He].
  split; [exact Hin | now apply String.eqb_eq].
Qed.

Lemma Forall_write_user (P : User -> Prop) (u : User) (db : DB) :
  P u -> Forall P (users db) -> Forall P (users (write_user u db)).
Proof.
  intros Hu Hall. unfold write_user. simpl. apply Forall_forall.
  intros x Hx. apply in_map_iff in Hx. destruct Hx as (r & <- & Hr).
  destruct (user_id r =? user_id u); [exact Hu|].
  rewrite Forall_forall in Hall. now apply Hall.
Qed.

Lemma commit_with_work_open (f : DB -> DB) (db : DB) :
  commit (with_work f (open_session db)) = open_session (f db).
Proof. reflexivity. Qed.

(** What the quota check leaves of a freshly opened session. *)
Lemma check_open_session (cfg : Settings) (w : World) (db : DB) (user : User)
  (remaining : Z) (user' : User) (s1 : Session) :
  check_and_reset_quota cfg w (open_session db) user = (remaining, (user', s1)) ->
  (user' = user /\ s1 = open_session db)
  \/ (count_or_0 user' = 0 /\ email user' = email user
      /\ s1 = open_session (write_user user' db)).
Proof.
  intros Hrun.
  destruct (String.eqb (email user) UNLIMITED_EMAIL) eqn:Ee.
  - apply String.eqb_eq in Ee. rewrite (check_unlimited _ _ _ _ Ee) in Hrun.
    injection Hrun as _ <- <-. now left.
  - apply String.eqb_neq in Ee.
    destruct (stamp_outdated_dec (w_today w) (last_quota_reset user)) as [Ho|Hc].
    + rewrite (check_outdated cfg w _ user Ee Ho) in Hrun.
      injection Hrun as _ <- <-. right. repeat split.
    + rewrite (check_current cfg w _ user Ee Hc) in Hrun.
      injection Hrun as _ <- <-. now left.
Qed.

(** The answer for a user under the quota regime. *)
Lemma check_answer (cfg : Settings) (w : World) (s : Session) (user : User)
  (remaining : Z) (user' : User) (s1 : Session) :
  email user <> UNLIMITED_EMAIL ->
  check_and_reset_quota cfg w s user = (remaining, (user', s1)) ->
  remaining = Z.max 0 (MAX_MONTHLY cfg - count_or_0 user').
Proof.
  intros Hne Hrun.
  destruct (stamp_outdated_dec (w_today w) (last_quota_reset user)) as [Ho|Hc].
  - rewrite (check_outdated cfg w s user Hne Ho) in Hrun.
    now injection Hrun as <- <- <-.
  - rewrite (check_current cfg w s user Hne Hc) in Hrun.
    now injection Hrun as <- <- <-.
Qed.

(** A positive answer of the check leaves room for one more scan. *)
Lemma check_positive_room (cfg : Settings) (w : World) (s : Session) (user : User)
  (remaining : Z) (user' : User) (s1 : Session) :
  check_and_reset_quota cfg w s user = (remaining, (user', s1)) ->
  0 < remaining ->
  email user' = UNLIMITED_EMAIL \/ count_or_0 user' + 1 <= MAX_MONTHLY cfg.
Proof.
  intros Hrun Hpos.
  destruct (String.eqb (email user) UNLIMITED_EMAIL) eqn:Ee.
  - apply String.eqb_eq in Ee. rewrite (check_unlimited _ _ _ _ Ee) in Hrun.
    injection Hrun as _ <- <-. now left.
  - apply String.eqb_neq in Ee. right.
    pose proof (check_answer cfg w s user remaining user' s1 Ee Hrun). lia.
Qed.

Lemma consume_quota_users (cfg : Settings) (s : Session) (user : User) :
  email user = UNLIMITED_EMAIL \/ count_or_0 user + 1 <= MAX_MONTHLY cfg ->
  Forall (within_quota cfg) (users (work s)) ->
  Forall (within_quota cfg) (users (work (snd (consume_quota s user)))).
Proof.
  intros Hroom Hall. unfold consume_quota.
  destruct (String.eqb (email user) UNLIMITED_EMAIL) eqn:Ee; [exact Hall|].
  apply String.eqb_neq in Ee. destruct Hroom as [H|H]; [contradiction|].
  apply (Forall_write_user _ (set_scan_count (Some (count_or_0 user + 1)) user));
    [|exact Hall].
  unfold within_quota. simpl. exact H.
Qed.

Lemma consume_quota_scans (s : Session) (user : User) :
  scans (work (snd (consume_quota s user))) = scans (work s).
Proof.
  unfold consume_quota.
  destruct (String.eqb (email user) UNLIMITED_EMAIL); reflexivity.
Qed.

Section UploadTheorems.

Context {L : Lib}.
Variables (cfg : Settings) (w : World) (request : Request) (file : UploadFile).

(** C1 (as amended).  For an authenticated user other than the unlimited
    one whose stamp lies in the current month and whose [scan_count] has
    reached [MAX_MONTHLY], [api_upload_resume] answers with the
    quota-exceeded response and leaves the whole database as it was: no
    [ResumeScan] row, no change of [scan_count].  And when [MAX_MONTHLY] is
    not negative, an upload never takes any user's count above
    [MAX_MONTHLY]. *)
Theorem upload_quota_enforced (db : DB) :
  (forall user,
     get_current_user_from_request request (open_session db) = Some user ->
     email user <> UNLIMITED_EMAIL ->
     stamp_current (w_today w) (last_quota_reset user) ->
     MAX_MONTHLY cfg <= count_or_0 user ->
     api_upload_resume cfg w request file db = (quota_exceeded, db))
  /\ (0 <= MAX_MONTHLY cfg ->
      Forall (within_quota cfg) (users db) ->
      Forall (within_quota cfg) (users (snd (api_upload_resume cfg w request file db)))).
Proof.
  split.
  - intros user Hu Hne Hcur Hfull. unfold api_upload_resume.
    pose proof (check_current cfg w (open_session db) user Hne Hcur) as Hc.
    rewrite (upload_over_quota cfg w request file _ _ _ _ _ Hu Hc) by lia.
    reflexivity.
  - intros Hmax Hall. unfold api_upload_resume.
    destruct (get_current_user_from_request request (open_session db)) as [user|] eqn:Hu.
    2:{ now rewrite (upload_unauthenticated cfg w request file _ Hu). }
    destruct (check_and_reset_quota cfg w (open_session db) user)
      as [remaining [user' s1]] eqn:Hc.
    assert (Hs1 : Forall (within_quota cfg) (users (work s1))
                  /\ Forall (within_quota cfg) (users (stored s1))).
    { destruct (check_open_session cfg w db user remaining user' s1 Hc)
        as [[_ ->] | (H0 & _ & ->)]; simpl; [now split|].
      assert (within_quota cfg user') by (unfold within_quota; lia).
      split; now apply Forall_write_user. }
    destruct Hs1 as [Hwork Hstored].
    destruct (Z.le_gt_cases remaining 0) as [Hr|Hr].
    { now rewrite (upload_over_quota cfg w request file _ _ _ _ _ Hu Hc Hr). }
    destruct (allowed_file (up_filename file)) eqn:Hf.
    2:{ now rewrite (upload_bad_file cfg w request file _ _ _ _ _ Hu Hc Hr Hf). }
    destruct (upload_accepted cfg w request file _ _ _ _ _ Hu Hc Hr Hf)
      as [[e ->] | (scan & r & -> & _)]; [exact Hstored|].
    simpl. apply consume_quota_users.
    + exact (check_positive_room cfg w _ user remaining user' s1 Hc Hr).
    + exact Hwork.
Qed.

(** C3 (as amended).  [allowed_file] returns True exactly for a non-empty
    name whose lowercased form ends with [.pdf] or [.docx]; for a name that
    fails the check [api_upload_resume] creates no scan row, and when the
    request is authenticated the response is a 400 with [success] false. *)
Theorem allowed_file_gate (db : DB) :
  (forall filename,
     allowed_file filename = true <->
     exists f, filename = Some f /\ f <> ""
               /\ (ends_with (lower f) ".pdf" \/ ends_with (lower f) ".docx"))
  /\ (allowed_file (up_filename file) = false ->
      scans (snd (api_upload_resume cfg w request file db)) = scans db
      /\ (get_current_user_from_request request (open_session db) <> None ->
          status_code (fst (api_upload_resume cfg w request file db)) = 400
          /\ success (fst (api_upload_resume cfg w request file db)) = false)).
Proof.
  split; [exact allowed_file_iff|].
  intros Hf. unfold api_upload_resume.
  destruct (get_current_user_from_request request (open_session db)) as [user|] eqn:Hu.
  2:{ rewrite (upload_unauthenticated cfg w request file _ Hu). simpl.
      split; [reflexivity | intros H; now elim H]. }
  destruct (check_and_reset_quota cfg w (open_session db) user)
    as [remaining [user' s1]] eqn:Hc.
  assert (Hs1 : scans (stored s1) = scans db).
  { destruct (check_open_session cfg w db user remaining user' s1 Hc)
      as [[_ ->] | (_ & _ & ->)]; reflexivity. }
  destruct (Z.le_gt_cases remaining 0) as [Hr|Hr].
  - rewrite (upload_over_quota cfg w request file _ _ _ _ _ Hu Hc Hr).
    simpl. split; [exact Hs1 | intros _; split; reflexivity].
  - rewrite (upload_bad_file cfg w request file _ _ _ _ _ Hu Hc Hr Hf).
    simpl. split; [exact Hs1 | intros _; split; reflexivity].
Qed.

(** C9.  For the user whose email is exactly [nadeemali001@gmail.com],
    [check_and_reset_quota] returns 999999 and leaves object and session
    untouched, whatever the quota fields hold; [consume_quota] changes
    nothing; and an upload by this user is never answered with the
    quota-exceeded response and never changes a user row. *)
Theorem unlimited_user_bypasses_quota (user : User) :
  email user = UNLIMITED_EMAIL ->
  (forall s, check_and_reset_quota cfg w s user = (999999, (user, s)))
  /\ (forall s c t,
        fst (check_and_reset_quota cfg w s
               (set_scan_count c (set_last_quota_reset t user))) = 999999)
  /\ (forall s, consume_quota s user = (user, s))
  /\ (forall db,
        get_current_user_from_request request (open_session db) = Some user ->
        fst (api_upload_resume cfg w request file db) <> quota_exceeded
        /\ users (snd (api_upload_resume cfg w request file db)) = users db).
Proof.
  intros He. split; [|split; [|split]].
  - intros s. now apply check_unlimited.
  - intros s c t. now rewrite check_unlimited.
  - intros s. unfold consume_quota. now rewrite He, String.eqb_refl.
  - intros db Hu. unfold api_upload_resume.
    pose proof (check_unlimited cfg w (open_session db) user He) as Hc.
    destruct (allowed_file (up_filename file)) eqn:Hf.
    + destruct (upload_accepted cfg w request file _ _ _ _ _ Hu Hc eq_refl Hf)
        as [[e ->] | (scan & r & -> & Hr)].
      * split; [discriminate | reflexivity].
      * split.
        { simpl. intros ->. discriminate. }
        simpl. unfold consume_quota. now rewrite He, String.eqb_refl.
    + rewrite (upload_bad_file cfg w request file _ _ _ _ _ Hu Hc eq_refl Hf).
      split; [discriminate | reflexivity].
Qed.

End UploadTheorems.

(* ------------------------------------------------------------------ *)
(** ** Coercion of the LLM output *)

Lemma find_char_ge (c : ascii) (s : string) : -1 <= find_char c s.
Proof.
  induction s as [|d r IH]; simpl; [lia|].
  destruct (Ascii.eqb c d); [lia|].
  destruct (find_char c r =? -1) eqn:E; lia.
Qed.

Lemma brace_condition (a b : Z) :
  -1 <= a ->
  negb (a =? -1) && negb (b =? -1) && (a <? b) = (0 <=? a) && (a <? b).
Proof.
  intros Ha.
  destruct (a =? -1) eqn:E1, (b =? -1) eqn:E2, (a <? b) eqn:E3, (0 <=? a) eqn:E4;
    try reflexivity; exfalso;
    repeat match goal with
           | H : (_ =? _) = true |- _ => apply Z.eqb_eq in H
           | H : (_ =? _) = false |- _ => apply Z.eqb_neq in H
           | H : (_ <? _) = true |- _ => apply Z.ltb_lt in H
           | H : (_ <? _) = false |- _ => apply Z.ltb_ge in H
           | H : (_ <=? _) = true |- _ => apply Z.leb_le in H
           | H : (_ <=? _) = false |- _ => apply Z.leb_gt in H
           end; lia.
Qed.

Lemma randint_range (a b : Z) (g : Rng) :
  a <= b -> a <= fst (randint a b g) <= b.
Proof.
  intros Hab. unfold randint, next_draw. cbv beta iota zeta. unfold fst.
  pose proof (Z.mod_pos_bound (draws g (cursor g)) (b - a + 1)). lia.
Qed.

(** *** The two regular expressions against their specification *)

Lemma first_success_app {A : Type} (l1 l2 : list (option A)) :
  first_success (l1 ++ l2)
  = match first_success l1 with
    | Some v => Some v
    | None => first_success l2
    end.
Proof.
  induction l1 as [|[v|] l1 IH]; simpl; [now destruct (first_success l2) | reflexivity | exact IH].
Qed.

Lemma closer_not_space (c : ascii) : is_closer c = true -> is_space c = false.
Proof.
  unfold is_closer. intros H. apply orb_true_iff in H.
  destruct H as [H|H]; apply Ascii.eqb_eq in H; subst; reflexivity.
Qed.

Lemma closer_not_comma (c : ascii) : is_closer c = true -> Ascii.eqb c "," = false.
Proof.
  unfold is_closer. intros H. apply orb_true_iff in H.
  destruct H as [H|H]; apply Ascii.eqb_eq in H; subst; reflexivity.
Qed.

Lemma space_not_comma (c : ascii) : is_space c = true -> Ascii.eqb c "," = false.
Proof.
  intros H. destruct (Ascii.eqb_spec c ","); [subst; discriminate | reflexivity].
Qed.

Lemma comma_is_trailing_spec (r : string) : closer_after_spaces r = comma_is_trailing r.
Proof.
  unfold comma_is_trailing. induction r as [|c r IH]; [reflexivity|].
  cbn [closer_after_spaces lstrip_by].
  destruct (is_space c) eqn:Es.
  - rewrite IH. destruct (is_closer c) eqn:Ec; [|reflexivity].
    apply closer_not_space in Ec. congruence.
  - now rewrite orb_false_r.
Qed.

Lemma sub_dropping (r : string) :
  closer_after_spaces r = true ->
  sub_trailing_commas true r = lstrip_by is_space (sub_trailing_commas false r).
Proof.
  induction r as [|c r IH]; [discriminate|].
  cbn [closer_after_spaces sub_trailing_commas]. intros H.
  destruct (is_closer c) eqn:Ec.
  - rewrite (closer_not_comma c Ec). cbn [andb lstrip_by].
    now rewrite (closer_not_space c Ec).
  - cbn [orb] in H. apply andb_true_iff in H. destruct H as [Es Hr].
    rewrite (space_not_comma c Es). cbn [andb lstrip_by]. rewrite Es. now apply IH.
Qed.

(** The substitution of the source removes the trailing commas, and nothing
    else. *)
Lemma remove_trailing_commas_spec (s : string) :
  remove_trailing_commas s = without_trailing_commas s.
Proof.
  unfold remove_trailing_commas.
  induction s as [|c r IH]; [reflexivity|].
  cbn [sub_trailing_commas without_trailing_commas].
  rewrite <- comma_is_trailing_spec.
  destruct (Ascii.eqb c "," && closer_after_spaces r) eqn:E.
  - apply andb_true_iff in E. destruct E as [_ E].
    rewrite (sub_dropping r E). now rewrite IH.
  - now rewrite IH.
Qed.

Lemma first_success_all_none {A B : Type} (f : A -> option B) (l : list A) :
  (forall x, In x l -> f x = None) -> first_success (map f l) = None.
Proof.
  induction l as [|a l IH]; intros H; [reflexivity|].
  cbn [map first_success]. rewrite (H a (or_introl eq_refl)).
  apply IH. intros x Hx. apply H. now right.
Qed.

Lemma first_success_flat_map {A B : Type} (h : A -> list (option B)) (l : list A) :
  first_success (flat_map h l) = first_success (map (fun a => first_success (h a)) l).
Proof.
  induction l as [|a l IH]; [reflexivity|].
  cbn [flat_map map]. rewrite first_success_app, IH.
  cbn [first_success]. now destruct (first_success (h a)).
Qed.

Lemma map_seq_S {B : Type} (f : nat -> B) (a n : nat) :
  map f (seq (S a) n) = map (fun k => f (S k)) (seq a n).
Proof. now rewrite <- seq_shift, map_map. Qed.

Lemma length_lstrip_by (p : ascii -> bool) (s : string) :
  (String.length (lstrip_by p s) <= String.length s)%nat.
Proof.
  induction s as [|c s IH]; [apply Nat.le_refl|].
  cbn [lstrip_by]. destruct (p c); [simpl; lia | apply Nat.le_refl].
Qed.

Lemma length_take_le (n : nat) (s : string) :
  (String.length (take n s) <= String.length s)%nat.
Proof.
  revert s. induction n as [|n IH]; intros [|c s]; simpl; try lia.
  specialize (IH s). lia.
Qed.

(** The last character of a text of two characters or more is that of its tail. *)
Lemma endswith_cons (c d : ascii) (x : string) :
  x <> EmptyString ->
  endswith (String c x) (String d EmptyString) = endswith x (String d EmptyString).
Proof.
  destruct x as [|e x]; [congruence|]. intros _.
  unfold endswith.
  change (String.length (String d EmptyString)) with 1%nat.
  change (String.length (String c (String e x))) with (S (S (String.length x))).
  change (String.length (String e x)) with (S (String.length x)).
  change (S (S (String.length x)) - 1)%nat with (S (String.length x) - 0)%nat.
  change (S (String.length x) - 1)%nat with (String.length x - 0)%nat.
  rewrite !Nat.sub_0_r. reflexivity.
Qed.

Lemma endswith_single (c d : ascii) :
  endswith (String c EmptyString) (String d EmptyString) = Ascii.eqb c d.
Proof.
  unfold endswith. simpl. now destruct (Ascii.eqb c d).
Qed.

(** The scan of [fenced_body] finds the shortest piece of [r] that ends with
    a closing brace followed by optional white space and the fence. *)
Lemma fenced_body_first (r acc : string) (bound : nat) :
  (String.length r <= bound)%nat ->
  fenced_body acc r
  = first_success
      (map (fun k =>
              if (String.length (take (S k) r) =? S k)%nat
                 && endswith (take (S k) r) "}"
                 && startswith (lstrip_by is_space (drop (S k) r)) "```"
              then Some (acc ++ take (S k) r) else None)
           (seq 0 bound)).
Proof.
  revert acc bound. induction r as [|c r IH]; intros acc bound Hb.
  - cbn [fenced_body]. symmetry. apply first_success_all_none. reflexivity.
  - destruct bound as [|bound]; [simpl in Hb; lia|].
    cbn [seq map first_success fenced_body].
    change (take 1 (String c r)) with (String c EmptyString).
    change (drop 1 (String c r)) with r.
    rewrite endswith_single.
    change (String.length (String c EmptyString) =? 1)%nat with true.
    cbn [andb]. unfold fence.
    destruct (Ascii.eqb c "}" && startswith (lstrip_by is_space r) "```") eqn:E.
    + apply andb_true_iff in E. destruct E as [E _]. apply Ascii.eqb_eq in E.
      now subst c.
    + rewrite (IH (acc ++ String c EmptyString) bound) by (simpl in Hb; lia).
      rewrite map_seq_S. f_equal. apply map_ext. intros k.
      change (take (S (S k)) (String c r)) with (String c (take (S k) r)).
      change (drop (S (S k)) (String c r)) with (drop (S k) r).
      change (String.length (String c (take (S k) r)) =? S (S k))%nat
        with (String.length (take (S k) r) =? S k)%nat.
      destruct (String.length (take (S k) r) =? S k)%nat eqn:El; [|reflexivity].
      rewrite endswith_cons.
      * rewrite str_app_assoc. reflexivity.
      * apply Nat.eqb_eq in El. intros Hx. rewrite Hx in El. discriminate.
Qed.

Lemma fenced_at_first (s : string) (bound : nat) :
  (String.length s <= bound)%nat ->
  first_success (map (fenced_block_at s 0) (seq 0 (S bound))) = fenced_at s.
Proof.
  intros Hb. unfold fenced_block_at, fenced_at.
  change (drop 0 s) with s.
  destruct (String.eqb (lower (take 7 s)) "```json") eqn:E.
  2:{ apply first_success_all_none. reflexivity. }
  pose proof (length_lstrip_by is_space (drop 7 s)) as Hl.
  rewrite length_drop in Hl.
  destruct (lstrip_by is_space (drop 7 s)) as [|c r].
  { apply first_success_all_none. intros n _. destruct n as [|[|n]]; reflexivity. }
  destruct (Ascii.eqb c "{") eqn:Ec.
  2:{ apply first_success_all_none. intros n _. destruct n as [|n]; [reflexivity|].
      change (take (S n) (String c r)) with (String c (take n r)).
      rewrite startswith_char, Ascii.eqb_sym, Ec.
      now rewrite !andb_false_r. }
  apply Ascii.eqb_eq in Ec. subst c.
  destruct bound as [|bound]; [simpl in Hl; lia|].
  rewrite (fenced_body_first r "{" bound) by (simpl in Hl; lia).
  cbn [seq map first_success]. cbn [andb Nat.leb].
  rewrite !map_seq_S. f_equal. apply map_ext. intros k.
  change (take (S (S k)) (String "{" r)) with (String "{" (take (S k) r)).
  change (drop (S (S k)) (String "{" r)) with (drop (S k) r).
  change (String.length (String "{" (take (S k) r)) =? S (S k))%nat
    with (String.length (take (S k) r) =? S k)%nat.
  rewrite startswith_cons. cbn [andb Nat.leb].
  destruct (String.length (take (S k) r) =? S k)%nat eqn:El; [|reflexivity].
  rewrite endswith_cons; [reflexivity|].
  apply Nat.eqb_eq in El. intros Hx. rewrite Hx in El. discriminate.
Qed.

Lemma search_fenced_json_first (s : string) :
  search_fenced_json s
  = first_success (map (fun i => fenced_at (drop i s)) (seq 0 (S (String.length s)))).
Proof.
  induction s as [|c s IH].
  - cbn [search_fenced_json String.length seq map first_success].
    change (drop 0 EmptyString) with EmptyString.
    now destruct (fenced_at EmptyString).
  - cbn [search_fenced_json]. change (String.length (String c s)) with (S (String.length s)).
    remember (S (String.length s)) as n.
    cbn [seq map first_success]. change (drop 0 (String c s)) with (String c s).
    destruct (fenced_at (String c s)); [reflexivity|].
    rewrite map_seq_S. subst n. exact IH.
Qed.

(** The search of the source finds the block the specification means. *)
Lemma search_fenced_json_spec (text : string) :
  search_fenced_json text = fenced_block_spec text.
Proof.
  unfold fenced_block_spec. cbv zeta.
  rewrite first_success_flat_map, search_fenced_json_first.
  f_equal. apply map_ext. intros i.
  rewrite <- (fenced_at_first (drop i text) (String.length text)).
  - reflexivity.
  - rewrite length_drop. lia.
Qed.

Section Coercion.

Context {L : Lib}.

Lemma parse_candidate_spec (candidate : string) :
  parse_candidate (remove_trailing_commas candidate)
  = first_success (repairs_spec candidate).
Proof.
  unfold parse_candidate, repairs_spec, first_success.
  rewrite remove_trailing_commas_spec.
  destruct (json_loads (without_trailing_commas candidate)); [reflexivity|].
  destruct (json_loads (replace_char "'" (ascii_of_nat 34)
                          (without_trailing_commas candidate))); [reflexivity|].
  now destruct (literal_eval (without_trailing_commas candidate)).
Qed.

Lemma repairs_single (c : string) :
  first_success (flat_map repairs_spec [c])
  = parse_candidate (remove_trailing_commas c).
Proof.
  cbn [flat_map]. now rewrite app_nil_r, parse_candidate_spec.
Qed.

(** C5.  [_parse_json_or_fallback] is the layered parse of the
    specification: [None] for the empty text; the value of [json.loads] on
    the whole text when that succeeds; otherwise the first success among
    the repairs (trailing commas removed, then single quotes replaced, then
    a Python literal) of the fenced block and then of the text from the
    first opening to the last closing brace; [None] when every layer
    fails. *)
Theorem parse_json_or_fallback_layers (text : string) :
  _parse_json_or_fallback text = parse_layers_spec text
  /\ _parse_json_or_fallback "" = PyNone
  /\ (forall v, text <> "" -> json_loads text = Some v ->
                _parse_json_or_fallback text = v)
  /\ (json_loads text = None ->
      (forall c, In c (candidates_spec text) ->
                 first_success (repairs_spec c) = None) ->
      _parse_json_or_fallback text = PyNone).
Proof.
  assert (Hmain : _parse_json_or_fallback text = parse_layers_spec text).
  { unfold _parse_json_or_fallback, parse_layers_spec.
    destruct text as [|c0 text0]; [reflexivity|].
    remember (String c0 text0) as text eqn:Htext.
    replace (str_is_empty text) with false by now subst.
    replace (String.eqb text "") with false by now subst.
    cbn [first_success]. destruct (json_loads text) as [v|]; [reflexivity|].
    unfold candidates_spec. rewrite <- search_fenced_json_spec.
    rewrite flat_map_app, first_success_app.
    rewrite brace_condition by apply find_char_ge.
    destruct (search_fenced_json text) as [m|]; unfold to_list.
    - rewrite repairs_single.
      destruct (parse_candidate (remove_trailing_commas m)); [reflexivity|].
      destruct ((0 <=? find_char "{" text) && (find_char "{" text <? rfind_char "}" text)).
      + now rewrite repairs_single.
      + reflexivity.
    - cbn [flat_map first_success].
      destruct ((0 <=? find_char "{" text) && (find_char "{" text <? rfind_char "}" text)).
      + now rewrite repairs_single.
      + reflexivity. }
  split; [exact Hmain|]. split; [reflexivity|]. split.
  - intros v Hne Hv. unfold _parse_json_or_fallback.
    destruct text; [congruence|]. simpl str_is_empty. cbv iota. now rewrite Hv.
  - intros Hnone Hall. rewrite Hmain. unfold parse_layers_spec.
    destruct (String.eqb text ""); [reflexivity|].
    cbn [first_success]. rewrite Hnone.
    assert (first_success (flat_map repairs_spec (candidates_spec text)) = None) as ->;
      [|reflexivity].
    induction (candidates_spec text) as [|c cs IH]; [reflexivity|].
    cbn [flat_map]. rewrite first_success_app, (Hall c (or_introl eq_refl)).
    apply IH. intros c' Hc'. apply Hall. now right.
Qed.

End Coercion.

Section Analysis.

Context {L : Lib}.

Lemma llm_analysis_keys (parsed r : pyval) :
  llm_analysis parsed = Ok r -> has_keys analysis_keys r.
Proof.
  unfold llm_analysis, bind. intros H.
  repeat match type of H with
         | match ?x with Ok _ => _ | Raise _ => _ end = _ =>
             destruct x; [|discriminate]
         end.
  injection H as <-. eexists. split; [reflexivity|].
  repeat constructor.
Qed.

Lemma mock_analysis_shape (g : Rng) :
  has_keys analysis_keys (mock_analysis g)
  /\ exists n, py_get (mock_analysis g) "score" PyNone = Ok (PyInt n) /\ 35 <= n <= 90.
Proof.
  unfold mock_analysis.
  pose proof (randint_range 35 90 g ltac:(lia)) as Hn.
  destruct (randint 35 90 g) as [n g1].
  destruct (random_gt_half g1) as [b1 g2].
  destruct (random_gt_half g2) as [b2 g3].
  split.
  - eexists. split; [reflexivity|]. repeat constructor.
  - exists n. split; [reflexivity | exact Hn].
Qed.

Lemma call_llm_failed (w : World) (prompt : string) :
  (forall r, w_llm w prompt <> HttpOk r) -> call_llm w prompt = "".
Proof.
  intros H. unfold call_llm. destruct (w_llm w prompt) as [| | |r]; try reflexivity.
  now elim (H r).
Qed.

(** C4.  [process_resume_file] never raises: for every path it returns a
    dict with the keys score, feedback, strengths, weaknesses and
    suggestions.  When the request to the LLM fails, or when no layer of
    the parse yields a value, the result is the mock analysis, whose score
    is an integer from 35 to 90. *)
Theorem process_resume_file_total (w : World) (path : string) :
  (exists r, process_resume_file w path = Ok r /\ has_keys analysis_keys r)
  /\ (let prompt := resume_prompt (basename path) (resume_text_of w path) in
      (forall r, w_llm w prompt <> HttpOk r)
      \/ _parse_json_or_fallback (call_llm w prompt) = PyNone ->
      process_resume_file w path = Ok (mock_analysis (w_rng w))
      /\ exists n,
           py_get (mock_analysis (w_rng w)) "score" PyNone = Ok (PyInt n)
           /\ 35 <= n <= 90).
Proof.
  split.
  - unfold process_resume_file.
    destruct (try_llm_analysis w path (resume_text_of w path)) as [[r|]|e] eqn:E.
    + exists r. split; [reflexivity|].
      unfold try_llm_analysis in E.
      destruct (truthy _); [|discriminate].
      unfold bind in E. destruct (llm_analysis _) eqn:El; [|discriminate].
      injection E as <-. eapply llm_analysis_keys; eassumption.
    + eexists. split; [reflexivity | apply mock_analysis_shape].
    + eexists. split; [reflexivity | apply mock_analysis_shape].
  - intros prompt Hfail.
    assert (Hparsed : _parse_json_or_fallback (call_llm w prompt) = PyNone).
    { destruct Hfail as [H|H]; [|exact H].
      now rewrite (call_llm_failed w prompt H). }
    split; [|apply mock_analysis_shape].
    unfold process_resume_file, try_llm_analysis. fold prompt.
    now rewrite Hparsed.
Qed.

(** *** Dict updates *)

Lemma dict_lookup_set_same (k : string) (v : pyval) (d : list (pyval * pyval)) :
  dict_lookup k (dict_set k v d) = Some v.
Proof.
  induction d as [|[k' v'] d IH]; simpl.
  - now rewrite String.eqb_refl.
  - destruct (is_key k k') eqn:E; simpl; now rewrite E.
Qed.

Lemma is_key_eq (k1 k2 : string) (x : pyval) :
  is_key k1 x = true -> is_key k2 x = true -> k1 = k2.
Proof.
  destruct x; simpl; try discriminate.
  intros H1 H2. apply String.eqb_eq in H1, H2. congruence.
Qed.

Lemma dict_lookup_set_other (k k' : string) (v : pyval) (d : list (pyval * pyval)) :
  k <> k' -> dict_lookup k (dict_set k' v d) = dict_lookup k d.
Proof.
  intros Hne. induction d as [|[x v'] d IH]; simpl.
  - destruct (String.eqb k' k) eqn:E; [|reflexivity].
    apply String.eqb_eq in E. congruence.
  - destruct (is_key k' x) eqn:E'; simpl.
    + destruct (is_key k x) eqn:E; [|reflexivity].
      elim Hne. eapply is_key_eq; eassumption.
    + now rewrite IH.
Qed.

Lemma dict_lookup_set (k k' : string) (v : pyval) (d : list (pyval * pyval)) :
  dict_lookup k (dict_set k' v d)
  = if String.eqb k k' then Some v else dict_lookup k d.
Proof.
  destruct (String.eqb k k') eqn:E.
  - apply String.eqb_eq in E. subst. apply dict_lookup_set_same.
  - apply String.eqb_neq in E. now apply dict_lookup_set_other.
Qed.

Lemma fill_step_keeps (d : list (pyval * pyval)) (key k : string) (v : pyval) :
  dict_lookup k d = Some v -> dict_lookup k (fill_step d key) = Some v.
Proof.
  intros H. unfold fill_step, dict_has.
  destruct (dict_lookup key d) eqn:E; simpl; [exact H|].
  rewrite dict_lookup_set_other; [exact H|]. intros ->. congruence.
Qed.

Lemma fill_fold_keeps (keys : list string) (d : list (pyval * pyval))
  (k : string) (v : pyval) :
  dict_lookup k d = Some v -> dict_lookup k (fold_left fill_step keys d) = Some v.
Proof.
  revert d. induction keys as [|key keys IH]; intros d H; simpl; [exact H|].
  apply IH. now apply fill_step_keeps.
Qed.

(** After the loop a listed key holds what the parsed object held, or the
    default of the key. *)
Lemma fill_fold_lookup (keys : list string) (d : list (pyval * pyval)) (k : string) :
  In k keys ->
  dict_lookup k (fold_left fill_step keys d)
  = Some (match dict_lookup k d with Some v => v | None => default_for k end).
Proof.
  revert d. induction keys as [|key keys IH]; intros d Hin; [contradiction|].
  simpl. destruct (String.eqb k key) eqn:E.
  - apply String.eqb_eq in E. subst key. apply fill_fold_keeps.
    unfold fill_step, dict_has. destruct (dict_lookup k d) eqn:Ek; simpl.
    + exact Ek.
    + apply dict_lookup_set_same.
  - apply String.eqb_neq in E. destruct Hin as [->|Hin]; [congruence|].
    rewrite (IH _ Hin). f_equal. unfold fill_step.
    destruct (negb (dict_has key d)); [|reflexivity].
    now rewrite dict_lookup_set_other.
Qed.

Lemma fill_missing_lookup (d : list (pyval * pyval)) (k : string) :
  In k expected_keys ->
  dict_lookup k (fill_missing d)
  = Some (match dict_lookup k d with Some v => v | None => default_for k end).
Proof. apply fill_fold_lookup. Qed.

Lemma ensure_content_lookup (key k : string) (content : pyval) (d : list (pyval * pyval)) :
  dict_lookup k (ensure_content key content d)
  = if String.eqb k key
    then match dict_lookup key d with
         | Some v => if truthy v then Some v else Some content
         | None => Some content
         end
    else dict_lookup k d.
Proof.
  unfold ensure_content. destruct (String.eqb k key) eqn:E.
  - apply String.eqb_eq in E. subst k.
    destruct (dict_lookup key d) as [v|] eqn:Ek; simpl.
    + destruct (truthy v); simpl; [exact Ek | apply dict_lookup_set_same].
    + apply dict_lookup_set_same.
  - apply String.eqb_neq in E.
    destruct (negb _); [now apply dict_lookup_set_other | reflexivity].
Qed.

End Analysis.

Section Comparison.

Context {L : Lib}.

Lemma ensure_content_some (key k : string) (content : pyval) (d : list (pyval * pyval)) :
  (exists v, dict_lookup k d = Some v) ->
  exists v, dict_lookup k (ensure_content key content d) = Some v.
Proof.
  intros [v Hv]. rewrite ensure_content_lookup.
  destruct (String.eqb k key) eqn:E; [|now exists v].
  apply String.eqb_eq in E. subst k. rewrite Hv.
  destruct (truthy v); eexists; reflexivity.
Qed.

(** After [ensure_content] the key holds a truthy value: the content put
    in, or the value that was there. *)
Lemma ensure_content_truthy (key : string) (content : pyval) (d : list (pyval * pyval)) :
  truthy content = true ->
  exists v, dict_lookup key (ensure_content key content d) = Some v
            /\ truthy v = true
            /\ (v = content \/ dict_lookup key d = Some v).
Proof.
  intros Hc. rewrite ensure_content_lookup, String.eqb_refl.
  destruct (dict_lookup key d) as [v|].
  - destruct (truthy v) eqn:Ev.
    + exists v. auto.
    + exists content. auto.
  - exists content. auto.
Qed.

Lemma fill_missing_truthy (d : list (pyval * pyval)) (k : string) (v : pyval) :
  In k content_keys ->
  dict_lookup k (fill_missing d) = Some v -> truthy v = true ->
  dict_lookup k d = Some v.
Proof.
  intros Hin Hv Ht. rewrite fill_missing_lookup in Hv.
  - destruct (dict_lookup k d) as [v0|]; [exact Hv|].
    injection Hv as <-.
    destruct Hin as [<-|[<-|[<-|[]]]]; discriminate.
  - destruct Hin as [<-|[<-|[<-|[]]]]; simpl; tauto.
Qed.

Lemma try_parse_comparison_ok (raw : string) (data : pyval) :
  try_parse_comparison raw = Ok data ->
  exists js d0,
    extract_json_str raw = Ok js /\ json_loads js = Some (PyDict d0)
    /\ data = PyDict (ensured d0).
Proof.
  unfold try_parse_comparison, bind. intros H.
  destruct (extract_json_str raw) as [js|]; [|discriminate].
  destruct (json_loads js) as [v|] eqn:Ej; [|discriminate].
  destruct v; try discriminate.
  injection H as <-. exists js. eexists. repeat split. exact Ej.
Qed.

Lemma ensured_has_keys (d0 : list (pyval * pyval)) (k : string) :
  In k expected_keys -> dict_has k (ensured d0) = true.
Proof.
  intros Hin. unfold dict_has, ensured.
  destruct (ensure_content_some "improvements" k improvements_content _
              (ensure_content_some "weaknesses" k weaknesses_content _
                 (ensure_content_some "strengths" k strengths_content _
                    (ex_intro _ _ (fill_missing_lookup d0 k Hin))))) as [v ->].
  reflexivity.
Qed.

Lemma ensured_content (d0 : list (pyval * pyval)) (k : string) :
  In k content_keys ->
  exists v, dict_lookup k (ensured d0) = Some v /\ truthy v = true
            /\ (is_list v = true \/ dict_lookup k d0 = Some v).
Proof.
  intros Hin. unfold ensured.
  destruct Hin as [<-|[<-|[<-|[]]]].
  - rewrite (ensure_content_lookup "improvements" "strengths"). simpl String.eqb. cbv iota.
    rewrite (ensure_content_lookup "weaknesses" "strengths"). simpl String.eqb. cbv iota.
    destruct (ensure_content_truthy "strengths" strengths_content (fill_missing d0) eq_refl)
      as (v & Hv & Ht & Hor).
    exists v. split; [exact Hv|]. split; [exact Ht|].
    destruct Hor as [->|H]; [now left|right].
    apply fill_missing_truthy; simpl; auto.
  - rewrite (ensure_content_lookup "improvements" "weaknesses"). simpl String.eqb. cbv iota.
    destruct (ensure_content_truthy "weaknesses" weaknesses_content
                (ensure_content "strengths" strengths_content (fill_missing d0)) eq_refl)
      as (v & Hv & Ht & Hor).
    exists v. split; [exact Hv|]. split; [exact Ht|].
    destruct Hor as [->|H]; [now left|right].
    rewrite ensure_content_lookup in H. simpl String.eqb in H. cbv iota in H.
    apply fill_missing_truthy; simpl; auto.
  - destruct (ensure_content_truthy "improvements" improvements_content
                (ensure_content "weaknesses" weaknesses_content
                   (ensure_content "strengths" strengths_content (fill_missing d0))) eq_refl)
      as (v & Hv & Ht & Hor).
    exists v. split; [exact Hv|]. split; [exact Ht|].
    destruct Hor as [->|H]; [now left|right].
    rewrite (ensure_content_lookup "weaknesses" "improvements") in H.
    simpl String.eqb in H. cbv iota in H.
    rewrite (ensure_content_lookup "strengths" "improvements") in H.
    simpl String.eqb in H. cbv iota in H.
    apply fill_missing_truthy; simpl; auto.
Qed.

Lemma mock_comparison_shape (g : Rng) (resume_name jd_title : string) :
  exists d, mock_comparison g resume_name jd_title = PyDict d
            /\ Forall (fun k => dict_has k d = true) expected_keys
            /\ Forall (fun k => exists v, dict_lookup k d = Some v
                                          /\ truthy v = true /\ is_list v = true)
                 content_keys.
Proof.
  unfold mock_comparison.
  destruct (randint 45 95 g) as [n1 g1].
  destruct (randint 40 90 g1) as [n2 g2].
  destruct (randint 60 95 g2) as [n3 g3].
  eexists. split; [reflexivity|]. split.
  - repeat constructor.
  - repeat constructor; eexists; (split; [reflexivity|]); split; reflexivity.
Qed.

(** C6 (as amended).  [analyze_resume_vs_jd] never raises and returns a
    dict that has all twelve expected keys, in which strengths, weaknesses
    and improvements hold truthy values: a non-empty list, or else the
    non-empty value of another type that the LLM's JSON object itself
    carried under that key. *)
Theorem analyze_resume_vs_jd_shape (w : World)
  (resume_content jd_content resume_name jd_title : string) :
  exists d,
    analyze_resume_vs_jd w resume_content jd_content resume_name jd_title = Ok (PyDict d)
    /\ Forall (fun k => dict_has k d = true) expected_keys
    /\ Forall
         (fun k =>
            exists v,
              dict_lookup k d = Some v /\ truthy v = true
              /\ (is_list v = true
                  \/ exists js data,
                       extract_json_str
                         (call_llm w (compare_prompt resume_content jd_content
                                        resume_name jd_title)) = Ok js
                       /\ json_loads js = Some (PyDict data)
                       /\ dict_lookup k data = Some v))
         content_keys.
Proof.
  unfold analyze_resume_vs_jd.
  set (raw := call_llm w (compare_prompt resume_content jd_content resume_name jd_title)).
  destruct (try_parse_comparison raw) as [data|e] eqn:E.
  - destruct (try_parse_comparison_ok raw data E) as (js & d0 & Hjs & Hload & ->).
    exists (ensured d0). split; [reflexivity|]. split.
    + apply Forall_forall. intros k Hk. now apply ensured_has_keys.
    + apply Forall_forall. intros k Hk.
      destruct (ensured_content d0 k Hk) as (v & Hv & Ht & Hor).
      exists v. split; [exact Hv|]. split; [exact Ht|].
      destruct Hor as [Hl|Hd]; [now left|right].
      exists js, d0. auto.
  - destruct (mock_comparison_shape (w_rng w) resume_name jd_title)
      as (d & -> & Hkeys & Hcontent).
    exists d. split; [reflexivity|]. split; [exact Hkeys|].
    eapply Forall_impl; [|exact Hcontent].
    intros k (v & Hv & Ht & Hl). exists v. auto.
Qed.

End Comparison.

(* ------------------------------------------------------------------ *)
(** ** Accounts and password reset *)

Lemma user_by_email_none (db : DB) (e : string) :
  user_by_email db e = None <-> ~ (exists u, In u (users db) /\ email u = e).
Proof.
  unfold user_by_email. split.
  - intros H (u & Hin & He).
    pose proof (find_none _ _ H u Hin) as Hn. simpl in Hn.
    rewrite He, String.eqb_refl in Hn. discriminate.
  - intros H. destruct (find _ (users db)) as [u|] eqn:E; [|reflexivity].
    apply find_some in E. destruct E as [Hin He].
    apply String.eqb_eq in He. elim H. now exists u.
Qed.

Lemma NoDup_snoc {A : Type} (l : list A) (x : A) :
  NoDup l -> ~ In x l -> NoDup (l ++ [x]).
Proof.
  induction l as [|a l IH]; intros Hnd Hx; simpl.
  - constructor; [intros [] | constructor].
  - inversion Hnd as [|? ? Ha Hl]; subst. constructor.
    + rewrite in_app_iff. intros [H|[H|[]]]; [contradiction|].
      apply Hx. now left.
    + apply IH; [exact Hl|]. intros H. apply Hx. now right.
Qed.

Lemma NoDup_map_eq {A B : Type} (f : A -> B) (l : list A) (a b : A) :
  NoDup (map f l) -> In a l -> In b l -> f a = f b -> a = b.
Proof.
  induction l as [|x l IH]; intros Hnd Ha Hb Hf; [contradiction|].
  simpl in Hnd. inversion Hnd as [|? ? Hx Hl]; subst.
  destruct Ha as [->|Ha], Hb as [->|Hb]; try reflexivity.
  - elim Hx. rewrite Hf. now apply in_map.
  - elim Hx. rewrite <- Hf. now apply in_map.
  - now apply IH.
Qed.

Lemma lex_ltb_irrefl (a : list Z) : lex_ltb a a = false.
Proof.
  induction a as [|x a IH]; [reflexivity|].
  simpl. now rewrite Z.ltb_irrefl, Z.eqb_refl, IH.
Qed.

Lemma dt_ltb_irrefl (t : datetime) : dt_ltb t t = false.
Proof. apply lex_ltb_irrefl. Qed.

Lemma user_by_id_some (db : DB) (i : Z) (u : User) :
  user_by_id db i = Some u -> In u (users db) /\ user_id u = i.
Proof.
  unfold user_by_id. intros H. apply find_some in H. destruct H as [Hin He].
  split; [exact Hin | now apply Z.eqb_eq].
Qed.

Lemma user_by_id_write (db : DB) (u u' : User) :
  user_id u' = user_id u ->
  user_by_id db (user_id u) = Some u ->
  user_by_id (write_user u' db) (user_id u) = Some u'.
Proof.
  intros Hid. unfold user_by_id, write_user. simpl. rewrite Hid.
  induction (users db) as [|r l IH]; simpl; [discriminate|].
  destruct (user_id r =? user_id u) eqn:E; simpl.
  - intros _. now rewrite Hid, Z.eqb_refl.
  - rewrite E. exact IH.
Qed.

Section Auth.

Context {L : Lib}.
Variable w : World.

(** C7.  [create_user] raises [ValueError("Email already registered")]
    exactly when the session holds a user with the given email, and then
    changes nothing; otherwise it appends exactly one user, with that
    email and the hash of the given password, and commits.  Emails that
    were pairwise distinct stay pairwise distinct. *)
Theorem create_user_spec (s : Session) (e p : string) :
  ((exists u, In u (users (work s)) /\ email u = e) <->
   fst (create_user w s e p) = Raise (ValueError "Email already registered"))
  /\ ((exists u, In u (users (work s)) /\ email u = e) ->
      snd (create_user w s e p) = s)
  /\ (~ (exists u, In u (users (work s)) /\ email u = e) ->
      exists u,
        create_user w s e p = (Ok u, commit (with_work (add_user u) s))
        /\ email u = e
        /\ hashed_password u = get_password_hash w p
        /\ users (work (snd (create_user w s e p))) = (users (work s) ++ [u])%list
        /\ stored (snd (create_user w s e p)) = work (snd (create_user w s e p)))
  /\ (NoDup (map email (users (work s))) ->
      NoDup (map email (users (work (snd (create_user w s e p)))))).
Proof.
  unfold create_user.
  destruct (user_by_email (work s) e) as [u0|] eqn:E.
  - apply user_by_email_some in E. simpl.
    split; [split; [reflexivity | intros _; now exists u0]|].
    split; [reflexivity|]. split; [|tauto].
    intros H. elim H. now exists u0.
  - pose proof (proj1 (user_by_email_none _ _) E) as Hnone. simpl.
    split; [split; [intros H; contradiction | discriminate]|].
    split; [intros H; contradiction|]. split.
    + intros _. eexists. repeat split.
    + intros Hnd. rewrite map_app. simpl. apply NoDup_snoc; [exact Hnd|].
      intros Hin. apply in_map_iff in Hin. destruct Hin as (u & Hu & Hin).
      apply Hnone. now exists u.
Qed.

(** C10.  In [authenticate_user], when verifying against the stored value
    raises UnknownHashError: if the stored value has no [$] and equals the
    supplied password, the user is authenticated and [hashed_password] is
    overwritten with the hash of that password and committed; if the
    password differs or the stored value contains [$], the result is
    [None] and nothing changes. *)
Theorem authenticate_user_plaintext_fallback (s : Session) (e p : string) (u : User) :
  user_by_email (work s) e = Some u ->
  pwd_verify p (hashed_password u) = Raise UnknownHashError ->
  (contains_char "$" (hashed_password u) = false -> p = hashed_password u ->
   authenticate_user w s e p
   = (Ok (Some (set_hashed_password (get_password_hash w p) u)),
      commit (with_work (write_user (set_hashed_password (get_password_hash w p) u)) s)))
  /\ (p <> hashed_password u \/ contains_char "$" (hashed_password u) = true ->
      authenticate_user w s e p = (Ok None, s)).
Proof.
  intros Hu Hv. unfold authenticate_user, verify_password. rewrite Hu, Hv. split.
  - intros Hd Hp. rewrite Hd. rewrite <- Hp, String.eqb_refl. reflexivity.
  - intros [Hp|Hd].
    + apply String.eqb_neq in Hp. rewrite Hp, andb_false_r. reflexivity.
    + rewrite Hd. reflexivity.
Qed.

Lemma token_valid_spec (now : datetime) (tok : string) (t : PasswordResetToken) :
  token_valid now tok t = true <->
  token t = tok /\ used t = false /\ dt_ltb now (expires_at t) = true.
Proof.
  unfold token_valid. rewrite !andb_true_iff, String.eqb_eq, negb_true_iff. tauto.
Qed.

(** C8.  With token strings unique, [verify_password_reset_token] returns
    a user exactly when a row with that token string is unused and expires
    strictly after now, and the user is the one the row refers to.  When
    it returns nothing, [reset_user_password] returns False and changes
    nothing; when it returns a user, [reset_user_password] returns True,
    that user's [hashed_password] is the hash of the new password, every
    row with the token string is marked used, and all is committed. *)
Theorem password_reset_spec (s : Session) (tok new_password : string) :
  NoDup (map token (tokens (work s))) ->
  (forall u,
     verify_password_reset_token w s tok = Some u <->
     exists t, In t (tokens (work s))
               /\ token t = tok /\ used t = false
               /\ dt_ltb (w_now w) (expires_at t) = true
               /\ user_by_id (work s) (token_user_id t) = Some u)
  /\ (forall t, expires_at t = w_now w -> token_valid (w_now w) tok t = false)
  /\ (verify_password_reset_token w s tok = None ->
      reset_user_password w s tok new_password = (false, s))
  /\ (forall u,
        verify_password_reset_token w s tok = Some u ->
        fst (reset_user_password w s tok new_password) = true
        /\ user_by_id (work (snd (reset_user_password w s tok new_password))) (user_id u)
           = Some (set_hashed_password (get_password_hash w new_password) u)
        /\ (forall t,
              In t (tokens (work (snd (reset_user_password w s tok new_password)))) ->
              token t = tok -> used t = true)
        /\ stored (snd (reset_user_password w s tok new_password))
           = work (snd (reset_user_password w s tok new_password))).
Proof.
  intros Hnd. split; [|split; [|split]].
  - intros u. unfold verify_password_reset_token. split.
    + destruct (find _ (tokens (work s))) as [t|] eqn:E; [|discriminate].
      intros Hu. apply find_some in E. destruct E as [Hin Hv].
      apply token_valid_spec in Hv. exists t. tauto.
    + intros (t & Hin & Ht & Hused & Hexp & Hu).
      destruct (find _ (tokens (work s))) as [t'|] eqn:E.
      * apply find_some in E. destruct E as [Hin' Hv].
        apply token_valid_spec in Hv. destruct Hv as (Ht' & _).
        assert (t' = t) as ->; [|exact Hu].
        apply (NoDup_map_eq token (tokens (work s))); congruence.
      * pose proof (find_none _ _ E t Hin) as Hn.
        assert (token_valid (w_now w) tok t = true) by (apply token_valid_spec; tauto).
        congruence.
  - intros t Ht. unfold token_valid. rewrite Ht, dt_ltb_irrefl. apply andb_false_r.
  - intros Hv. unfold reset_user_password. now rewrite Hv.
  - intros u Hv. unfold reset_user_password. rewrite Hv.
    unfold verify_password_reset_token in Hv.
    destruct (find (token_valid (w_now w) tok) (tokens (work s))) as [t|] eqn:E;
      [|discriminate].
    apply find_some in E. destruct E as [Hin Hvalid].
    apply token_valid_spec in Hvalid. destruct Hvalid as (Ht & Hused & _).
    pose proof (user_by_id_some _ _ _ Hv) as [_ Hid].
    unfold use_password_reset_token, setattr_user. cbn [fst snd].
    change (tokens (work (with_work (write_user ?x) s))) with (tokens (work s)).
    destruct (find (fun t0 => String.eqb (token t0) tok && negb (used t0)) (tokens (work s)))
      as [t'|] eqn:E'.
    2:{ pose proof (find_none _ _ E' t Hin) as Hn. simpl in Hn.
        rewrite Ht, String.eqb_refl, Hused in Hn. discriminate. }
    apply find_some in E'. destruct E' as [Hin' Ht'].
    apply andb_true_iff in Ht'. destruct Ht' as [Ht' _]. apply String.eqb_eq in Ht'.
    cbn [fst snd]. split; [reflexivity|]. split; [|split; [|reflexivity]].
    + cbn. rewrite <- Hid in Hv.
      apply (user_by_id_write (work s) u
               (set_hashed_password (get_password_hash w new_password) u) eq_refl Hv).
    + cbn. intros r Hr Hrt. apply in_map_iff in Hr. destruct Hr as (r0 & <- & Hr0).
      destruct (token_id r0 =? token_id t') eqn:Eid; [reflexivity|].
      assert (r0 = t') as ->.
      { apply (NoDup_map_eq token (tokens (work s))); congruence. }
      rewrite Z.eqb_refl in Eid. discriminate.
Qed.

End Auth.

(* ------------------------------------------------------------------ *)
(** ** The statements on the concrete setting *)

Ltac quota_arith :=
  unfold within_quota, MAX_MONTHLY, count_or_0 in *; simpl in *; lia.

Lemma example_emails_distinct : NoDup (map email (users example_db)).
Proof.
  repeat constructor; simpl; intuition discriminate.
Defined.

Lemma example_tokens_distinct : NoDup (map token (tokens example_db)).
Proof.
  repeat constructor; simpl; intuition discriminate.
Defined.

(** Ann has used her ten scans this month: her upload is refused and the
    database stays as it is.  Bob's accepted upload keeps every count
    within the quota. *)
Lemma upload_quota_enforced_witness :
  api_upload_resume (L := example_lib) default_settings (example_world HttpTimeout)
    (bearer "ann@example.com") pdf_upload example_db
  = (quota_exceeded, example_db)
  /\ Forall (within_quota default_settings)
       (users (snd (api_upload_resume (L := example_lib) default_settings
                      (example_world (HttpOk score_json))
                      (bearer "bob@example.com") pdf_upload example_db))).
Proof.
  split.
  - apply (proj1 (@upload_quota_enforced example_lib default_settings
                    (example_world HttpTimeout) (bearer "ann@example.com")
                    pdf_upload example_db) ann).
    + reflexivity.
    + discriminate.
    + exists (at_noon 2026 11 2). repeat split.
    + quota_arith.
  - apply (proj2 (@upload_quota_enforced example_lib default_settings
                    (example_world (HttpOk score_json)) (bearer "bob@example.com")
                    pdf_upload example_db)).
    + quota_arith.
    + repeat constructor; quota_arith.
Defined.

(** C1 as stated fails for the unlimited user: with ten scans counted this
    month and a limit of ten, the upload is accepted and a scan row is
    created. *)
Lemma upload_unlimited_user_counterexample :
  get_current_user_from_request (L := example_lib)
    (bearer "nadeemali001@gmail.com") (open_session example_db) = Some nadeem
  /\ stamp_current (w_today (example_world HttpTimeout)) (last_quota_reset nadeem)
  /\ MAX_MONTHLY default_settings <= count_or_0 nadeem
  /\ status_code
       (fst (api_upload_resume (L := example_lib) default_settings
               (example_world HttpTimeout) (bearer "nadeemali001@gmail.com")
               pdf_upload example_db)) = 200
  /\ List.length
       (scans (snd (api_upload_resume (L := example_lib) default_settings
                      (example_world HttpTimeout) (bearer "nadeemali001@gmail.com")
                      pdf_upload example_db))) = 1%nat
  /\ List.length (scans example_db) = 0%nat.
Proof.
  split; [reflexivity|]. split.
  { exists (at_noon 2026 11 1). repeat split. }
  split; [quota_arith|]. repeat split.
Qed.

(** Bob's stamp is October's: the check resets him and answers ten. *)
Lemma check_and_reset_quota_spec_witness :
  let w := example_world HttpTimeout in
  let bob' := set_last_quota_reset (StampAt (w_now w)) (set_scan_count (Some 0) bob) in
  check_and_reset_quota default_settings w (open_session example_db) bob
  = (10, (bob', open_session (write_user bob' example_db)))
  /\ scan_count bob' = Some 0
  /\ last_quota_reset bob' = StampAt (at_noon 2026 11 3)
  /\ 0 <= 10 <= MAX_MONTHLY default_settings.
Proof.
  intros w bob'.
  assert (Hne : email bob <> UNLIMITED_EMAIL) by discriminate.
  assert (Hrun : check_and_reset_quota default_settings w (open_session example_db) bob
                 = (10, (bob', open_session (write_user bob' example_db))))
    by reflexivity.
  destruct (check_and_reset_quota_spec default_settings w (open_session example_db)
              bob 10 bob' (open_session (write_user bob' example_db)) Hne Hrun)
    as (Hreset & _ & _ & Hlow & Hhigh).
  destruct Hreset as (Hcount & Hstamp & _).
  { simpl. left. discriminate. }
  split; [exact Hrun|]. split; [exact Hcount|]. split; [exact Hstamp|].
  split; [exact Hlow|]. apply Hhigh; quota_arith.
Defined.

(** C2 as stated fails for the unlimited user: the answer is 999999, which
    is neither [max(0, MAX_MONTHLY - scan_count)] nor at most
    [MAX_MONTHLY]. *)
Lemma check_unlimited_counterexample :
  fst (check_and_reset_quota default_settings (example_world HttpTimeout)
         (open_session example_db) nadeem) = 999999
  /\ 999999 <> Z.max 0 (MAX_MONTHLY default_settings - count_or_0 nadeem)
  /\ ~ (0 <= 999999 <= MAX_MONTHLY default_settings).
Proof.
  split; [reflexivity|]. split; [discriminate|]. quota_arith.
Qed.

(** Bob sends [notes.txt]: a 400, and no scan row. *)
Lemma allowed_file_gate_witness :
  allowed_file (up_filename txt_upload) = false
  /\ scans (snd (api_upload_resume (L := example_lib) default_settings
                   (example_world HttpTimeout) (bearer "bob@example.com")
                   txt_upload example_db)) = scans example_db
  /\ status_code (fst (api_upload_resume (L := example_lib) default_settings
                         (example_world HttpTimeout) (bearer "bob@example.com")
                         txt_upload example_db)) = 400.
Proof.
  assert (Hf : allowed_file (up_filename txt_upload) = false) by reflexivity.
  destruct (proj2 (@allowed_file_gate example_lib default_settings
                     (example_world HttpTimeout) (bearer "bob@example.com")
                     txt_upload example_db) Hf) as [Hscans Hstatus].
  split; [exact Hf|]. split; [exact Hscans|].
  apply Hstatus. discriminate.
Defined.

(** C3 as stated fails without authentication: the file is refused with a
    401, not a 400. *)
Lemma upload_anonymous_counterexample :
  allowed_file (up_filename txt_upload) = false
  /\ status_code (fst (api_upload_resume (L := example_lib) default_settings
                         (example_world HttpTimeout) anonymous txt_upload example_db))
     = 401
  /\ status_code (fst (api_upload_resume (L := example_lib) default_settings
                         (example_world HttpTimeout) anonymous txt_upload example_db))
     <> 400.
Proof.
  split; [reflexivity|]. split; [reflexivity | discriminate].
Qed.

(** The request to the LLM times out: the mock analysis, with score 48. *)
Lemma process_resume_file_total_witness :
  process_resume_file (L := example_lib) (example_world HttpTimeout) "uploads/cv.pdf"
  = Ok (mock_analysis (w_rng (example_world HttpTimeout)))
  /\ py_get (mock_analysis (w_rng (example_world HttpTimeout))) "score" PyNone
     = Ok (PyInt 48).
Proof.
  destruct (proj2 (@process_resume_file_total example_lib (example_world HttpTimeout)
                     "uploads/cv.pdf")) as [Hmock _].
  - left. intros r. discriminate.
  - split; [exact Hmock | reflexivity].
Defined.

(** The candidates of the fenced reply: the object of the block, found
    under the upper-case tag and across the line breaks, and the text from
    the first to the last brace; removing the trailing comma of the first
    gives strict JSON. *)
Example fenced_reply_candidates :
  candidates_spec fenced_reply
  = [ "{" ++ q "score" ++ ": 72, }";
      "{" ++ q "score" ++ ": 72, }" ++ nl ++ "``` Good luck {x}" ]
  /\ without_trailing_commas ("{" ++ q "score" ++ ": 72, }") = score_json.
Proof. split; reflexivity. Qed.

Example quoted_reply_candidates :
  candidates_spec quoted_reply = [ "{'score': 72,}" ]
  /\ without_trailing_commas "{'score': 72,}" = "{'score': 72}"
  /\ replace_char "'" (ascii_of_nat 34) "{'score': 72}" = score_json.
Proof. repeat split. Qed.

(** A text that is strict JSON is returned as parsed; the object of a fenced
    block parses once its trailing comma is removed; an object in single
    quotes parses once the comma is removed and the quotes are replaced, or
    as a Python literal where no JSON reading succeeds; a text none of whose
    layers parses gives [None]. *)
Lemma parse_json_or_fallback_layers_witness :
  _parse_json_or_fallback (L := example_lib) score_json = mkdict [("score", PyInt 72)]
  /\ _parse_json_or_fallback (L := example_lib) fenced_reply
     = mkdict [("score", PyInt 72)]
  /\ _parse_json_or_fallback (L := example_lib) quoted_reply
     = mkdict [("score", PyInt 72)]
  /\ _parse_json_or_fallback (L := literal_lib) quoted_reply
     = mkdict [("score", PyInt 72)]
  /\ _parse_json_or_fallback (L := example_lib) "see {oops} above" = PyNone.
Proof.
  split; [|split; [|split; [|split]]].
  - apply (proj1 (proj2 (proj2 (@parse_json_or_fallback_layers example_lib score_json)))).
    + discriminate.
    + reflexivity.
  - etransitivity;
      [apply (proj1 (@parse_json_or_fallback_layers example_lib fenced_reply))|].
    vm_compute. reflexivity.
  - etransitivity;
      [apply (proj1 (@parse_json_or_fallback_layers example_lib quoted_reply))|].
    vm_compute. reflexivity.
  - etransitivity;
      [apply (proj1 (@parse_json_or_fallback_layers literal_lib quoted_reply))|].
    vm_compute. reflexivity.
  - apply (proj2 (proj2 (proj2 (@parse_json_or_fallback_layers example_lib
                                  "see {oops} above")))).
    + reflexivity.
    + intros c Hc. vm_compute in Hc. destruct Hc as [<-|[]]. reflexivity.
Defined.

(** C6 as stated fails when the LLM answers [{"strengths": "solid"}]: the
    result keeps the string under [strengths], which is not a list. *)
Lemma analyze_strengths_counterexample :
  exists d,
    analyze_resume_vs_jd (L := example_lib) (example_world (HttpOk solid_json))
      "resume text" "job text" "cv.pdf" "Engineer" = Ok (PyDict d)
    /\ dict_lookup "strengths" d = Some (PyStr "solid")
    /\ is_list (PyStr "solid") = false.
Proof.
  eexists. split; [reflexivity|]. split; reflexivity.
Qed.

(** Registering Carol appends her; registering Ann again raises; emails
    stay distinct. *)
Lemma create_user_spec_witness :
  fst (create_user (L := example_lib) (example_world HttpTimeout)
         (open_session example_db) "ann@example.com" "pw")
  = Raise (ValueError "Email already registered")
  /\ (exists u,
        create_user (L := example_lib) (example_world HttpTimeout)
          (open_session example_db) "carol@example.com" "pw"
        = (Ok u, commit (with_work (add_user u) (open_session example_db)))
        /\ email u = "carol@example.com")
  /\ NoDup (map email
              (users (work (snd (create_user (L := example_lib)
                                   (example_world HttpTimeout)
                                   (open_session example_db)
                                   "carol@example.com" "pw"))))).
Proof.
  split; [|split].
  - apply (proj1 (@create_user_spec example_lib (example_world HttpTimeout)
                    (open_session example_db) "ann@example.com" "pw")).
    exists ann. split; [simpl; tauto | reflexivity].
  - destruct (proj1 (proj2 (proj2 (@create_user_spec example_lib
                                     (example_world HttpTimeout)
                                     (open_session example_db)
                                     "carol@example.com" "pw"))))
      as (u & Hrun & Hemail & _).
    + intros (u & Hin & He). simpl in Hin.
      destruct Hin as [<-|[<-|[<-|[]]]]; discriminate.
    + exists u. split; [exact Hrun | exact Hemail].
  - apply (proj2 (proj2 (proj2 (@create_user_spec example_lib
                                  (example_world HttpTimeout)
                                  (open_session example_db)
                                  "carol@example.com" "pw")))).
    exact example_emails_distinct.
Defined.

(** Bob's token is live: the reset stores the new hash and marks the token
    used.  Ann's token expires at this very moment: nothing happens. *)
Lemma password_reset_spec_witness :
  fst (reset_user_password (L := example_lib) (example_world HttpTimeout)
         (open_session example_db) "tok-bob" "correct horse") = true
  /\ user_by_id
       (work (snd (reset_user_password (L := example_lib) (example_world HttpTimeout)
                     (open_session example_db) "tok-bob" "correct horse")))
       (user_id bob)
     = Some (set_hashed_password "$pbkdf2-sha256$42$correct horse" bob)
  /\ reset_user_password (L := example_lib) (example_world HttpTimeout)
       (open_session example_db) "tok-ann" "correct horse"
     = (false, open_session example_db).
Proof.
  destruct (@password_reset_spec example_lib (example_world HttpTimeout)
              (open_session example_db) "tok-bob" "correct horse"
              example_tokens_distinct) as (_ & _ & _ & Hok).
  destruct (Hok bob eq_refl) as (Htrue & Hhash & _).
  destruct (@password_reset_spec example_lib (example_world HttpTimeout)
              (open_session example_db) "tok-ann" "correct horse"
              example_tokens_distinct) as (_ & _ & Hfail & _).
  split; [exact Htrue|]. split; [exact Hhash|].
  apply Hfail. reflexivity.
Defined.

(** The unlimited user at the limit: the check answers 999999, consuming
    changes nothing, and the upload is not refused for quota. *)
Lemma unlimited_user_bypasses_quota_witness :
  check_and_reset_quota default_settings (example_world HttpTimeout)
    (open_session example_db) nadeem
  = (999999, (nadeem, open_session example_db))
  /\ consume_quota (open_session example_db) nadeem = (nadeem, open_session example_db)
  /\ fst (api_upload_resume (L := example_lib) default_settings
            (example_world HttpTimeout) (bearer "nadeemali001@gmail.com")
            pdf_upload example_db) <> quota_exceeded
  /\ users (snd (api_upload_resume (L := example_lib) default_settings
                   (example_world HttpTimeout) (bearer "nadeemali001@gmail.com")
                   pdf_upload example_db)) = users example_db.
Proof.
  destruct (@unlimited_user_bypasses_quota example_lib default_settings
              (example_world HttpTimeout) (bearer "nadeemali001@gmail.com")
              pdf_upload nadeem eq_refl) as (Hcheck & _ & Hconsume & Hupload).
  destruct (Hupload example_db eq_refl) as [Hresp Husers].
  split; [apply Hcheck|]. split; [apply Hconsume|]. split; assumption.
Defined.

(** Bob's stored password is the plain text [hunter2]: logging in with it
    succeeds and stores a hash; any other password fails. *)
Lemma authenticate_user_plaintext_fallback_witness :
  authenticate_user (L := example_lib) (example_world HttpTimeout)
    (open_session example_db) "bob@example.com" "hunter2"
  = (Ok (Some (set_hashed_password "$pbkdf2-sha256$42$hunter2" bob)),
     open_session (write_user (set_hashed_password "$pbkdf2-sha256$42$hunter2" bob)
                     example_db))
  /\ authenticate_user (L := example_lib) (example_world HttpTimeout)
       (open_session example_db) "bob@example.com" "hunter3"
     = (Ok None, open_session example_db).
Proof.
  split.
  - apply (proj1 (@authenticate_user_plaintext_fallback example_lib
                    (example_world HttpTimeout) (open_session example_db)
                    "bob@example.com" "hunter2" bob eq_refl eq_refl));
      reflexivity.
  - apply (proj2 (@authenticate_user_plaintext_fallback example_lib
                    (example_world HttpTimeout) (open_session example_db)
                    "bob@example.com" "hunter3" bob eq_refl eq_refl)).
    left. discriminate.
Defined.

(* ------------------------------------------------------------------ *)
(** ** Further properties: the quota over several calls *)

Lemma check_leaves_current (cfg : Settings) (w : World) (s : Session) (user : User)
  (remaining : Z) (user' : User) (s' : Session) :
  clock_agrees w ->
  email user <> UNLIMITED_EMAIL ->
  check_and_reset_quota cfg w s user = (remaining, (user', s')) ->
  stamp_current (w_today w) (last_quota_reset user') /\ email user' = email user.
Proof.
  intros [Hm Hy] Hne Hrun.
  destruct (stamp_outdated_dec (w_today w) (last_quota_reset user)) as [Ho|Hc].
  - rewrite (check_outdated cfg w s user Hne Ho) in Hrun.
    injection Hrun as _ <- _. split; [|reflexivity].
    exists (w_now w). simpl. auto.
  - rewrite (check_current cfg w s user Hne Hc) in Hrun.
    injection Hrun as _ <- _. auto.
Qed.

(** X1.  Under a clock whose UTC month is the local month, a positive
    answer of [check_and_reset_quota] followed by [consume_quota] makes the
    next check answer exactly one less, for every user but the unlimited
    one; that check changes nothing any more. *)
Theorem quota_counts_down (cfg : Settings) (w : World) (s : Session) (user : User)
  (remaining : Z) (u1 : User) (s1 : Session) :
  clock_agrees w ->
  email user <> UNLIMITED_EMAIL ->
  check_and_reset_quota cfg w s user = (remaining, (u1, s1)) ->
  0 < remaining ->
  check_and_reset_quota cfg w (snd (consume_quota s1 u1)) (fst (consume_quota s1 u1))
  = (remaining - 1, consume_quota s1 u1).
Proof.
  intros Hclock Hne Hrun Hpos.
  destruct (check_leaves_current cfg w s user remaining u1 s1 Hclock Hne Hrun)
    as [Hcur He1].
  pose proof (check_answer cfg w s user remaining u1 s1 Hne Hrun) as Hrem.
  assert (Hne1 : email u1 <> UNLIMITED_EMAIL) by congruence.
  unfold consume_quota. apply String.eqb_neq in Hne1. rewrite Hne1.
  apply String.eqb_neq in Hne1.
  unfold commit_user, setattr_user. cbn [fst snd].
  rewrite check_current.
  - f_equal. unfold count_or_0 at 1. simpl. lia.
  - exact Hne1.
  - exact Hcur.
Qed.

(** X2.  Under a clock whose UTC month is the local month,
    [check_and_reset_quota] is idempotent: called again on what it left, it
    gives the same answer and changes nothing. *)
Theorem check_and_reset_quota_idempotent
  (cfg : Settings) (w : World) (s : Session) (user : User)
  (remaining : Z) (u1 : User) (s1 : Session) :
  clock_agrees w ->
  check_and_reset_quota cfg w s user = (remaining, (u1, s1)) ->
  check_and_reset_quota cfg w s1 u1 = (remaining, (u1, s1)).
Proof.
  intros Hclock Hrun.
  destruct (String.eqb (email user) UNLIMITED_EMAIL) eqn:Ee.
  - apply String.eqb_eq in Ee. rewrite (check_unlimited _ _ _ _ Ee) in Hrun.
    injection Hrun as <- <- <-. now apply check_unlimited.
  - apply String.eqb_neq in Ee.
    destruct (check_leaves_current cfg w s user remaining u1 s1 Hclock Ee Hrun)
      as [Hcur He1].
    rewrite (check_answer cfg w s user remaining u1 s1 Ee Hrun).
    apply check_current; congruence.
Qed.

(** X3.  When the UTC clock and the local date disagree on the month or the
    year, the stamp a reset writes is outdated at once: after a reset and a
    consumed scan the next check resets again and answers the full
    [MAX_MONTHLY], so nothing is counted while the clocks disagree. *)
Theorem quota_refilled_while_clocks_disagree
  (cfg : Settings) (w : World) (s : Session) (user : User)
  (remaining : Z) (u1 : User) (s1 : Session) :
  dt_month (w_now w) <> d_month (w_today w) \/ dt_year (w_now w) <> d_year (w_today w) ->
  email user <> UNLIMITED_EMAIL ->
  stamp_outdated (w_today w) (last_quota_reset user) ->
  check_and_reset_quota cfg w s user = (remaining, (u1, s1)) ->
  fst (check_and_reset_quota cfg w (snd (consume_quota s1 u1)) (fst (consume_quota s1 u1)))
  = Z.max 0 (MAX_MONTHLY cfg)
  /\ scan_count (fst (snd (check_and_reset_quota cfg w (snd (consume_quota s1 u1))
                             (fst (consume_quota s1 u1))))) = Some 0.
Proof.
  intros Hskew Hne Ho Hrun.
  rewrite (check_outdated cfg w s user Hne Ho) in Hrun.
  injection Hrun as _ <- <-.
  unfold consume_quota. cbn [email set_last_quota_reset set_scan_count].
  apply String.eqb_neq in Hne. rewrite Hne. apply String.eqb_neq in Hne.
  unfold commit_user, setattr_user. cbn [fst snd].
  rewrite check_outdated.
  - cbn [fst snd]. split; [f_equal; lia | reflexivity].
  - exact Hne.
  - simpl. exact Hskew.
Qed.

(* ------------------------------------------------------------------ *)
(** ** Further properties: what an upload leaves behind *)

Lemma fold_max_ge (ids : list Z) (i : Z) : In i ids -> i <= fold_right Z.max 0 ids.
Proof.
  induction ids as [|x ids IH]; intros Hin; [contradiction|].
  simpl. destruct Hin as [->|Hin]; [lia|]. specialize (IH Hin). lia.
Qed.

Lemma next_id_fresh (ids : list Z) : ~ In (next_id ids) ids.
Proof.
  intros Hin. apply fold_max_ge in Hin. unfold next_id in Hin. lia.
Qed.

Lemma check_keeps_id (cfg : Settings) (w : World) (s : Session) (user : User)
  (remaining : Z) (user' : User) (s' : Session) :
  check_and_reset_quota cfg w s user = (remaining, (user', s')) ->
  user_id user' = user_id user /\ email user' = email user
  /\ hashed_password user' = hashed_password user.
Proof.
  intros Hrun.
  destruct (String.eqb (email user) UNLIMITED_EMAIL) eqn:Ee.
  - apply String.eqb_eq in Ee. rewrite (check_unlimited _ _ _ _ Ee) in Hrun.
    injection Hrun as _ <- _. auto.
  - apply String.eqb_neq in Ee.
    destruct (stamp_outdated_dec (w_today w) (last_quota_reset user)) as [Ho|Hc].
    + rewrite (check_outdated cfg w s user Ee Ho) in Hrun.
      injection Hrun as _ <- _. auto.
    + rewrite (check_current cfg w s user Ee Hc) in Hrun.
      injection Hrun as _ <- _. auto.
Qed.

Section UploadOutcome.

Context {L : Lib}.
Variables (cfg : Settings) (w : World) (request : Request) (file : UploadFile).

(** The accepted path with the row it adds. *)
Lemma upload_accepted_row (s0 s1 : Session) (user user' : User) (remaining : Z) :
  get_current_user_from_request request s0 = Some user ->
  check_and_reset_quota cfg w s0 user = (remaining, (user', s1)) ->
  0 < remaining ->
  allowed_file (up_filename file) = true ->
  (exists e, api_upload_resume_body cfg w request file s0 = (Raise e, s1))
  \/ (exists name size scan,
        up_filename file = Some name
        /\ w_save w (stored_path cfg (user_id user') (w_time w) name) = Ok size
        /\ api_upload_resume_body cfg w request file s0
           = (Ok (upload_ok scan),
              commit (snd (consume_quota (with_work (add_scan scan) s1) user')))
        /\ scan_id scan = next_id (map scan_id (scans (work s1)))
        /\ scan_user_id scan = user_id user'
        /\ filename scan = stored_name (user_id user') (w_time w) name
        /\ original_filename scan = name
        /\ file_size scan = size).
Proof.
  intros Hu Hc Hr Hf. unfold api_upload_resume_body. rewrite Hu, Hc, Hf.
  apply Z.leb_gt in Hr. rewrite Hr. simpl negb. cbv iota.
  unfold bindM, lift, modify, ret.
  destruct (up_filename file) as [name|] eqn:Hname; [|left; eexists; reflexivity].
  fold (stored_name (user_id user') (w_time w) name).
  fold (stored_path cfg (user_id user') (w_time w) name).
  destruct (w_save w (stored_path cfg (user_id user') (w_time w) name)) as [size|]
    eqn:Hsave; [|left; eexists; reflexivity].
  repeat match goal with
         | |- context [match ?x with Ok _ => _ | Raise _ => _ end] =>
             destruct x eqn:?; try (left; eexists; reflexivity)
         end.
  right. exists name, size. eexists.
  split; [reflexivity|]. split; [exact Hsave|].
  split; [unfold upload_ok; reflexivity|].
  repeat split.
Qed.

(** Every run of the handler is a refusal that adds nothing, or an
    accepted upload with its row. *)
Lemma upload_outcome (db : DB) :
  (status_code (fst (api_upload_resume cfg w request file db)) <> 200
   /\ scans (snd (api_upload_resume cfg w request file db)) = scans db
   /\ tokens (snd (api_upload_resume cfg w request file db)) = tokens db
   /\ (users (snd (api_upload_resume cfg w request file db)) = users db
       \/ exists u', count_or_0 u' = 0
                     /\ users (snd (api_upload_resume cfg w request file db))
                        = users (write_user u' db)))
  \/ (exists user u1 s1 remaining name size scan,
        get_current_user_from_request request (open_session db) = Some user
        /\ check_and_reset_quota cfg w (open_session db) user = (remaining, (u1, s1))
        /\ 0 < remaining
        /\ up_filename file = Some name
        /\ allowed_file (Some name) = true
        /\ w_save w (stored_path cfg (user_id user) (w_time w) name) = Ok size
        /\ api_upload_resume cfg w request file db
           = (upload_ok scan,
              work (snd (consume_quota (with_work (add_scan scan) s1) u1)))
        /\ scan_id scan = next_id (map scan_id (scans db))
        /\ scan_user_id scan = user_id user
        /\ filename scan = stored_name (user_id user) (w_time w) name
        /\ original_filename scan = name
        /\ file_size scan = size).
Proof.
  unfold api_upload_resume.
  destruct (get_current_user_from_request request (open_session db)) as [user|] eqn:Hu.
  2:{ left. rewrite (upload_unauthenticated cfg w request file _ Hu). simpl.
      repeat split; try discriminate. now left. }
  destruct (check_and_reset_quota cfg w (open_session db) user)
    as [remaining [u1 s1]] eqn:Hc.
  assert (Hs1 : scans (stored s1) = scans db /\ tokens (stored s1) = tokens db
                /\ scans (work s1) = scans db
                /\ (users (stored s1) = users db
                    \/ exists u', count_or_0 u' = 0
                                  /\ users (stored s1) = users (write_user u' db))).
  { destruct (check_open_session cfg w db user remaining u1 s1 Hc)
      as [[_ ->] | (H0 & _ & ->)]; simpl; repeat split; auto.
    right. now exists u1. }
  destruct Hs1 as (Hscans & Htokens & Hwork & Husers).
  destruct (Z.le_gt_cases remaining 0) as [Hr|Hr].
  { left. rewrite (upload_over_quota cfg w request file _ _ _ _ _ Hu Hc Hr). simpl.
    repeat split; auto. discriminate. }
  destruct (allowed_file (up_filename file)) eqn:Hf.
  2:{ left. rewrite (upload_bad_file cfg w request file _ _ _ _ _ Hu Hc Hr Hf). simpl.
      repeat split; auto. discriminate. }
  destruct (upload_accepted_row _ _ _ _ _ Hu Hc Hr Hf)
    as [[e ->] | (name & size & scan & Hname & Hsave & -> & Hid & Huid & Hfn & Hon & Hsz)].
  { left. simpl. repeat split; auto. discriminate. }
  right. destruct (check_keeps_id cfg w _ user remaining u1 s1 Hc) as (Hid1 & _ & _).
  exists user, u1, s1, remaining, name, size, scan.
  rewrite Hid1 in *. rewrite Hwork in Hid. rewrite Hname in Hf.
  repeat split; auto.
Qed.


(** X5.  An upload answered with 200 comes from an authenticated user with
    an allowed file name and appends exactly one scan row: its key is new,
    it belongs to the caller, it keeps the original name and is stored
    under [<user id>_<time>_<sanitized name>]; the response reports that
    row.  The caller's count goes up by one, except for the unlimited
    user, whose row stays as it is. *)
Theorem upload_accepted_adds_one_scan (db : DB) :
  status_code (fst (api_upload_resume cfg w request file db)) = 200 ->
  exists user name scan,
    get_current_user_from_request request (open_session db) = Some user
    /\ up_filename file = Some name
    /\ allowed_file (Some name) = true
    /\ fst (api_upload_resume cfg w request file db) = upload_ok scan
    /\ scans (snd (api_upload_resume cfg w request file db)) = (scans db ++ [scan])%list
    /\ ~ In (scan_id scan) (map scan_id (scans db))
    /\ scan_user_id scan = user_id user
    /\ original_filename scan = name
    /\ filename scan = stored_name (user_id user) (w_time w) name
    /\ (email user = UNLIMITED_EMAIL ->
        users (snd (api_upload_resume cfg w request file db)) = users db)
    /\ (email user <> UNLIMITED_EMAIL ->
        let u1 := fst (snd (check_and_reset_quota cfg w (open_session db) user)) in
        users (snd (api_upload_resume cfg w request file db))
        = users (write_user (set_scan_count (Some (count_or_0 u1 + 1)) u1) db)).
Proof.
  intros Hstatus.
  destruct (upload_outcome db) as [(Hno & _)|H]; [contradiction|].
  destruct H as (user & u1 & s1 & remaining & name & size & scan & Hu & Hc & Hr & Hname
                 & Hf & Hsave & Hres & Hid & Huid & Hfn & Hon & Hsz).
  exists user, name, scan. rewrite Hres, Hc. cbn [fst snd].
  destruct (check_keeps_id cfg w _ user remaining u1 s1 Hc) as (Hid1 & He1 & _).
  assert (Hscans1 : scans (work s1) = scans db).
  { destruct (check_open_session cfg w db user remaining u1 s1 Hc)
      as [[_ ->] | (_ & _ & ->)]; reflexivity. }
  repeat split; auto.
  - rewrite consume_quota_scans. simpl. now rewrite Hscans1.
  - rewrite Hid. apply next_id_fresh.
  - intros He. unfold consume_quota. rewrite He1, He, String.eqb_refl. simpl.
    rewrite (check_unlimited cfg w _ user He) in Hc. now injection Hc as _ _ <-.
  - intros Hne. unfold consume_quota. rewrite He1.
    apply String.eqb_neq in Hne. rewrite Hne.
    unfold commit_user, setattr_user, commit, with_work. cbn [fst snd work].
    destruct (check_open_session cfg w db user remaining u1 s1 Hc)
      as [[_ ->] | (_ & _ & ->)]; cbn [open_session work]; [reflexivity|].
    change (users (write_user (set_scan_count (Some (count_or_0 u1 + 1)) u1)
                     (write_user u1 db))
            = users (write_user (set_scan_count (Some (count_or_0 u1 + 1)) u1) db)).
    now rewrite write_user_twice.
Qed.


End UploadOutcome.

(* ------------------------------------------------------------------ *)
(** ** Further properties: file names *)

Ltac by_cases_on_char c :=
  destruct c as [[] [] [] [] [] [] [] []]; try reflexivity; try discriminate.

Lemma sanitize_char_safe (c : ascii) : safe_char (sanitize_char c) = true.
Proof. by_cases_on_char c. Qed.

Lemma sanitize_char_keeps_safe (c : ascii) :
  safe_char c = true -> sanitize_char c = c.
Proof. by_cases_on_char c. Qed.

Lemma sanitize_char_keeps_plain (c : ascii) :
  plain_char (lower_char c) = true -> sanitize_char c = c.
Proof. by_cases_on_char c. Qed.

Lemma lower_char_idem (c : ascii) : lower_char (lower_char c) = lower_char c.
Proof. by_cases_on_char c. Qed.

Lemma safe_char_not_slash (c : ascii) : safe_char c = true -> Ascii.eqb "/" c = false.
Proof. by_cases_on_char c. Qed.

Lemma lower_idem (s : string) : lower (lower s) = lower s.
Proof.
  induction s as [|c s IH]; simpl; [reflexivity|]. now rewrite lower_char_idem, IH.
Qed.

Lemma sanitize_all_safe (s : string) : all_chars safe_char (sanitize s) = true.
Proof.
  induction s as [|c s IH]; simpl; [reflexivity|]. now rewrite sanitize_char_safe, IH.
Qed.

Lemma all_safe_no_slash (s : string) :
  all_chars safe_char s = true -> contains_char "/" s = false.
Proof.
  induction s as [|c s IH]; [reflexivity|].
  intros H. cbn [all_chars] in H. apply andb_true_iff in H. destruct H as [Hc Hs].
  change (Ascii.eqb "/" c || contains_char "/" s = false).
  now rewrite (safe_char_not_slash c Hc), IH.
Qed.

Lemma sanitize_keeps_plain (f ext : string) :
  all_chars plain_char ext = true -> lower f = ext -> sanitize f = f.
Proof.
  revert ext. induction f as [|c f IH]; intros ext Hext Hl; [reflexivity|].
  simpl in Hl. subst ext. simpl in Hext.
  apply andb_true_iff in Hext. destruct Hext as [Hc Hf].
  simpl. rewrite (sanitize_char_keeps_plain c Hc). f_equal.
  now apply (IH (lower f)).
Qed.

Lemma sanitize_keeps_ending (f p ext : string) :
  all_chars plain_char ext = true ->
  lower f = p ++ ext -> ends_with (lower (sanitize f)) ext.
Proof.
  intros Hext. revert f. induction p as [|a p IH]; intros f Hl.
  - simpl in Hl. rewrite (sanitize_keeps_plain f ext Hext Hl), Hl. now exists "".
  - destruct f as [|c f]; [discriminate|].
    simpl in Hl. injection Hl as _ Hl.
    destruct (IH f Hl) as [p' Hp'].
    exists (String (lower_char (sanitize_char c)) p'). simpl. now rewrite Hp'.
Qed.

Lemma sanitize_nonempty (f : string) : f <> "" -> sanitize f <> "".
Proof. destruct f; [congruence | discriminate]. Qed.

(** X7.  [sanitize] keeps the length of a name, lets only the characters
    [a-zA-Z0-9._-] through (so no path separator survives), changes
    nothing on a second pass, and keeps an allowed name allowed. *)
Theorem sanitize_gives_safe_name (name : string) :
  String.length (sanitize name) = String.length name
  /\ all_chars safe_char (sanitize name) = true
  /\ contains_char "/" (sanitize name) = false
  /\ sanitize (sanitize name) = sanitize name
  /\ (allowed_file (Some name) = true -> allowed_file (Some (sanitize name)) = true).
Proof.
  split; [|split; [|split; [|split]]].
  - induction name as [|c s IH]; simpl; [reflexivity | now rewrite IH].
  - apply sanitize_all_safe.
  - apply all_safe_no_slash, sanitize_all_safe.
  - induction name as [|c s IH]; simpl; [reflexivity|].
    now rewrite (sanitize_char_keeps_safe _ (sanitize_char_safe c)), IH.
  - intros H. apply allowed_file_iff in H.
    destruct H as (f & Hf & Hne & Hext). injection Hf as <-.
    apply allowed_file_iff. exists (sanitize name).
    split; [reflexivity|]. split; [now apply sanitize_nonempty|].
    destruct Hext as [[p Hp]|[p Hp]]; [left|right];
      now apply (sanitize_keeps_ending name p).
Qed.

(** X8.  [allowed_file] does not look at letter case: a name and its
    lowercased form get the same verdict. *)
Theorem allowed_file_ignores_case (name : string) :
  allowed_file (Some (lower name)) = allowed_file (Some name).
Proof.
  unfold allowed_file. rewrite lower_idem. now destruct name.
Qed.

(** *** Where an upload is stored *)

Lemma contains_char_app (c : ascii) (a b : string) :
  contains_char c (a ++ b) = contains_char c a || contains_char c b.
Proof.
  induction a as [|d a IH]; [reflexivity|].
  change (Ascii.eqb c d || contains_char c (a ++ b)
          = Ascii.eqb c d || contains_char c a || contains_char c b).
  now rewrite IH, orb_assoc.
Qed.

Lemma rfind_char_absent (c : ascii) (s : string) :
  contains_char c s = false -> rfind_char c s = -1.
Proof.
  induction s as [|d s IH]; [reflexivity|].
  change (Ascii.eqb c d || contains_char c s = false ->
          (let i := rfind_char c s in
           if i =? -1 then (if Ascii.eqb c d then 0 else -1) else i + 1) = -1).
  intros H. apply orb_false_iff in H. destruct H as [Hd Hs].
  cbv zeta. now rewrite (IH Hs), Hd.
Qed.

Lemma rfind_char_bounds (c : ascii) (s : string) :
  -1 <= rfind_char c s < Z.of_nat (String.length s).
Proof.
  induction s as [|d s IH].
  - simpl. lia.
  - change (rfind_char c (String d s))
      with (let i := rfind_char c s in
            if i =? -1 then (if Ascii.eqb c d then 0 else -1) else i + 1).
    cbv zeta. cbn [String.length]. rewrite Nat2Z.inj_succ.
    destruct (rfind_char c s =? -1) eqn:E.
    + destruct (Ascii.eqb c d); lia.
    + apply Z.eqb_neq in E. lia.
Qed.

Lemma rfind_char_present (c : ascii) (s : string) :
  contains_char c s = true -> 0 <= rfind_char c s.
Proof.
  induction s as [|d s IH]; [discriminate|].
  change (Ascii.eqb c d || contains_char c s = true ->
          0 <= (let i := rfind_char c s in
                if i =? -1 then (if Ascii.eqb c d then 0 else -1) else i + 1)).
  intros H. cbv zeta. pose proof (rfind_char_bounds c s) as Hb.
  destruct (rfind_char c s =? -1) eqn:E.
  - apply Z.eqb_eq in E.
    destruct (contains_char c s) eqn:Hs.
    + specialize (IH eq_refl). lia.
    + rewrite orb_false_r in H. rewrite H. lia.
  - apply Z.eqb_neq in E. lia.
Qed.

Lemma rfind_char_app (c : ascii) (a b : string) :
  rfind_char c (a ++ b)
  = if contains_char c b then Z.of_nat (String.length a) + rfind_char c b
    else rfind_char c a.
Proof.
  induction a as [|d a IH].
  - simpl. destruct (contains_char c b) eqn:Hb; [lia|].
    now apply rfind_char_absent.
  - change (String d a ++ b) with (String d (a ++ b)).
    change (rfind_char c (String d (a ++ b)))
      with (let i := rfind_char c (a ++ b) in
            if i =? -1 then (if Ascii.eqb c d then 0 else -1) else i + 1).
    change (rfind_char c (String d a))
      with (let i := rfind_char c a in
            if i =? -1 then (if Ascii.eqb c d then 0 else -1) else i + 1).
    cbv zeta. rewrite IH. cbn [String.length]. rewrite Nat2Z.inj_succ.
    destruct (contains_char c b) eqn:Hb; [|reflexivity].
    pose proof (rfind_char_present c b Hb) as Hp.
    destruct (Z.of_nat (String.length a) + rfind_char c b =? -1) eqn:E.
    + apply Z.eqb_eq in E. lia.
    + lia.
Qed.

Lemma drop_app_le (n : nat) (a b : string) :
  (n <= String.length a)%nat -> drop n (a ++ b) = drop n a ++ b.
Proof.
  revert a. induction n as [|n IH]; intros a Hn; [reflexivity|].
  destruct a as [|c a]; [simpl in Hn; lia|].
  simpl. apply IH. simpl in Hn. lia.
Qed.

Lemma take_app_length (a b : string) : take (String.length a) (a ++ b) = a.
Proof. induction a as [|c a IH]; simpl; [now destruct b | now rewrite IH]. Qed.

Lemma has_non_dot_app (a b : string) :
  has_non_dot (a ++ b) = has_non_dot a || has_non_dot b.
Proof.
  induction a as [|c a IH]; [reflexivity|].
  change (negb (Ascii.eqb c ".") || has_non_dot (a ++ b)
          = negb (Ascii.eqb c ".") || has_non_dot a || has_non_dot b).
  now rewrite IH, orb_assoc.
Qed.

Lemma lower_split (f p q : string) :
  lower f = p ++ q -> exists f1 f2, f = f1 ++ f2 /\ lower f1 = p /\ lower f2 = q.
Proof.
  revert f. induction p as [|a p IH]; intros f Hl.
  - exists "", f. auto.
  - destruct f as [|c f]; [discriminate|].
    simpl in Hl. injection Hl as Ha Hl.
    destruct (IH f Hl) as (f1 & f2 & -> & H1 & H2).
    exists (String c f1), f2. simpl. rewrite Ha, H1. auto.
Qed.

Lemma lower_char_dot (c : ascii) : Ascii.eqb "." (lower_char c) = Ascii.eqb "." c.
Proof. by_cases_on_char c. Qed.

Lemma lower_char_slash (c : ascii) : Ascii.eqb "/" (lower_char c) = Ascii.eqb "/" c.
Proof. by_cases_on_char c. Qed.

Lemma rfind_dot_lower (s : string) : rfind_char "." (lower s) = rfind_char "." s.
Proof.
  induction s as [|c s IH]; [reflexivity|].
  change (lower (String c s)) with (String (lower_char c) (lower s)).
  change (rfind_char "." (String (lower_char c) (lower s)))
    with (let i := rfind_char "." (lower s) in
          if i =? -1 then (if Ascii.eqb "." (lower_char c) then 0 else -1) else i + 1).
  change (rfind_char "." (String c s))
    with (let i := rfind_char "." s in
          if i =? -1 then (if Ascii.eqb "." c then 0 else -1) else i + 1).
  cbv zeta. now rewrite IH, lower_char_dot.
Qed.

Lemma contains_lower (c : ascii) (s : string) :
  (forall d, Ascii.eqb c (lower_char d) = Ascii.eqb c d) ->
  contains_char c (lower s) = contains_char c s.
Proof.
  intros Hc. induction s as [|d s IH]; [reflexivity|].
  change (Ascii.eqb c (lower_char d) || contains_char c (lower s)
          = Ascii.eqb c d || contains_char c s).
  now rewrite Hc, IH.
Qed.

Lemma digits_no_slash (d : Decimal.uint) :
  contains_char "/" (NilEmpty.string_of_uint d) = false.
Proof. induction d; simpl; auto. Qed.

Lemma numeral_no_slash (d : Decimal.uint) :
  contains_char "/" (NilZero.string_of_uint d) = false.
Proof.
  unfold NilZero.string_of_uint. destruct d; try reflexivity; apply digits_no_slash.
Qed.

Lemma str_of_Z_no_slash (n : Z) : contains_char "/" (str_of_Z n) = false.
Proof.
  unfold str_of_Z, NilZero.string_of_int.
  destruct (Z.to_int n) as [d|d]; [apply numeral_no_slash|].
  change (Ascii.eqb "/" "-" || contains_char "/" (NilZero.string_of_uint d) = false).
  now rewrite numeral_no_slash.
Qed.

Lemma stored_name_no_slash (uid time : Z) (name : string) :
  contains_char "/" (stored_name uid time name) = false.
Proof.
  unfold stored_name. rewrite !contains_char_app, !str_of_Z_no_slash.
  pose proof (sanitize_gives_no_slash := all_safe_no_slash _ (sanitize_all_safe name)).
  now rewrite sanitize_gives_no_slash.
Qed.

(** The path is the name behind a directory part that is empty or ends
    with the separator. *)
Lemma stored_path_split (cfg : Settings) (uid time : Z) (name : string) :
  exists dir,
    stored_path cfg uid time name = dir ++ stored_name uid time name
    /\ rfind_char "/" dir = Z.of_nat (String.length dir) - 1.
Proof.
  unfold stored_path, path_join.
  pose proof (stored_name_no_slash uid time name) as Hns.
  assert (startswith (stored_name uid time name) "/" = false) as ->.
  { destruct (stored_name uid time name) as [|c r]; [reflexivity|].
    change (Ascii.eqb "/" c || contains_char "/" r = false) in Hns.
    apply orb_false_iff in Hns. destruct Hns as [Hc _].
    now rewrite startswith_char. }
  destruct (str_is_empty (UPLOAD_DIR cfg)) eqn:Ee.
  - apply str_is_empty_spec in Ee. rewrite Ee. exists "". auto.
  - simpl. destruct (endswith (UPLOAD_DIR cfg) "/") eqn:Es.
    + exists (UPLOAD_DIR cfg). split; [reflexivity|].
      apply endswith_spec in Es. destruct Es as [p ->].
      rewrite rfind_char_app, length_app. simpl. lia.
    + exists (UPLOAD_DIR cfg ++ "/"). split.
      * now rewrite str_app_assoc.
      * rewrite rfind_char_app, length_app. simpl. lia.
Qed.

Lemma extension_shape (e ext : string) :
  In ext ALLOWED_EXTENSIONS -> lower e = ext ->
  rfind_char "." e = 0 /\ contains_char "." e = true /\ contains_char "/" e = false.
Proof.
  intros Hin Hl.
  rewrite <- rfind_dot_lower, <- (contains_lower "." e lower_char_dot),
    <- (contains_lower "/" e lower_char_slash), Hl.
  destruct Hin as [<-|[<-|[]]]; repeat split.
Qed.

(** X9.  For a name with an allowed extension, the file is saved directly
    in the upload directory (the last path component is the stored name),
    and [os.path.splitext] on the stored path gives back that extension up
    to case: [extract_text_from_file] then calls the PDF reader for [.pdf]
    and the DOCX reader for [.docx], never the empty fallback. *)
Theorem stored_path_keeps_extension
  (cfg : Settings) (w : World) (uid time : Z) (name ext : string) :
  In ext ALLOWED_EXTENSIONS ->
  ends_with (lower name) ext ->
  basename (stored_path cfg uid time name) = stored_name uid time name
  /\ lower (splitext_ext (stored_path cfg uid time name)) = ext
  /\ extract_text_from_file w (stored_path cfg uid time name)
     = if String.eqb ext ".pdf"
       then _extract_text_from_pdf w (stored_path cfg uid time name)
       else _extract_text_from_docx w (stored_path cfg uid time name).
Proof.
  intros Hin [p Hp].
  assert (Hplain : all_chars plain_char ext = true)
    by (destruct Hin as [<-|[<-|[]]]; reflexivity).
  destruct (sanitize_keeps_ending name p ext Hplain Hp) as [p' Hp'].
  destruct (lower_split _ _ _ Hp') as (g & e & Hge & _ & He).
  destruct (extension_shape e ext Hin He) as (Hdot & Hhas & Hnoslash).
  destruct (stored_path_split cfg uid time name) as (dir & Hpath & Hsep).
  pose proof (stored_name_no_slash uid time name) as Hns.
  set (M := str_of_Z uid ++ "_" ++ str_of_Z time ++ "_" ++ g).
  assert (HU : stored_name uid time name = M ++ e).
  { unfold stored_name, M. rewrite Hge. now rewrite !str_app_assoc. }
  assert (HM : has_non_dot M = true).
  { unfold M. rewrite has_non_dot_app. apply orb_true_iff. right. reflexivity. }
  assert (Hsep' : rfind_char "/" (stored_path cfg uid time name)
                  = Z.of_nat (String.length dir) - 1).
  { rewrite Hpath, rfind_char_app, Hns. exact Hsep. }
  assert (Hpath' : stored_path cfg uid time name = (dir ++ M) ++ e).
  { rewrite Hpath, HU. now rewrite str_app_assoc. }
  assert (Hdot' : rfind_char "." (stored_path cfg uid time name)
                  = Z.of_nat (String.length (dir ++ M))).
  { rewrite Hpath', rfind_char_app, Hhas, Hdot. lia. }
  assert (Hbase : basename (stored_path cfg uid time name) = stored_name uid time name).
  { unfold basename. rewrite Hsep'.
    replace (Z.to_nat (Z.of_nat (String.length dir) - 1 + 1)) with (String.length dir) by lia.
    rewrite Hpath. apply drop_app_length. }
  assert (Hext : splitext_ext (stored_path cfg uid time name) = e).
  { unfold splitext_ext. rewrite Hsep', Hdot'.
    assert ((Z.of_nat (String.length dir) - 1 <? Z.of_nat (String.length (dir ++ M))) = true)
      as ->.
    { apply Z.ltb_lt. rewrite length_app. lia. }
    assert (slice (stored_path cfg uid time name)
              (Z.of_nat (String.length dir) - 1 + 1)
              (Z.of_nat (String.length (dir ++ M))) = M) as ->.
    { unfold slice.
      replace (Z.to_nat (Z.of_nat (String.length dir) - 1 + 1))
        with (String.length dir) by lia.
      replace (Z.to_nat (Z.of_nat (String.length (dir ++ M))
                         - (Z.of_nat (String.length dir) - 1 + 1)))
        with (String.length M) by (rewrite length_app; lia).
      rewrite Hpath, HU, drop_app_length. apply take_app_length. }
    rewrite HM. cbn [andb]. rewrite Nat2Z.id, Hpath'. apply drop_app_length. }
  split; [exact Hbase|]. split; [now rewrite Hext|].
  unfold extract_text_from_file. rewrite Hext, He.
  destruct Hin as [<-|[<-|[]]]; reflexivity.
Qed.

(* ------------------------------------------------------------------ *)
(** ** Further properties: the texts handed to the parsers *)

Lemma find_char_drop (c : ascii) (s : string) :
  0 <= find_char c s ->
  exists r, drop (Z.to_nat (find_char c s)) s = String c r.
Proof.
  induction s as [|d s IH]; [simpl; lia|].
  change (find_char c (String d s))
    with (if Ascii.eqb c d then 0
          else let i := find_char c s in if i =? -1 then -1 else i + 1).
  destruct (Ascii.eqb c d) eqn:E.
  - intros _. apply Ascii.eqb_eq in E. subst. now exists s.
  - cbv zeta. pose proof (find_char_ge c s) as Hge.
    destruct (find_char c s =? -1) eqn:E1; [lia|].
    apply Z.eqb_neq in E1. intros _.
    destruct IH as [r Hr]; [lia|]. exists r.
    replace (Z.to_nat (find_char c s + 1)) with (S (Z.to_nat (find_char c s))) by lia.
    exact Hr.
Qed.

Lemma rfind_char_split (c : ascii) (s : string) :
  0 <= rfind_char c s ->
  exists p r, s = p ++ String c r /\ Z.of_nat (String.length p) = rfind_char c s.
Proof.
  induction s as [|d s IH]; [simpl; lia|].
  change (rfind_char c (String d s))
    with (let i := rfind_char c s in
          if i =? -1 then (if Ascii.eqb c d then 0 else -1) else i + 1).
  cbv zeta. pose proof (rfind_char_bounds c s) as Hb.
  destruct (rfind_char c s =? -1) eqn:E1.
  - destruct (Ascii.eqb c d) eqn:E; [|lia].
    intros _. apply Ascii.eqb_eq in E. subst. now exists "", s.
  - apply Z.eqb_neq in E1. intros _.
    destruct IH as (p & r & -> & Hlen); [lia|].
    exists (String d p), r. split; [reflexivity|].
    cbn [String.length]. lia.
Qed.

Lemma take_snoc (x y : string) (c : ascii) :
  take (S (String.length x)) (x ++ String c y) = x ++ String c EmptyString.
Proof.
  induction x as [|d x IH]; [now destruct y|].
  change (String d (take (S (String.length x)) (x ++ String c y))
          = String d (x ++ String c EmptyString)).
  f_equal. exact IH.
Qed.

(** The text between the first [c1] and the last [c2] starts with [c1] and
    ends with [c2]. *)
Lemma slice_between (c1 c2 : ascii) (s : string) :
  0 <= find_char c1 s -> find_char c1 s < rfind_char c2 s ->
  let t := slice s (find_char c1 s) (rfind_char c2 s + 1) in
  startswith t (String c1 EmptyString) = true
  /\ endswith t (String c2 EmptyString) = true.
Proof.
  intros Ha Hab t. subst t. unfold slice.
  destruct (find_char_drop c1 s Ha) as [r Hr].
  destruct (rfind_char_split c2 s) as (p & r2 & Hs & Hlen); [lia|].
  set (a := Z.to_nat (find_char c1 s)) in *.
  assert (Hap : (a <= String.length p)%nat) by lia.
  replace (Z.to_nat (rfind_char c2 s + 1 - find_char c1 s))
    with (S (String.length (drop a p)))
    by (rewrite length_drop; lia).
  split.
  - rewrite Hr. cbn [take]. apply startswith_cons.
  - rewrite Hs at 1. rewrite drop_app_le by exact Hap.
    rewrite take_snoc. apply endswith_spec. now exists (drop a p).
Qed.

Lemma brace_condition_bounds (a b : Z) :
  negb (a =? -1) && negb (b =? -1) && (a <? b) = true ->
  -1 <= a -> 0 <= a /\ a < b.
Proof.
  intros H Ha. apply andb_true_iff in H. destruct H as [H Hlt].
  apply andb_true_iff in H. destruct H as [Hna _].
  apply negb_true_iff, Z.eqb_neq in Hna. apply Z.ltb_lt in Hlt. lia.
Qed.





Section Candidates.

Context {L : Lib}.


(** X11.  When [extract_json_str] succeeds, the text it passes to
    [json.loads] starts with an opening and ends with a closing brace; its
    only failure is the ValueError for an answer without such a pair. *)
Theorem extract_json_str_braced (raw : string) :
  (forall js, extract_json_str raw = Ok js -> braced js)
  /\ (forall e, extract_json_str raw = Raise e ->
                e = ValueError "No valid JSON found in response").
Proof.
  unfold extract_json_str.
  set (c := strip_char backtick _).
  destruct (startswith c "{" && endswith c "}") eqn:E.
  - split; [|discriminate]. intros js H. injection H as <-.
    apply andb_true_iff in E. exact E.
  - destruct (negb (find_char "{" c =? -1) && negb (rfind_char "}" c =? -1)
              && (find_char "{" c <? rfind_char "}" c)) eqn:E2.
    + split; [|discriminate]. intros js H. injection H as <-.
      destruct (brace_condition_bounds _ _ E2 (find_char_ge _ _)) as [Ha Hab].
      exact (slice_between "{" "}" c Ha Hab).
    + split; [discriminate|]. intros e H. now injection H as <-.
Qed.

End Candidates.

(* ------------------------------------------------------------------ *)
(** ** Further properties: the analyses *)

Lemma fill_fold_other (keys : list string) (d : list (pyval * pyval)) (k : string) :
  ~ In k keys -> dict_lookup k (fold_left fill_step keys d) = dict_lookup k d.
Proof.
  revert d. induction keys as [|key keys IH]; intros d Hk; [reflexivity|].
  simpl. rewrite IH by (intros H; apply Hk; now right).
  unfold fill_step. destruct (negb (dict_has key d)); [|reflexivity].
  apply dict_lookup_set_other. intros ->. apply Hk. now left.
Qed.

Lemma in_content_keys (k : string) :
  In k content_keys <-> k = "strengths" \/ k = "weaknesses" \/ k = "improvements".
Proof. unfold content_keys. simpl. intuition congruence. Qed.

Lemma content_keys_expected (k : string) : In k content_keys -> In k expected_keys.
Proof. intros H. apply in_content_keys in H. simpl. intuition. Qed.

(** What a key holds after the three [ensure_content] steps. *)
Lemma ensured_lookup (d0 : list (pyval * pyval)) (k : string) :
  dict_lookup k (ensured d0)
  = if str_in k content_keys
    then match dict_lookup k (fill_missing d0) with
         | Some v => if truthy v then Some v else Some (content_for k)
         | None => Some (content_for k)
         end
    else dict_lookup k (fill_missing d0).
Proof.
  unfold ensured. rewrite !ensure_content_lookup. unfold str_in, content_keys, content_for.
  cbn [existsb].
  destruct (String.eqb k "improvements") eqn:E3.
  - apply String.eqb_eq in E3. subst k. reflexivity.
  - destruct (String.eqb k "weaknesses") eqn:E2.
    + apply String.eqb_eq in E2. subst k. reflexivity.
    + destruct (String.eqb k "strengths") eqn:E1.
      * apply String.eqb_eq in E1. subst k. reflexivity.
      * reflexivity.
Qed.

Lemma str_in_spec (k : string) (l : list string) : str_in k l = true <-> In k l.
Proof.
  unfold str_in. rewrite existsb_exists. split.
  - intros (x & Hx & He). apply String.eqb_eq in He. now subst.
  - intros H. exists k. split; [exact H | apply String.eqb_refl].
Qed.

Section AnalysisExtras.

Context {L : Lib}.

(** X12.  When the LLM's answer parses to a JSON object,
    [analyze_resume_vs_jd] returns that object with gaps filled and nothing
    else touched: a value the LLM supplied is kept whenever it is truthy or
    its key is not one of strengths, weaknesses, improvements; those three
    get the standard list when missing or falsy; any other expected key
    that is missing gets its default (so [resume_name] and [jd_title]
    become the empty string, whatever the arguments were); keys beyond the
    twelve are passed through. *)
Theorem analyze_keeps_llm_values (w : World)
  (resume_content jd_content resume_name jd_title js : string)
  (d0 : list (pyval * pyval)) :
  extract_json_str (call_llm w (compare_prompt resume_content jd_content
                                  resume_name jd_title)) = Ok js ->
  json_loads js = Some (PyDict d0) ->
  exists d,
    analyze_resume_vs_jd w resume_content jd_content resume_name jd_title = Ok (PyDict d)
    /\ (forall k v, dict_lookup k d0 = Some v ->
                    truthy v = true \/ ~ In k content_keys ->
                    dict_lookup k d = Some v)
    /\ (forall k, In k content_keys ->
                  match dict_lookup k d0 with
                  | Some v => truthy v = false
                  | None => True
                  end ->
                  dict_lookup k d = Some (content_for k))
    /\ (forall k, In k expected_keys -> ~ In k content_keys ->
                  dict_lookup k d0 = None ->
                  dict_lookup k d = Some (default_for k))
    /\ (forall k, ~ In k expected_keys -> dict_lookup k d = dict_lookup k d0).
Proof.
  intros Hjs Hload. exists (ensured d0).
  split.
  { unfold analyze_resume_vs_jd, try_parse_comparison, bind. rewrite Hjs, Hload.
    reflexivity. }
  split; [|split; [|split]].
  - intros k v Hv Hor. rewrite ensured_lookup.
    destruct (str_in k content_keys) eqn:Ein.
    + apply str_in_spec in Ein.
      rewrite (fill_missing_lookup d0 k (content_keys_expected k Ein)), Hv.
      destruct Hor as [Ht|Hn]; [now rewrite Ht | contradiction].
    + unfold fill_missing. now apply fill_fold_keeps.
  - intros k Hin Hfalsy. rewrite ensured_lookup.
    rewrite (proj2 (str_in_spec k content_keys) Hin).
    rewrite (fill_missing_lookup d0 k (content_keys_expected k Hin)).
    destruct (dict_lookup k d0) as [v|].
    + now rewrite Hfalsy.
    + apply in_content_keys in Hin. destruct Hin as [-> | [-> | ->]]; reflexivity.
  - intros k Hin Hnot Hnone. rewrite ensured_lookup.
    destruct (str_in k content_keys) eqn:Ein.
    + apply str_in_spec in Ein. contradiction.
    + now rewrite (fill_missing_lookup d0 k Hin), Hnone.
  - intros k Hnot. rewrite ensured_lookup.
    destruct (str_in k content_keys) eqn:Ein.
    + apply str_in_spec in Ein. elim Hnot. now apply content_keys_expected.
    + unfold fill_missing. now apply fill_fold_other.
Qed.

(** X13.  When the answer yields no JSON object, [analyze_resume_vs_jd]
    returns the mock: [match_score] from 45 to 95, [ats_score] from 40 to
    90, [skills_alignment] from 60 to 95, and [resume_name] and [jd_title]
    as they were passed in. *)
Theorem analyze_mock_ranges (w : World)
  (resume_content jd_content resume_name jd_title : string) :
  (forall js d0,
     extract_json_str (call_llm w (compare_prompt resume_content jd_content
                                     resume_name jd_title)) = Ok js ->
     json_loads js <> Some (PyDict d0)) ->
  exists m a k,
    analyze_resume_vs_jd w resume_content jd_content resume_name jd_title
    = Ok (mock_comparison (w_rng w) resume_name jd_title)
    /\ item (mock_comparison (w_rng w) resume_name jd_title) "match_score" = Some (PyInt m)
    /\ 45 <= m <= 95
    /\ item (mock_comparison (w_rng w) resume_name jd_title) "ats_score" = Some (PyInt a)
    /\ 40 <= a <= 90
    /\ item (mock_comparison (w_rng w) resume_name jd_title) "skills_alignment"
       = Some (PyInt k)
    /\ 60 <= k <= 95
    /\ item (mock_comparison (w_rng w) resume_name jd_title) "resume_name"
       = Some (PyStr resume_name)
    /\ item (mock_comparison (w_rng w) resume_name jd_title) "jd_title"
       = Some (PyStr jd_title).
Proof.
  intros Hno.
  assert (Hrun : analyze_resume_vs_jd w resume_content jd_content resume_name jd_title
                 = Ok (mock_comparison (w_rng w) resume_name jd_title)).
  { unfold analyze_resume_vs_jd.
    destruct (try_parse_comparison _) as [data|e] eqn:E; [|reflexivity].
    destruct (try_parse_comparison_ok _ _ E) as (js & d0 & Hjs & Hload & _).
    now elim (Hno js d0 Hjs). }
  unfold mock_comparison in *.
  pose proof (randint_range 45 95 (w_rng w) ltac:(lia)) as H1.
  destruct (randint 45 95 (w_rng w)) as [m g1].
  pose proof (randint_range 40 90 g1 ltac:(lia)) as H2.
  destruct (randint 40 90 g1) as [a g2].
  pose proof (randint_range 60 95 g2 ltac:(lia)) as H3.
  destruct (randint 60 95 g2) as [k g3].
  exists m, a, k. split; [exact Hrun|]. repeat split; try apply H1; try apply H2; apply H3.
Qed.

(** X14.  The result of [process_resume_file] carries the key [raw]
    exactly when it came from the LLM: then [raw] is the parsed object,
    which is truthy; otherwise the result is the mock analysis, which has
    no [raw]. *)
Theorem process_resume_file_raw (w : World) (path : string) :
  let parsed :=
    _parse_json_or_fallback
      (call_llm w (resume_prompt (basename path) (resume_text_of w path))) in
  exists r,
    process_resume_file w path = Ok r
    /\ ((item r "raw" = Some parsed /\ truthy parsed = true
         /\ llm_analysis parsed = Ok r)
        \/ (item r "raw" = None /\ r = mock_analysis (w_rng w)
            /\ (truthy parsed = false \/ exists e, llm_analysis parsed = Raise e))).
Proof.
  intros parsed. unfold process_resume_file, try_llm_analysis. fold parsed.
  assert (Hmock : item (mock_analysis (w_rng w)) "raw" = None).
  { unfold mock_analysis.
    destruct (randint 35 90 (w_rng w)) as [n g1].
    destruct (random_gt_half g1) as [b1 g2].
    destruct (random_gt_half g2) as [b2 g3]. reflexivity. }
  destruct (truthy parsed) eqn:Et.
  - destruct (llm_analysis parsed) as [r|e] eqn:El; unfold bind.
    + exists r. split; [reflexivity|]. left. split; [|auto].
      unfold llm_analysis, bind in El.
      repeat match type of El with
             | match ?x with Ok _ => _ | Raise _ => _ end = _ =>
                 destruct x; [|discriminate]
             end.
      injection El as <-. reflexivity.
    + eexists. split; [reflexivity|]. right. split; [exact Hmock|].
      split; [reflexivity|]. right. now exists e.
  - eexists. split; [reflexivity|]. right. auto.
Qed.

End AnalysisExtras.

(* ------------------------------------------------------------------ *)
(** ** Further properties: accounts *)

Lemma find_snoc_none {A : Type} (f : A -> bool) (l : list A) (x : A) :
  find f l = None -> find f (l ++ [x]) = if f x then Some x else None.
Proof.
  induction l as [|a l IH]; simpl; [reflexivity|].
  destruct (f a); [discriminate | exact IH].
Qed.

Lemma user_by_email_write (db : DB) (u u' : User) :
  user_by_email db (email u) = Some u ->
  email u' = email u -> user_id u' = user_id u ->
  user_by_email (write_user u' db) (email u) = Some u'.
Proof.
  intros Hfind He Hid. unfold user_by_email, write_user in *. simpl.
  rewrite Hid.
  induction (users db) as [|r l IH]; [discriminate|].
  simpl in *.
  destruct (String.eqb (email r) (email u)) eqn:Er.
  - injection Hfind as ->. now rewrite Z.eqb_refl, He, String.eqb_refl.
  - destruct (user_id r =? user_id u).
    + now rewrite He, String.eqb_refl.
    + rewrite Er. now apply IH.
Qed.

Section AccountExtras.

Context {L : Lib}.

(** X15.  [create_user] gives the new user a key that no row had, a count
    of 0 and the current time as stamp; keys that were pairwise distinct
    stay so. *)
Theorem create_user_fresh_id (w : World) (s : Session) (e p : string) :
  (forall u s', create_user w s e p = (Ok u, s') ->
                ~ In (user_id u) (map user_id (users (work s)))
                /\ scan_count u = Some 0
                /\ last_quota_reset u = StampAt (w_now w))
  /\ (NoDup (map user_id (users (work s))) ->
      NoDup (map user_id (users (work (snd (create_user w s e p)))))).
Proof.
  unfold create_user. destruct (user_by_email (work s) e); split.
  - discriminate.
  - auto.
  - intros u s' H. injection H as <- _. simpl.
    split; [apply next_id_fresh | auto].
  - intros Hnd. simpl. rewrite map_app. simpl.
    apply NoDup_snoc; [exact Hnd | apply next_id_fresh].
Qed.

(** X16.  Register, then log in: when the library verifies a password
    against its own hash, the user [create_user] made is authenticated by
    the same email and password, with no further change; a password the
    library rejects against that hash is refused. *)
Theorem register_then_login (w w' : World) (s s' : Session) (e p : string) (u : User) :
  create_user w s e p = (Ok u, s') ->
  pwd_verify p (get_password_hash w p) = Ok true ->
  authenticate_user w' s' e p = (Ok (Some u), s')
  /\ (forall p', pwd_verify p' (get_password_hash w p) = Ok false ->
                 authenticate_user w' s' e p' = (Ok None, s')).
Proof.
  unfold create_user. destruct (user_by_email (work s) e) eqn:E; [discriminate|].
  intros H Hv. injection H as <- <-.
  assert (Hfind : user_by_email
                    (work (commit (with_work
                       (add_user
                          {| user_id := next_id (map user_id (users (work s)));
                             email := e;
                             hashed_password := get_password_hash w p;
                             scan_count := Some 0;
                             last_quota_reset := StampAt (w_now w) |}) s))) e
                  = Some {| user_id := next_id (map user_id (users (work s)));
                            email := e;
                            hashed_password := get_password_hash w p;
                            scan_count := Some 0;
                            last_quota_reset := StampAt (w_now w) |}).
  { unfold user_by_email in *. simpl. rewrite (find_snoc_none _ _ _ E). simpl.
    now rewrite String.eqb_refl. }
  split.
  - unfold authenticate_user, verify_password. rewrite Hfind. simpl. now rewrite Hv.
  - intros p' Hv'. unfold authenticate_user, verify_password. rewrite Hfind. simpl.
    now rewrite Hv'.
Qed.

(** X17.  [authenticate_user] answers [None] without any change for an
    unknown email; for a stored value the library recognises it returns
    the stored user exactly when verification succeeds, again without any
    change; and whoever it returns has the email that was asked for and
    the key of the row stored under it. *)
Theorem authenticate_user_sound (w : World) (s : Session) (e p : string) :
  (user_by_email (work s) e = None -> authenticate_user w s e p = (Ok None, s))
  /\ (forall u0 b,
        user_by_email (work s) e = Some u0 ->
        pwd_verify p (hashed_password u0) = Ok b ->
        authenticate_user w s e p = (Ok (if b then Some u0 else None), s))
  /\ (forall u s',
        authenticate_user w s e p = (Ok (Some u), s') ->
        email u = e
        /\ exists u0, user_by_email (work s) e = Some u0 /\ user_id u = user_id u0).
Proof.
  split; [|split].
  - intros H. unfold authenticate_user. now rewrite H.
  - intros u0 b Hu Hv. unfold authenticate_user, verify_password. rewrite Hu, Hv.
    now destruct b.
  - intros u s' H. unfold authenticate_user, verify_password in H.
    destruct (user_by_email (work s) e) as [u0|] eqn:Hu; [|discriminate].
    pose proof (user_by_email_some _ _ _ Hu) as [_ He].
    destruct (pwd_verify p (hashed_password u0)) as [[|]|[]]; try discriminate.
    + injection H as <- _. split; [exact He | now exists u0].
    + destruct (negb (contains_char "$" (hashed_password u0))
                && String.eqb p (hashed_password u0)); [|discriminate].
      injection H as <- _. simpl. split; [exact He | now exists u0].
Qed.

(** X18.  A reset token works once: after a successful
    [reset_user_password] the same token no longer verifies, at any time,
    and a second reset with it returns False and changes nothing (token
    strings being unique). *)
Theorem reset_token_single_use (w w' : World) (s : Session)
  (tok new_password other_password : string) :
  NoDup (map token (tokens (work s))) ->
  fst (reset_user_password w s tok new_password) = true ->
  verify_password_reset_token w' (snd (reset_user_password w s tok new_password)) tok
  = None
  /\ reset_user_password w' (snd (reset_user_password w s tok new_password))
       tok other_password
     = (false, snd (reset_user_password w s tok new_password)).
Proof.
  intros Hnd Hok.
  assert (Hnone : verify_password_reset_token w'
                    (snd (reset_user_password w s tok new_password)) tok = None).
  { unfold reset_user_password in *.
    destruct (verify_password_reset_token w s tok) as [u|] eqn:Hv; [|discriminate].
    unfold verify_password_reset_token in Hv.
    destruct (find (token_valid (w_now w) tok) (tokens (work s))) as [t|] eqn:E;
      [|discriminate].
    apply find_some in E. destruct E as [Hin Hvalid].
    apply token_valid_spec in Hvalid. destruct Hvalid as (Ht & Hused & _).
    unfold use_password_reset_token, setattr_user. cbn [fst snd].
    change (tokens (work (with_work (write_user ?x) s))) with (tokens (work s)).
    destruct (find (fun t0 => String.eqb (token t0) tok && negb (used t0))
                (tokens (work s))) as [t'|] eqn:E'.
    2:{ pose proof (find_none _ _ E' t Hin) as Hn. simpl in Hn.
        rewrite Ht, String.eqb_refl, Hused in Hn. discriminate. }
    apply find_some in E'. destruct E' as [Hin' Ht'].
    apply andb_true_iff in Ht'. destruct Ht' as [Ht' _]. apply String.eqb_eq in Ht'.
    cbn [fst snd]. unfold verify_password_reset_token.
    destruct (find (token_valid (w_now w') tok) _) as [r|] eqn:Er; [|reflexivity].
    exfalso. apply find_some in Er. destruct Er as [Hr Hrv].
    apply token_valid_spec in Hrv. destruct Hrv as (Hrt & Hru & _).
    cbn in Hr. apply in_map_iff in Hr. destruct Hr as (r0 & <- & Hr0).
    destruct (token_id r0 =? token_id t') eqn:Eid; [discriminate|].
    assert (r0 = t') as ->.
    { apply (NoDup_map_eq token (tokens (work s))); congruence. }
    rewrite Z.eqb_refl in Eid. discriminate. }
  split; [exact Hnone|].
  unfold reset_user_password at 1. now rewrite Hnone.
Qed.

(** X19.  Reset, then log in: after a successful [reset_user_password] for
    a user who is the row stored under their email, [authenticate_user]
    with that email and the new password returns the user with the new
    hash, when the library verifies a password against its own hash. *)
Theorem reset_then_login (w w' : World) (s : Session)
  (tok new_password : string) (u : User) :
  verify_password_reset_token w s tok = Some u ->
  user_by_email (work s) (email u) = Some u ->
  pwd_verify new_password (get_password_hash w new_password) = Ok true ->
  authenticate_user w' (snd (reset_user_password w s tok new_password))
    (email u) new_password
  = (Ok (Some (set_hashed_password (get_password_hash w new_password) u)),
     snd (reset_user_password w s tok new_password)).
Proof.
  intros Hv Hfind Hlib.
  assert (Husers : users (work (snd (reset_user_password w s tok new_password)))
                   = users (write_user
                              (set_hashed_password (get_password_hash w new_password) u)
                              (work s))).
  { unfold reset_user_password. rewrite Hv.
    unfold use_password_reset_token, setattr_user. cbn [fst snd].
    destruct (find _ _); reflexivity. }
  unfold authenticate_user, verify_password.
  assert (Hfind' : user_by_email
                     (work (snd (reset_user_password w s tok new_password))) (email u)
                   = Some (set_hashed_password (get_password_hash w new_password) u)).
  { unfold user_by_email. rewrite Husers.
    now apply (user_by_email_write (work s) u). }
  rewrite Hfind'. simpl. now rewrite Hlib.
Qed.

(** X20.  [get_current_user_from_request] only returns a row of the users
    table whose email is the non-empty subject of the request's non-empty
    token.  A header that starts with [Bearer ] decides alone, the cookie
    is not looked at; any other header leaves the decision to the
    cookie. *)
Theorem current_user_comes_from_token (s : Session) :
  (forall request u,
     get_current_user_from_request request s = Some u ->
     In u (users (work s))
     /\ email u <> ""
     /\ exists tok, request_token request = Some tok /\ tok <> ""
                    /\ jwt_decode_sub tok = Some (Some (email u)))
  /\ (forall h c1 c2,
        startswith h "Bearer " = true ->
        get_current_user_from_request
          {| authorization := Some h; session_cookie := c1 |} s
        = get_current_user_from_request
            {| authorization := Some h; session_cookie := c2 |} s)
  /\ (forall h c,
        startswith h "Bearer " = false ->
        get_current_user_from_request
          {| authorization := Some h; session_cookie := c |} s
        = get_current_user_from_request
            {| authorization := None; session_cookie := c |} s).
Proof.
  split; [|split].
  - intros request u H. unfold get_current_user_from_request in H.
    destruct (request_token request) as [tok|]; [|discriminate].
    destruct (str_is_empty tok) eqn:Et; [discriminate|].
    destruct (jwt_decode_sub tok) as [[e|]|] eqn:Ej; try discriminate.
    destruct (str_is_empty e) eqn:Ee; [discriminate|].
    apply user_by_email_some in H. destruct H as [Hin He]. subst e.
    split; [exact Hin|]. split.
    + intros H0. rewrite H0 in Ee. discriminate.
    + exists tok. repeat split; auto. intros ->. discriminate.
  - intros h c1 c2 Hh. unfold get_current_user_from_request, request_token. simpl.
    destruct h as [|c h]; [discriminate|]. simpl str_is_empty. cbv iota.
    cbn [negb andb]. now rewrite Hh.
  - intros h c Hh. unfold get_current_user_from_request, request_token. simpl.
    now rewrite Hh, andb_false_r.
Qed.

End AccountExtras.

(* ------------------------------------------------------------------ *)
(** ** Further properties: reset tokens *)

Section TokenExtras.

Context {L : Lib} {T : TimeLib}.

Lemma create_token_known (w : World) (h : Z) (fresh : string) (s : Session)
  (e : string) (u : User) :
  user_by_email (work s) e = Some u ->
  create_password_reset_token w h fresh s e
  = (Some fresh,
     commit (with_work (add_token (issued_token w h fresh s u))
               (with_work (expire_tokens_of (user_id u)) s))).
Proof. intros H. unfold create_password_reset_token. now rewrite H. Qed.

Lemma expired_row (uid : Z) (r0 : PasswordResetToken) :
  let r := if (token_user_id r0 =? uid) && negb (used r0) then set_used true r0 else r0 in
  token r = token r0 /\ token_user_id r = token_user_id r0
  /\ (token_user_id r0 = uid -> used r = true).
Proof.
  destruct (token_user_id r0 =? uid) eqn:E, (used r0) eqn:Eu; simpl;
    repeat split; auto; intros H; apply Z.eqb_neq in E; contradiction.
Qed.

(** X21.  [create_password_reset_token] returns [None] and changes nothing
    for an unknown email.  For a known one it returns the fresh token and
    commits: users and scans untouched, every earlier unused token of that
    user marked used, and one row appended, with a new key, unused, owned
    by the user and expiring [expire_hours] hours from now; afterwards
    this row is the user's only unused token. *)
Theorem create_token_effect (w : World) (h : Z) (fresh : string) (s : Session)
  (e : string) :
  (user_by_email (work s) e = None ->
   create_password_reset_token w h fresh s e = (None, s))
  /\ (forall u,
        user_by_email (work s) e = Some u ->
        fst (create_password_reset_token w h fresh s e) = Some fresh
        /\ users (work (snd (create_password_reset_token w h fresh s e))) = users (work s)
        /\ scans (work (snd (create_password_reset_token w h fresh s e))) = scans (work s)
        /\ stored (snd (create_password_reset_token w h fresh s e))
           = work (snd (create_password_reset_token w h fresh s e))
        /\ tokens (work (snd (create_password_reset_token w h fresh s e)))
           = (tokens (expire_tokens_of (user_id u) (work s))
              ++ [issued_token w h fresh s u])%list
        /\ ~ In (token_id (issued_token w h fresh s u)) (map token_id (tokens (work s)))
        /\ (forall r,
              In r (tokens (work (snd (create_password_reset_token w h fresh s e)))) ->
              token_user_id r = user_id u -> used r = false ->
              r = issued_token w h fresh s u)).
Proof.
  split.
  - intros H. unfold create_password_reset_token. now rewrite H.
  - intros u Hu. rewrite (create_token_known w h fresh s e u Hu). cbn [fst snd].
    do 5 (split; [reflexivity|]). split.
    + apply next_id_fresh.
    + intros r Hr Huid Hunused. cbn in Hr. apply in_app_iff in Hr.
      destruct Hr as [Hr|[<-|[]]]; [|reflexivity].
      apply in_map_iff in Hr. destruct Hr as (r0 & <- & _).
      destruct (expired_row (user_id u) r0) as (_ & Hid & Hused).
      cbv zeta in *. rewrite Hid in Huid. rewrite (Hused Huid) in Hunused.
      discriminate.
Qed.

(** X22.  A token just issued verifies: when its string is none of the
    stored ones and the user is the row stored under their key,
    [verify_password_reset_token] returns that user at any time before the
    expiry, and [reset_user_password] with it succeeds. *)
Theorem issued_token_verifies (w w' : World) (h : Z) (fresh : string) (s : Session)
  (e new_password : string) (u : User) :
  user_by_email (work s) e = Some u ->
  user_by_id (work s) (user_id u) = Some u ->
  ~ In fresh (map token (tokens (work s))) ->
  dt_ltb (w_now w') (add_hours h (w_now w)) = true ->
  verify_password_reset_token w' (snd (create_password_reset_token w h fresh s e)) fresh
  = Some u
  /\ fst (reset_user_password w' (snd (create_password_reset_token w h fresh s e))
            fresh new_password) = true.
Proof.
  intros Hu Hid Hfresh Hlive.
  assert (Hv : verify_password_reset_token w'
                 (snd (create_password_reset_token w h fresh s e)) fresh = Some u).
  { rewrite (create_token_known w h fresh s e u Hu). cbn [snd].
    unfold verify_password_reset_token. cbn [work commit with_work add_token tokens].
    rewrite find_snoc_none.
    - unfold token_valid at 1. cbn [issued_token token used expires_at negb].
      rewrite String.eqb_refl, Hlive. cbn [andb]. exact Hid.
    - destruct (find _ _) as [r|] eqn:Er; [|reflexivity].
      exfalso. apply find_some in Er. destruct Er as [Hin Hr].
      apply token_valid_spec in Hr. destruct Hr as (Ht & _).
      cbn in Hin. apply in_map_iff in Hin. destruct Hin as (r0 & <- & Hr0).
      destruct (expired_row (user_id u) r0) as (Htok & _).
      cbv zeta in Htok. rewrite Htok in Ht.
      apply Hfresh. rewrite <- Ht. now apply in_map. }
  split; [exact Hv|]. unfold reset_user_password. now rewrite Hv.
Qed.

(** X23.  Issuing a new token withdraws the old ones: a token string all of
    whose rows belong to the user no longer verifies, at any time, once
    [create_password_reset_token] has run for that user with another
    string. *)
Theorem issued_token_withdraws_old (w w' : World) (h : Z) (fresh : string) (s : Session)
  (e old : string) (u : User) :
  user_by_email (work s) e = Some u ->
  old <> fresh ->
  (forall t, In t (tokens (work s)) -> token t = old -> token_user_id t = user_id u) ->
  verify_password_reset_token w' (snd (create_password_reset_token w h fresh s e)) old
  = None.
Proof.
  intros Hu Hne Hown.
  rewrite (create_token_known w h fresh s e u Hu). cbn [snd].
  unfold verify_password_reset_token.
  destruct (find _ _) as [r|] eqn:Er; [|reflexivity].
  exfalso. apply find_some in Er. destruct Er as [Hin Hr].
  apply token_valid_spec in Hr. destruct Hr as (Ht & Hunused & _).
  cbn in Hin. apply in_app_iff in Hin. destruct Hin as [Hin|[<-|[]]].
  - apply in_map_iff in Hin. destruct Hin as (r0 & <- & Hr0).
    destruct (expired_row (user_id u) r0) as (Htok & _ & Hused).
    cbv zeta in *. rewrite Htok in Ht.
    rewrite (Hused (Hown r0 Hr0 Ht)) in Hunused. discriminate.
  - cbn in Ht. congruence.
Qed.

End TokenExtras.

(* ------------------------------------------------------------------ *)
(** ** Further properties: the handlers for accounts *)

Section HandlerExtras.

Context {L : Lib}.

Lemma reset_success (w : World) (s : Session) (tok new_password : string) (u : User) :
  verify_password_reset_token w s tok = Some u ->
  fst (reset_user_password w s tok new_password) = true
  /\ users (work (snd (reset_user_password w s tok new_password)))
     = users (write_user (set_hashed_password (get_password_hash w new_password) u)
                (work s))
  /\ stored (snd (reset_user_password w s tok new_password))
     = work (snd (reset_user_password w s tok new_password)).
Proof.
  intros Hv. unfold reset_user_password. rewrite Hv.
  unfold use_password_reset_token, setattr_user. cbn [fst snd].
  destruct (find _ _); repeat split.
Qed.

(** X24.  [api_reset_password] answers 200 exactly when the two passwords
    agree, the new one has at least six characters and the token verifies;
    then the token's user holds the hash of the new password.  Every other
    answer is a 400 and leaves the database as it was, so a password of
    fewer than six characters is never stored, whatever the token. *)
Theorem api_reset_password_guards (w : World)
  (tok new_password confirm_password : string) (db : DB) :
  (status_code (fst (api_reset_password w tok new_password confirm_password db)) = 200 <->
   new_password = confirm_password
   /\ (6 <= String.length new_password)%nat
   /\ verify_password_reset_token w (open_session db) tok <> None)
  /\ (status_code (fst (api_reset_password w tok new_password confirm_password db)) <> 200 ->
      status_code (fst (api_reset_password w tok new_password confirm_password db)) = 400
      /\ snd (api_reset_password w tok new_password confirm_password db) = db)
  /\ (forall u,
        status_code (fst (api_reset_password w tok new_password confirm_password db)) = 200 ->
        verify_password_reset_token w (open_session db) tok = Some u ->
        user_by_id (open_session db).(work) (user_id u) = Some u ->
        user_by_id (snd (api_reset_password w tok new_password confirm_password db))
          (user_id u)
        = Some (set_hashed_password (get_password_hash w new_password) u)).
Proof.
  unfold api_reset_password.
  destruct (String.eqb new_password confirm_password) eqn:Ep; cbn [negb].
  2:{ apply String.eqb_neq in Ep. simpl. repeat split; try discriminate; tauto. }
  apply String.eqb_eq in Ep.
  destruct (String.length new_password <? 6)%nat eqn:El.
  { apply Nat.ltb_lt in El. simpl. repeat split; try discriminate; try tauto.
    intros (_ & H & _). lia. }
  apply Nat.ltb_ge in El.
  destruct (verify_password_reset_token w (open_session db) tok) as [u|] eqn:Hv.
  - destruct (reset_success w (open_session db) tok new_password u Hv)
      as (Hok & Husers & Hstored).
    destruct (reset_user_password w (open_session db) tok new_password) as [b s'].
    cbn [fst snd] in *. subst b. simpl. split; [|split].
    + split; [intros _; repeat split; auto; discriminate | reflexivity].
    + intros H. now elim H.
    + intros u' _ Hu' Hid. injection Hu' as <-.
      unfold user_by_id. rewrite Hstored, Husers.
      apply (user_by_id_write db u); [reflexivity | exact Hid].
  - assert (Hr : reset_user_password w (open_session db) tok new_password
                 = (false, open_session db)).
    { unfold reset_user_password. now rewrite Hv. }
    rewrite Hr. simpl. repeat split; try discriminate; try tauto.
Qed.

Lemma api_register_taken (w : World) (e p : string) (db : DB) (u0 : User) :
  user_by_email db e = Some u0 ->
  api_register w e p db = (json_response 400 false "Email already registered", db).
Proof.
  intros E. unfold api_register, create_user.
  change (work (open_session db)) with db. now rewrite E.
Qed.

Lemma api_register_free (w : World) (e p : string) (db : DB) :
  user_by_email db e = None ->
  api_register w e p db
  = (json_response 200 true "User registered successfully",
     add_user {| user_id := next_id (map user_id (users db));
                 email := e;
                 hashed_password := get_password_hash w p;
                 scan_count := Some 0;
                 last_quota_reset := StampAt (w_now w) |} db).
Proof.
  intros E. unfold api_register, create_user.
  change (work (open_session db)) with db. now rewrite E.
Qed.

(** X25.  [api_register] answers 400 with [Email already registered]
    exactly when the email is taken, and then changes nothing; otherwise it
    answers 200.  Either way the email is taken afterwards: a second
    registration of the same email, with any password, is refused and
    changes nothing. *)
Theorem register_only_once (w w' : World) (e p p' : string) (db : DB) :
  (status_code (fst (api_register w e p db)) = 400 <->
   exists u, In u (users db) /\ email u = e)
  /\ (status_code (fst (api_register w e p db)) = 400 ->
      api_register w e p db = (json_response 400 false "Email already registered", db))
  /\ (status_code (fst (api_register w e p db)) <> 400 ->
      status_code (fst (api_register w e p db)) = 200)
  /\ api_register w' e p' (snd (api_register w e p db))
     = (json_response 400 false "Email already registered", snd (api_register w e p db)).
Proof.
  destruct (user_by_email db e) as [u0|] eqn:E.
  - pose proof (user_by_email_some _ _ _ E) as [Hin He].
    rewrite (api_register_taken w e p db u0 E). cbn [fst snd].
    split; [split; [intros _; now exists u0 | reflexivity]|].
    split; [reflexivity|]. split; [intros H; now elim H|].
    exact (api_register_taken w' e p' db u0 E).
  - pose proof (proj1 (user_by_email_none _ _) E) as Hnone.
    rewrite (api_register_free w e p db E). cbn [fst snd].
    split; [split; [discriminate | intros H; contradiction]|].
    split; [discriminate|]. split; [reflexivity|].
    eapply api_register_taken.
    unfold user_by_email in *. cbn [add_user users].
    rewrite (find_snoc_none _ _ _ E). cbn [email]. now rewrite String.eqb_refl.
Qed.

(** X26.  The form upload does to the database what the API upload does,
    for the same request, file and world; it redirects to the login page
    exactly when the API answers 401 and to the dashboard exactly when the
    API answers 200, and an exception leaves it exactly when the API
    answers 500. *)
Theorem post_upload_matches_api (cfg : Settings) (w : World)
  (request : Request) (file : UploadFile) (db : DB) :
  snd (post_upload cfg w request file db) = snd (api_upload_resume cfg w request file db)
  /\ (fst (post_upload cfg w request file db) = Ok (RedirectResponse "/login" 307) <->
      status_code (fst (api_upload_resume cfg w request file db)) = 401)
  /\ (fst (post_upload cfg w request file db) = Ok (RedirectResponse "/dashboard" 302) <->
      status_code (fst (api_upload_resume cfg w request file db)) = 200)
  /\ ((exists e, fst (post_upload cfg w request file db) = Raise e) <->
      status_code (fst (api_upload_resume cfg w request file db)) = 500).
Proof.
  unfold post_upload, api_upload_resume, post_upload_body, api_upload_resume_body.
  destruct (get_current_user_from_request request (open_session db)) as [user|].
  2:{ simpl. repeat split; try discriminate; auto. intros [e H]. discriminate. }
  destruct (check_and_reset_quota cfg w (open_session db) user) as [remaining [u1 s1]].
  destruct (remaining <=? 0).
  { simpl. repeat split; try discriminate. intros [e H]. discriminate. }
  destruct (negb (allowed_file (up_filename file))).
  { simpl. repeat split; try discriminate. intros [e H]. discriminate. }
  unfold bindM, lift, modify, ret.
  repeat match goal with
         | |- context [match ?x with Ok _ => _ | Raise _ => _ end] =>
             destruct x;
             try (simpl; repeat split; try discriminate; eauto; intros [? H]; discriminate)
         | |- context [match ?x with Some _ => _ | None => _ end] =>
             destruct x;
             try (simpl; repeat split; try discriminate; eauto; intros [? H]; discriminate)
         end.
Qed.

(** X27.  An account made by the LinkedIn sign-in can be entered with a
    fixed password: when no row has the email yet,
    [find_or_create_user] stores the text [linkedin_oauth_user] as
    [hashed_password], and when the library does not recognise that text
    as a hash, [authenticate_user] accepts [linkedin_oauth_user] as the
    password for the new account. *)
Theorem linkedin_account_has_fixed_password (w w' : World) (s : Session)
  (data : LinkedInData) :
  user_by_email (work s) (linkedin_email data) = None ->
  pwd_verify "linkedin_oauth_user" "linkedin_oauth_user" = Raise UnknownHashError ->
  hashed_password (fst (linkedin_find_or_create_user w s data)) = "linkedin_oauth_user"
  /\ email (fst (linkedin_find_or_create_user w s data)) = linkedin_email data
  /\ exists u',
       fst (authenticate_user w' (snd (linkedin_find_or_create_user w s data))
              (linkedin_email data) "linkedin_oauth_user") = Ok (Some u')
       /\ user_id u' = user_id (fst (linkedin_find_or_create_user w s data))
       /\ email u' = linkedin_email data.
Proof.
  intros Hnone Hlib. unfold linkedin_find_or_create_user. rewrite Hnone.
  cbn [fst snd hashed_password email]. split; [reflexivity|]. split; [reflexivity|].
  unfold authenticate_user, verify_password.
  assert (Hfind : forall u,
             email u = linkedin_email data ->
             user_by_email (work (commit (with_work (add_user u) s))) (linkedin_email data)
             = Some u).
  { intros u He. unfold user_by_email in *. cbn [work commit with_work add_user users].
    rewrite (find_snoc_none _ _ _ Hnone). now rewrite He, String.eqb_refl. }
  rewrite Hfind by reflexivity. cbn [hashed_password]. rewrite Hlib.
  simpl. eexists. split; [reflexivity|]. split; reflexivity.
Qed.

Lemma linkedin_existing (w : World) (s : Session) (data : LinkedInData) (u : User) :
  user_by_email (work s) (linkedin_email data) = Some u ->
  linkedin_find_or_create_user w s data = (u, commit s).
Proof. intros E. unfold linkedin_find_or_create_user. now rewrite E. Qed.

(** X28.  The LinkedIn sign-in makes at most one account per email: run
    again on what it left, [find_or_create_user] returns the same user
    and changes nothing; and it keeps pairwise distinct emails distinct.
    Without an email in the data the account goes under
    [linkedin_<id>@linkedin.local]. *)
Theorem linkedin_sign_in_idempotent (w w' : World) (s : Session) (data : LinkedInData) :
  linkedin_find_or_create_user w' (snd (linkedin_find_or_create_user w s data)) data
  = linkedin_find_or_create_user w s data
  /\ (NoDup (map email (users (work s))) ->
      NoDup (map email (users (work (snd (linkedin_find_or_create_user w s data))))))
  /\ email (fst (linkedin_find_or_create_user w s data)) = linkedin_email data
  /\ (forall i, li_email data = None -> li_id data = Some i ->
                linkedin_email data = "linkedin_" ++ i ++ "@linkedin.local").
Proof.
  assert (Hmail : forall i, li_email data = None -> li_id data = Some i ->
                            linkedin_email data = "linkedin_" ++ i ++ "@linkedin.local").
  { intros i He Hi. unfold linkedin_email. now rewrite He, Hi. }
  destruct (user_by_email (work s) (linkedin_email data)) as [u|] eqn:E.
  - rewrite (linkedin_existing w s data u E). cbn [fst snd].
    split; [|split; [|split]]; auto.
    + rewrite linkedin_existing with (u := u); [reflexivity | exact E].
    + now apply user_by_email_some in E.
  - set (u := {| user_id := next_id (map user_id (users (work s)));
                 email := linkedin_email data;
                 hashed_password := "linkedin_oauth_user";
                 scan_count := Some 0;
                 last_quota_reset := StampAt (w_now w) |}).
    assert (Hnew : linkedin_find_or_create_user w s data
                   = (u, commit (with_work (add_user u) s))).
    { unfold linkedin_find_or_create_user. now rewrite E. }
    rewrite Hnew. cbn [fst snd].
    split; [|split; [|split]]; auto.
    + rewrite linkedin_existing with (u := u); [reflexivity|].
      unfold user_by_email in *. cbn [work commit with_work add_user users].
      rewrite (find_snoc_none _ _ _ E). cbn [email u]. now rewrite String.eqb_refl.
    + intros Hnd. cbn [work commit with_work add_user users].
      rewrite map_app. simpl. apply NoDup_snoc; [exact Hnd|].
      intros Hin. apply in_map_iff in Hin. destruct Hin as (u1 & Hu1 & Hin).
      apply (proj1 (user_by_email_none _ _) E). now exists u1.
Qed.

End HandlerExtras.

(* ------------------------------------------------------------------ *)
(** ** Cover letters and improvement suggestions *)

Lemma filter_nonempty (l : list string) :
  Forall (fun p => p <> "") (filter (fun clean => negb (str_is_empty clean)) l).
Proof.
  apply Forall_forall. intros p Hp. apply filter_In in Hp. destruct Hp as [_ Hp].
  intros ->. discriminate Hp.
Qed.

Lemma mock_paragraphs_nonempty (jd_title jd_company : string) :
  Forall (fun p => p <> "") (mock_paragraphs jd_title jd_company).
Proof. unfold mock_paragraphs. repeat constructor; discriminate. Qed.

(** X29.  [generate_cover_letter] never raises and always returns the
    four-entry dict with the contact data as passed in; its paragraphs are
    a non-empty list without an empty string: what is left of the LLM's
    answer after cleaning when that leaves anything, and the three
    paragraphs of the fallback otherwise, in particular when the request
    to the LLM fails. *)
Theorem generate_cover_letter_shape (w : World)
  (resume_content jd_content jd_title jd_company your_name your_email your_phone : string)
  (include_achievements emphasize_skills add_passion professional_tone : bool) :
  let raw :=
    call_llm w
      (cover_prompt resume_content jd_content jd_title jd_company your_name your_email
         your_phone
         (customization_text include_achievements emphasize_skills add_passion
            professional_tone)) in
  exists ps,
    generate_cover_letter w resume_content jd_content jd_title jd_company your_name
      your_email your_phone include_achievements emphasize_skills add_passion
      professional_tone
    = Ok (cover_letter ps your_name your_email your_phone)
    /\ ps <> []
    /\ Forall (fun p => p <> "") ps
    /\ (cover_paragraphs raw <> [] -> ps = cover_paragraphs raw)
    /\ (cover_paragraphs raw = [] -> ps = mock_paragraphs jd_title jd_company)
    /\ (raw = "" -> ps = mock_paragraphs jd_title jd_company).
Proof.
  intros raw. unfold generate_cover_letter. fold raw.
  destruct (cover_paragraphs raw) as [|p ps] eqn:E.
  - exists (mock_paragraphs jd_title jd_company).
    split; [reflexivity|]. split; [discriminate|].
    split; [apply mock_paragraphs_nonempty|]. repeat split; congruence.
  - exists (p :: ps). split; [reflexivity|]. split; [discriminate|]. split.
    + rewrite <- E. unfold cover_paragraphs. apply filter_nonempty.
    + split; [reflexivity|]. split; [discriminate|].
      intros Hraw. rewrite Hraw in E. discriminate E.
Qed.

Section ImprovementExtras.

Context {L : Lib} {S : StrLib}.

Lemma improvements_of_data_shape (data : pyval) (ty rn : string) (r : pyval) :
  improvements_of_data data ty rn = Ok r ->
  exists d,
    r = PyDict d
    /\ dict_lookup "resume_name" d = Some (PyStr rn)
    /\ dict_lookup "improvement_type" d = Some (PyStr ty)
    /\ dict_lookup "improvement_type_title" d
       = Some (PyStr (title_of type_titles_parsed ty))
    /\ Forall (fun k => dict_has k d = true) (improvement_keys ty).
Proof.
  unfold improvements_of_data, improvement_keys.
  destruct data; try (destruct (String.eqb ty "keywords"), (String.eqb ty "role"),
                        (String.eqb ty "grammar"); discriminate).
  destruct (String.eqb ty "keywords"); [|destruct (String.eqb ty "role");
                                          [|destruct (String.eqb ty "grammar")]];
    intros H; injection H as <-; eexists; (split; [reflexivity|]);
    repeat split; repeat constructor.
Qed.

Lemma mock_improvements_shape (ty rn : string) :
  exists d,
    mock_improvements ty rn = PyDict d
    /\ dict_lookup "resume_name" d = Some (PyStr rn)
    /\ dict_lookup "improvement_type" d = Some (PyStr ty)
    /\ dict_lookup "improvement_type_title" d
       = Some (PyStr (title_of type_titles_mock ty))
    /\ Forall (fun k => dict_has k d = true) (improvement_keys ty).
Proof.
  unfold mock_improvements, improvement_keys.
  destruct (String.eqb ty "keywords"); [|destruct (String.eqb ty "role");
                                          [|destruct (String.eqb ty "grammar")]];
    eexists; (split; [reflexivity|]); repeat split; repeat constructor.
Qed.

(** X30.  [analyze_resume_improvements] never raises and always returns a
    dict that echoes [resume_name] and [improvement_type] and carries the
    keys of the improvement type, every type other than keywords, role and
    grammar being treated as comprehensive.  The title is looked up in the
    table of the branch taken, and the two tables differ for role: an
    answer of the LLM gives [Role Alignment & Metrics], the fallback gives
    [Role Alignment]. *)
Theorem analyze_resume_improvements_shape (w : World)
  (resume_content improvement_type resume_name : string) :
  (exists d,
     analyze_resume_improvements w resume_content improvement_type resume_name
     = Ok (PyDict d)
     /\ dict_lookup "resume_name" d = Some (PyStr resume_name)
     /\ dict_lookup "improvement_type" d = Some (PyStr improvement_type)
     /\ Forall (fun k => dict_has k d = true) (improvement_keys improvement_type)
     /\ (dict_lookup "improvement_type_title" d
         = Some (PyStr (title_of type_titles_parsed improvement_type))
         \/ (analyze_resume_improvements w resume_content improvement_type resume_name
             = Ok (mock_improvements improvement_type resume_name)
             /\ dict_lookup "improvement_type_title" d
                = Some (PyStr (title_of type_titles_mock improvement_type)))))
  /\ title_of type_titles_parsed "role" = "Role Alignment & Metrics"
  /\ title_of type_titles_mock "role" = "Role Alignment".
Proof.
  split; [|split; reflexivity].
  unfold analyze_resume_improvements, bind.
  destruct (extract_json_str
              (call_llm w (improvement_prompt improvement_type resume_content)))
    as [js|e] eqn:Ejs.
  2:{ destruct (mock_improvements_shape improvement_type resume_name)
        as (d & -> & Hn & Ht & Htitle & Hk).
      exists d. repeat split; try assumption. right. split; [reflexivity | assumption]. }
  destruct (json_loads js) as [data|].
  2:{ destruct (mock_improvements_shape improvement_type resume_name)
        as (d & -> & Hn & Ht & Htitle & Hk).
      exists d. repeat split; try assumption. right. split; [reflexivity | assumption]. }
  destruct (improvements_of_data data improvement_type resume_name) as [r|e] eqn:Er.
  - destruct (improvements_of_data_shape _ _ _ _ Er) as (d & -> & Hn & Ht & Htitle & Hk).
    exists d. repeat split; try assumption. left. assumption.
  - destruct (mock_improvements_shape improvement_type resume_name)
      as (d & -> & Hn & Ht & Htitle & Hk).
    exists d. repeat split; try assumption. right. split; [reflexivity | assumption].
Qed.

End ImprovementExtras.

(* ------------------------------------------------------------------ *)
(** ** The further properties on the concrete setting *)

(** Bob's first check of November answers 10; after one consumed scan the
    next check answers 9. *)
Lemma quota_counts_down_witness :
  fst bob_checked = 10
  /\ check_and_reset_quota default_settings (example_world HttpTimeout)
       (snd (consume_quota (snd (snd bob_checked)) (fst (snd bob_checked))))
       (fst (consume_quota (snd (snd bob_checked)) (fst (snd bob_checked))))
     = (10 - 1, consume_quota (snd (snd bob_checked)) (fst (snd bob_checked))).
Proof.
  split; [reflexivity|].
  apply (quota_counts_down default_settings (example_world HttpTimeout)
           (open_session example_db) bob 10).
  - split; reflexivity.
  - discriminate.
  - reflexivity.
  - lia.
Defined.

(** A second check right after Bob's first one answers 10 again and
    changes nothing. *)
Lemma check_and_reset_quota_idempotent_witness :
  check_and_reset_quota default_settings (example_world HttpTimeout)
    (snd (snd bob_checked)) (fst (snd bob_checked))
  = (10, (fst (snd bob_checked), snd (snd bob_checked))).
Proof.
  apply (check_and_reset_quota_idempotent default_settings (example_world HttpTimeout)
           (open_session example_db) bob 10).
  - split; reflexivity.
  - reflexivity.
Defined.

(** With the UTC clock in December and the local date in November, Bob's
    count is reset again after each scan. *)
Lemma quota_refilled_while_clocks_disagree_witness :
  fst (check_and_reset_quota default_settings skewed_world
         (snd (consume_quota (snd (snd bob_checked_skewed)) (fst (snd bob_checked_skewed))))
         (fst (consume_quota (snd (snd bob_checked_skewed)) (fst (snd bob_checked_skewed)))))
  = Z.max 0 (MAX_MONTHLY default_settings)
  /\ scan_count
       (fst (snd (check_and_reset_quota default_settings skewed_world
                    (snd (consume_quota (snd (snd bob_checked_skewed))
                            (fst (snd bob_checked_skewed))))
                    (fst (consume_quota (snd (snd bob_checked_skewed))
                            (fst (snd bob_checked_skewed)))))))
     = Some 0.
Proof.
  apply (quota_refilled_while_clocks_disagree default_settings skewed_world
           (open_session example_db) bob 10).
  - left. discriminate.
  - discriminate.
  - left. discriminate.
  - reflexivity.
Defined.


(** Bob's upload adds one scan row, his own, stored under the sanitized
    name. *)
Lemma upload_accepted_adds_one_scan_witness :
  exists scan,
    fst bob_upload = upload_ok scan
    /\ scans (snd bob_upload) = [scan]
    /\ scan_user_id scan = 3
    /\ original_filename scan = "Resume 2026.PDF"
    /\ filename scan = "3_1793707200_Resume_2026.PDF".
Proof.
  destruct (@upload_accepted_adds_one_scan example_lib default_settings
              (example_world (HttpOk score_json)) (bearer "bob@example.com")
              pdf_upload example_db eq_refl)
    as (user & name & scan & Hu & Hn & _ & Hr & Hs & _ & Hid & Ho & Hf & _).
  injection Hu as <-. injection Hn as <-.
  exists scan. repeat split; assumption.
Defined.


(** A name with blanks and brackets stays allowed when sanitized. *)
Lemma sanitize_gives_safe_name_witness :
  sanitize "my cv (final).pdf" = "my_cv__final_.pdf"
  /\ allowed_file (Some (sanitize "my cv (final).pdf")) = true.
Proof.
  split; [reflexivity|].
  apply (proj2 (proj2 (proj2 (proj2 (sanitize_gives_safe_name "my cv (final).pdf"))))).
  reflexivity.
Defined.

(** The stored path of an upper-case PDF name goes to the PDF reader. *)
Lemma stored_path_keeps_extension_witness :
  basename (stored_path default_settings 3 1793707200 "Resume 2026.PDF")
  = stored_name 3 1793707200 "Resume 2026.PDF"
  /\ lower (splitext_ext (stored_path default_settings 3 1793707200 "Resume 2026.PDF"))
     = ".pdf"
  /\ extract_text_from_file (example_world HttpTimeout)
       (stored_path default_settings 3 1793707200 "Resume 2026.PDF")
     = _extract_text_from_pdf (example_world HttpTimeout)
         (stored_path default_settings 3 1793707200 "Resume 2026.PDF").
Proof.
  apply (stored_path_keeps_extension default_settings (example_world HttpTimeout)
           3 1793707200 "Resume 2026.PDF" ".pdf").
  - left. reflexivity.
  - exists "resume 2026". reflexivity.
Defined.


(** An answer with an object yields a braced text; one without raises the
    ValueError. *)
Lemma extract_json_str_braced_witness :
  braced "{x}"
  /\ match extract_json_str "no object here" with
     | Raise e => e = ValueError "No valid JSON found in response"
     | Ok _ => False
     end.
Proof.
  split.
  - apply (proj1 (extract_json_str_braced "  noise {x} more `` ")). reflexivity.
  - exact (proj2 (extract_json_str_braced "no object here") _ eq_refl).
Defined.

(** The answer with a string under strengths: that value is kept,
    weaknesses gets the standard list and jd_title the empty string. *)
Lemma analyze_keeps_llm_values_witness :
  exists d,
    analyze_resume_vs_jd (L := example_lib) (example_world (HttpOk solid_json))
      "resume" "job" "cv.pdf" "Engineer" = Ok (PyDict d)
    /\ dict_lookup "strengths" d = Some (PyStr "solid")
    /\ dict_lookup "weaknesses" d = Some (content_for "weaknesses")
    /\ dict_lookup "jd_title" d = Some (PyStr "").
Proof.
  destruct (@analyze_keeps_llm_values example_lib (example_world (HttpOk solid_json))
              "resume" "job" "cv.pdf" "Engineer" solid_json
              [(PyStr "strengths", PyStr "solid")] eq_refl eq_refl)
    as (d & Hd & Hkeep & Hfill & Hdef & _).
  exists d. split; [exact Hd|]. split; [|split].
  - apply Hkeep; [reflexivity | left; reflexivity].
  - apply Hfill; [right; left; reflexivity | exact I].
  - apply (Hdef "jd_title").
    + vm_compute. tauto.
    + vm_compute. intuition discriminate.
    + reflexivity.
Defined.

(** Without an answer the comparison is the mock, with a match score from
    45 to 95 and the title passed in. *)
Lemma analyze_mock_ranges_witness :
  exists m,
    analyze_resume_vs_jd (L := example_lib) (example_world HttpTimeout)
      "resume" "job" "cv.pdf" "Engineer"
    = Ok (mock_comparison (w_rng (example_world HttpTimeout)) "cv.pdf" "Engineer")
    /\ item (mock_comparison (w_rng (example_world HttpTimeout)) "cv.pdf" "Engineer")
         "match_score" = Some (PyInt m)
    /\ 45 <= m <= 95
    /\ item (mock_comparison (w_rng (example_world HttpTimeout)) "cv.pdf" "Engineer")
         "jd_title" = Some (PyStr "Engineer").
Proof.
  destruct (@analyze_mock_ranges example_lib (example_world HttpTimeout)
              "resume" "job" "cv.pdf" "Engineer")
    as (m & a & k & H & Hm & Hmr & _ & _ & _ & _ & _ & Ht).
  - intros js d0 Hjs. discriminate Hjs.
  - exists m. repeat split; try assumption; lia.
Defined.

(** Cara's registration gives her a key that no row had and keeps the keys
    distinct. *)
Lemma create_user_fresh_id_witness :
  (exists u, fst cara_created = Ok u
             /\ ~ In (user_id u) (map user_id (users example_db))
             /\ scan_count u = Some 0)
  /\ NoDup (map user_id (users (work (snd cara_created)))).
Proof.
  split.
  - eexists. split; [reflexivity|].
    destruct (proj1 (@create_user_fresh_id example_lib (example_world HttpTimeout)
                       (open_session example_db) "cara@example.com" "s3cret!")
                _ _ eq_refl) as (Hnew & Hc & _).
    split; [exact Hnew | exact Hc].
  - apply (proj2 (@create_user_fresh_id example_lib (example_world HttpTimeout)
                    (open_session example_db) "cara@example.com" "s3cret!")).
    vm_compute. repeat constructor; simpl; intuition discriminate.
Defined.

(** Cara registers and logs in with her password; another password is
    refused. *)
Lemma register_then_login_witness :
  exists u,
    cara_created = (Ok u, snd cara_created)
    /\ authenticate_user (L := example_lib) (example_world HttpTimeout) (snd cara_created)
         "cara@example.com" "s3cret!" = (Ok (Some u), snd cara_created)
    /\ authenticate_user (L := example_lib) (example_world HttpTimeout) (snd cara_created)
         "cara@example.com" "guess" = (Ok None, snd cara_created).
Proof.
  eexists. split; [reflexivity|].
  destruct (@register_then_login example_lib (example_world HttpTimeout)
              (example_world HttpTimeout) (open_session example_db) _
              "cara@example.com" "s3cret!" _ eq_refl eq_refl) as (Hin & Hout).
  split; [exact Hin|]. apply Hout. reflexivity.
Defined.

(** An unknown email is refused; Ann is authenticated by her password and
    refused with another. *)
Lemma authenticate_user_sound_witness :
  authenticate_user (L := example_lib) (example_world HttpTimeout)
    (open_session example_db) "dora@example.com" "tulip"
  = (Ok None, open_session example_db)
  /\ authenticate_user (L := example_lib) (example_world HttpTimeout)
       (open_session example_db) "ann@example.com" "tulip"
     = (Ok (Some ann), open_session example_db)
  /\ authenticate_user (L := example_lib) (example_world HttpTimeout)
       (open_session example_db) "ann@example.com" "rose"
     = (Ok None, open_session example_db).
Proof.
  split; [|split].
  - apply (proj1 (@authenticate_user_sound example_lib (example_world HttpTimeout)
                    (open_session example_db) "dora@example.com" "tulip")).
    reflexivity.
  - apply (proj1 (proj2 (@authenticate_user_sound example_lib (example_world HttpTimeout)
                           (open_session example_db) "ann@example.com" "tulip"))
             ann true); reflexivity.
  - apply (proj1 (proj2 (@authenticate_user_sound example_lib (example_world HttpTimeout)
                           (open_session example_db) "ann@example.com" "rose"))
             ann false); reflexivity.
Defined.

(** Bob's token resets his password once; afterwards it neither verifies
    nor resets. *)
Lemma reset_token_single_use_witness :
  fst bob_reset = true
  /\ verify_password_reset_token (example_world HttpTimeout) (snd bob_reset) "tok-bob" = None
  /\ reset_user_password (L := example_lib) (example_world HttpTimeout) (snd bob_reset)
       "tok-bob" "battery staple"
     = (false, snd bob_reset).
Proof.
  split; [reflexivity|].
  apply (@reset_token_single_use example_lib (example_world HttpTimeout)
           (example_world HttpTimeout) (open_session example_db)
           "tok-bob" "correct horse" "battery staple").
  - vm_compute. repeat constructor; simpl; intuition discriminate.
  - reflexivity.
Defined.

(** After the reset Bob logs in with the new password. *)
Lemma reset_then_login_witness :
  authenticate_user (L := example_lib) (example_world HttpTimeout) (snd bob_reset)
    "bob@example.com" "correct horse"
  = (Ok (Some (set_hashed_password
                 (get_password_hash (L := example_lib) (example_world HttpTimeout)
                    "correct horse") bob)),
     snd bob_reset).
Proof.
  apply (@reset_then_login example_lib (example_world HttpTimeout)
           (example_world HttpTimeout) (open_session example_db)
           "tok-bob" "correct horse" bob); reflexivity.
Defined.

(** Bob's bearer token decides whatever the cookie holds; another kind of
    header leaves the decision to the cookie. *)
Lemma current_user_comes_from_token_witness :
  In bob (users example_db)
  /\ get_current_user_from_request (L := example_lib)
       {| authorization := Some "Bearer jwt:bob@example.com";
          session_cookie := Some "jwt:ann@example.com" |} (open_session example_db)
     = get_current_user_from_request (L := example_lib)
         {| authorization := Some "Bearer jwt:bob@example.com";
            session_cookie := None |} (open_session example_db)
  /\ get_current_user_from_request (L := example_lib)
       {| authorization := Some "Basic Ym9i"; session_cookie := Some "jwt:ann@example.com" |}
       (open_session example_db)
     = get_current_user_from_request (L := example_lib)
         {| authorization := None; session_cookie := Some "jwt:ann@example.com" |}
         (open_session example_db).
Proof.
  split; [|split].
  - apply (proj1 (@current_user_comes_from_token example_lib (open_session example_db))
             (bearer "bob@example.com") bob).
    reflexivity.
  - apply (proj1 (proj2 (@current_user_comes_from_token example_lib
                           (open_session example_db)))).
    reflexivity.
  - apply (proj2 (proj2 (@current_user_comes_from_token example_lib
                           (open_session example_db)))).
    reflexivity.
Defined.

(** No token for an unknown email; for Bob the new token is appended and
    his old one marked used. *)
Lemma create_token_effect_witness :
  create_password_reset_token (T := example_timelib) (example_world HttpTimeout) 1
    "tok-new" (open_session example_db) "dora@example.com"
  = (None, open_session example_db)
  /\ fst bob_asked = Some "tok-new"
  /\ users (work (snd bob_asked)) = users example_db
  /\ tokens (work (snd bob_asked))
     = [set_used true bob_token; ann_token;
        issued_token (T := example_timelib) (example_world HttpTimeout) 1 "tok-new"
          (open_session example_db) bob].
Proof.
  split.
  - apply (proj1 (@create_token_effect example_timelib
                    (example_world HttpTimeout) 1 "tok-new" (open_session example_db)
                    "dora@example.com")).
    reflexivity.
  - destruct (proj2 (@create_token_effect example_timelib
                       (example_world HttpTimeout) 1 "tok-new" (open_session example_db)
                       "bob@example.com") bob eq_refl)
      as (Hf & Hu & _ & _ & Ht & _).
    split; [exact Hf|]. split; [exact Hu | exact Ht].
Defined.

(** Half an hour later Bob's new token verifies and resets his password. *)
Lemma issued_token_verifies_witness :
  verify_password_reset_token half_past_noon (snd bob_asked) "tok-new" = Some bob
  /\ fst (reset_user_password (L := example_lib) half_past_noon (snd bob_asked)
            "tok-new" "correct horse") = true.
Proof.
  apply (@issued_token_verifies example_lib example_timelib (example_world HttpTimeout)
           half_past_noon 1 "tok-new" (open_session example_db)
           "bob@example.com" "correct horse" bob).
  - reflexivity.
  - reflexivity.
  - vm_compute. intuition discriminate.
  - reflexivity.
Defined.

(** Bob's old token verified before the new one was issued and no longer
    does afterwards. *)
Lemma issued_token_withdraws_old_witness :
  verify_password_reset_token (example_world HttpTimeout) (open_session example_db)
    "tok-bob" = Some bob
  /\ verify_password_reset_token (example_world HttpTimeout) (snd bob_asked) "tok-bob"
     = None.
Proof.
  split; [reflexivity|].
  apply (@issued_token_withdraws_old example_timelib
           (example_world HttpTimeout) (example_world HttpTimeout) 1 "tok-new"
           (open_session example_db) "bob@example.com" "tok-bob" bob).
  - reflexivity.
  - discriminate.
  - intros t Ht Htok. vm_compute in Ht.
    destruct Ht as [<- | [<- | []]]; [reflexivity | discriminate Htok].
Defined.

(** A reset with Bob's token and a long enough password is answered 200
    and stores the hash; a password of five characters is answered 400 and
    nothing changes. *)
Lemma api_reset_password_guards_witness :
  status_code (fst (api_reset_password (L := example_lib) (example_world HttpTimeout)
                      "tok-bob" "correct horse" "correct horse" example_db)) = 200
  /\ api_reset_password (L := example_lib) (example_world HttpTimeout)
       "tok-bob" "horse" "horse" example_db
     = (json_response 400 false "Password must be at least 6 characters long.", example_db)
  /\ user_by_id (snd (api_reset_password (L := example_lib) (example_world HttpTimeout)
                        "tok-bob" "correct horse" "correct horse" example_db)) 3
     = Some (set_hashed_password
               (get_password_hash (L := example_lib) (example_world HttpTimeout)
                  "correct horse") bob).
Proof.
  split; [|split].
  - apply (proj1 (@api_reset_password_guards example_lib (example_world HttpTimeout)
                    "tok-bob" "correct horse" "correct horse" example_db)).
    split; [reflexivity|]. split; [vm_compute; lia | discriminate].
  - destruct (proj1 (proj2 (@api_reset_password_guards example_lib
                              (example_world HttpTimeout) "tok-bob" "horse" "horse"
                              example_db))) as (_ & Hdb).
    + discriminate.
    + reflexivity.
  - apply (proj2 (proj2 (@api_reset_password_guards example_lib
                           (example_world HttpTimeout) "tok-bob" "correct horse"
                           "correct horse" example_db)) bob); reflexivity.
Defined.

(** Ann's email is taken; Cara's registration succeeds once and is refused
    the second time. *)
Lemma register_only_once_witness :
  status_code (fst (api_register (L := example_lib) (example_world HttpTimeout)
                      "ann@example.com" "s3cret!" example_db)) = 400
  /\ api_register (L := example_lib) (example_world HttpTimeout)
       "ann@example.com" "s3cret!" example_db
     = (json_response 400 false "Email already registered", example_db)
  /\ status_code (fst (api_register (L := example_lib) (example_world HttpTimeout)
                         "cara@example.com" "s3cret!" example_db)) = 200
  /\ fst (api_register (L := example_lib) half_past_noon "cara@example.com" "other"
            (snd (api_register (L := example_lib) (example_world HttpTimeout)
                    "cara@example.com" "s3cret!" example_db)))
     = json_response 400 false "Email already registered".
Proof.
  pose proof (@register_only_once example_lib (example_world HttpTimeout) half_past_noon
                "ann@example.com" "s3cret!" "other" example_db) as (Hiff & Hsame & _ & _).
  pose proof (@register_only_once example_lib (example_world HttpTimeout) half_past_noon
                "cara@example.com" "s3cret!" "other" example_db) as (_ & _ & Hok & Hagain).
  assert (Hann : status_code (fst (api_register (L := example_lib)
                                     (example_world HttpTimeout)
                                     "ann@example.com" "s3cret!" example_db)) = 400).
  { apply (proj2 Hiff). exists ann. split; [right; left; reflexivity | reflexivity]. }
  split; [exact Hann|]. split; [exact (Hsame Hann)|]. split.
  - apply Hok. discriminate.
  - rewrite Hagain. reflexivity.
Defined.

(** The form upload sends an anonymous request to the login page and Bob
    to the dashboard, with the database the API upload leaves. *)
Lemma post_upload_matches_api_witness :
  fst (post_upload (L := example_lib) default_settings (example_world (HttpOk score_json))
         anonymous pdf_upload example_db) = Ok (RedirectResponse "/login" 307)
  /\ fst (post_upload (L := example_lib) default_settings
            (example_world (HttpOk score_json)) (bearer "bob@example.com") pdf_upload
            example_db) = Ok (RedirectResponse "/dashboard" 302)
  /\ snd (post_upload (L := example_lib) default_settings
            (example_world (HttpOk score_json)) (bearer "bob@example.com") pdf_upload
            example_db)
     = snd (api_upload_resume (L := example_lib) default_settings
              (example_world (HttpOk score_json)) (bearer "bob@example.com") pdf_upload
              example_db).
Proof.
  split; [|split].
  - apply (proj2 (proj1 (proj2 (@post_upload_matches_api example_lib default_settings
                                   (example_world (HttpOk score_json)) anonymous
                                   pdf_upload example_db)))).
    reflexivity.
  - apply (proj2 (proj1 (proj2 (proj2 (@post_upload_matches_api example_lib
                                          default_settings
                                          (example_world (HttpOk score_json))
                                          (bearer "bob@example.com") pdf_upload
                                          example_db))))).
    reflexivity.
  - apply (proj1 (@post_upload_matches_api example_lib default_settings
                    (example_world (HttpOk score_json)) (bearer "bob@example.com")
                    pdf_upload example_db)).
Defined.

(** Cara's account made by the LinkedIn sign-in is entered with the
    placeholder as password. *)
Lemma linkedin_account_has_fixed_password_witness :
  hashed_password (fst (linkedin_find_or_create_user (example_world HttpTimeout)
                          (open_session example_db) cara_linkedin))
  = "linkedin_oauth_user"
  /\ exists u',
       fst (authenticate_user (L := example_lib) half_past_noon
              (snd (linkedin_find_or_create_user (example_world HttpTimeout)
                      (open_session example_db) cara_linkedin))
              "cara@example.com" "linkedin_oauth_user") = Ok (Some u')
       /\ user_id u' = 4.
Proof.
  destruct (@linkedin_account_has_fixed_password example_lib (example_world HttpTimeout)
              half_past_noon (open_session example_db) cara_linkedin eq_refl eq_refl)
    as (Hp & _ & u' & Hauth & Hid & _).
  split; [exact Hp|]. exists u'. split; [exact Hauth | exact Hid].
Defined.

(** The sign-in keeps the emails distinct; without an email the account
    goes under the LinkedIn id. *)
Lemma linkedin_sign_in_idempotent_witness :
  NoDup (map email (users (work (snd (linkedin_find_or_create_user
                                        (example_world HttpTimeout)
                                        (open_session example_db) cara_linkedin)))))
  /\ linkedin_email dan_linkedin = "linkedin_dan-5@linkedin.local".
Proof.
  pose proof (@linkedin_sign_in_idempotent (example_world HttpTimeout) half_past_noon
                (open_session example_db) cara_linkedin) as (_ & Hnd & _ & _).
  pose proof (@linkedin_sign_in_idempotent (example_world HttpTimeout) half_past_noon
                (open_session example_db) dan_linkedin) as (_ & _ & _ & Hmail).
  split.
  - apply Hnd. vm_compute. repeat constructor; simpl; intuition discriminate.
  - apply (Hmail "dan-5"); reflexivity.
Defined.

(** When the request to the LLM times out, the cover letter is the
    fallback one. *)
Lemma generate_cover_letter_shape_witness :
  generate_cover_letter (example_world HttpTimeout) "resume" "job" "Engineer" "Acme"
    "Ann" "ann@example.com" "" true false false true
  = Ok (cover_letter (mock_paragraphs "Engineer" "Acme") "Ann" "ann@example.com" "").
Proof.
  destruct (generate_cover_letter_shape (example_world HttpTimeout) "resume" "job"
              "Engineer" "Acme" "Ann" "ann@example.com" "" true false false true)
    as (ps & H & _ & _ & _ & _ & Hmock).
  rewrite H, (Hmock eq_refl). reflexivity.
Defined.
